(** * PolyHedge: the portfolio allocation and rebalancing engine

    A shallow embedding of the TypeScript sources

      - the data model ([lib/types]),
      - the risk score and the bundle and portfolio metrics ([lib/metrics]),
      - the results page with its three rebalancing handlers ([ResultsPage]),

    and the properties the design document states about them.

    Numbers.  The code is embedded twice.

    The first embedding takes JavaScript numbers for real numbers: sums,
    products and quotients are exact, and there is no NaN, no infinity and
    no rounding.  It carries the properties of the control flow of the
    handlers and of what they store where: which branch a handler takes,
    which fields it writes, and the expressions it writes into them.

    The second embedding, module [Js], is written over a type of numbers
    with the operations of the language.  Read over [binary64] it runs the
    handlers on the doubles of JavaScript; read over the real numbers with
    every operation rounded, it carries the properties that depend on the
    rounding: the sum of the allocations after an edit, the payout against
    the allocation times the multiplier, and the ratio of allocation to
    budget across a budget change.

    A field the code reads through [x || d] (the budget of a bundle, the
    price of a bet, the total budget of the stored metrics) is an option:
    [None] stands for a value that is absent; [Some 0] is the number zero,
    which [||] also replaces.  Array indices are natural numbers. *)

From Stdlib Require Import Reals Lra Lia String Ascii Bool Arith ZArith List.
From Stdlib Require Floats.PrimFloat.
Import ListNotations.

Open Scope R_scope.

(** ** JavaScript idioms *)

(** [x || d] on a number that may be absent: [d] replaces an absent value
    and the number zero. *)
Definition js_or (x : option R) (d : R) : R :=
  match x with
  | Some v => if Req_dec_T v 0 then d else v
  | None => d
  end.

(** The comparisons [x !== y], [x > y] and [x <= y] of two numbers. *)
Definition num_neq (x y : R) : bool := if Req_dec_T x y then false else true.
Definition num_gt (x y : R) : bool := if Rlt_dec y x then true else false.
Definition num_le (x y : R) : bool := if Rle_dec x y then true else false.

(** [l.reduce((sum, x, i) => f sum x i, init)]: a left fold that also hands
    the index to the callback. *)
Fixpoint reduce_from {A B : Type} (f : B -> A -> nat -> B)
    (i : nat) (l : list A) (acc : B) : B :=
  match l with
  | [] => acc
  | x :: t => reduce_from f (S i) t (f acc x i)
  end.

Definition reduce {A B : Type} (f : B -> A -> nat -> B) (l : list A) (init : B) : B :=
  reduce_from f 0 l init.

(** [l.map((x, i) => f x i)] and [l.forEach((x, i) => ...)] where the callback
    rewrites the fields of [x]. *)
Fixpoint mapi_from {A B : Type} (f : A -> nat -> B) (i : nat) (l : list A) : list B :=
  match l with
  | [] => []
  | x :: t => f x i :: mapi_from f (S i) t
  end.

Definition mapi {A B : Type} (f : A -> nat -> B) (l : list A) : list B :=
  mapi_from f 0 l.

(** [l.filter((_, i) => p i)]. *)
Fixpoint filteri_from {A : Type} (p : nat -> bool) (i : nat) (l : list A) : list A :=
  match l with
  | [] => []
  | x :: t => if p i then x :: filteri_from p (S i) t else filteri_from p (S i) t
  end.

Definition filteri {A : Type} (p : nat -> bool) (l : list A) : list A :=
  filteri_from p 0 l.

(** [a[i] = x] on a copy of [a].  An index inside the array replaces the
    element, the index [a.length] appends; a larger index would leave holes
    in the array, which a list cannot hold: [None]. *)
Fixpoint array_set {A : Type} (l : list A) (i : nat) (x : A) : option (list A) :=
  match l, i with
  | [], O => Some [x]
  | [], S _ => None
  | _ :: t, O => Some (x :: t)
  | y :: t, S j => option_map (cons y) (array_set t j x)
  end.

(** [Math.max(...l)] and [Math.min(...l)] on a list that is not empty (the
    callers test for that; on the empty list JavaScript answers with an
    infinity, which the model has not). *)
Definition math_max (l : list R) : R :=
  match l with
  | [] => 0
  | x :: t => fold_left Rmax t x
  end.

Definition math_min (l : list R) : R :=
  match l with
  | [] => 0
  | x :: t => fold_left Rmin t x
  end.

(** [s.split(':')[0]]: the text before the first colon. *)
Fixpoint before_colon (s : string) : string :=
  match s with
  | EmptyString => EmptyString
  | String c t => if Ascii.eqb c ":"%char then EmptyString else String c (before_colon t)
  end.

(** [s.split(':')[0] || "Bundle"]: the empty string is falsy. *)
Definition theme_of (s : string) : string :=
  match before_colon s with
  | EmptyString => "Bundle"%string
  | t => t
  end.

(** ** Data model ([lib/types]) *)

(** The [market] of a bet is carried along unchanged by every operation
    below and is left out. *)
Record HedgeBet := mkBet {
  outcome : string;
  allocation : R;
  allocation_percent : R;
  current_price : option R;
  potential_payout : R;
  payout_multiplier : R
}.

Record HedgeBundle := mkBundle {
  budget : option R;
  bets : list HedgeBet;
  total_allocated : R;
  coverage_summary : string;
  risk_factors_covered : list string
}.

Module BundleMetrics.
Record t := mk {
  theme_name : string;
  total_allocation : R;
  num_markets : nat;
  avg_payout_multiplier : R;
  max_payout : R;
  min_payout : R;
  total_max_payout : R;
  risk_score : R;
  volatility : R;
  sharpe_ratio : R;
  expected_return : R;
  diversification_score : R;
  liquidity_score : R
}.
End BundleMetrics.

Module PortfolioMetrics.
Record t := mk {
  total_budget : option R;
  total_allocated : R;
  num_bundles : nat;
  total_markets : nat;
  overall_risk_score : R;
  portfolio_volatility : R;
  sharpe_ratio : R;
  correlation_score : R;
  sector_diversity_score : R;
  total_max_payout : R;
  weighted_avg_multiplier : R;
  expected_return : R;
  bundle_metrics : list BundleMetrics.t
}.
End PortfolioMetrics.

Module HedgeResponse.
Record t := mk {
  bundles : list HedgeBundle;
  metrics : PortfolioMetrics.t
}.
End HedgeResponse.

(** ** Metrics ([lib/metrics]) *)

Definition calculateRiskScore (bets : list HedgeBet) : R :=
  match bets with
  | [] => 0
  | _ :: _ =>
    let prices := map (fun b => js_or (current_price b) (1/2)) bets in
    let allocations := map allocation bets in
    let totalAlloc := fold_left (fun a b => a + b) allocations 0 in
    if num_le totalAlloc 0 then 0
    else
      let weights := map (fun a => a / totalAlloc) allocations in
      let portfolioVariance :=
        reduce (fun sum w i => let p := nth i prices 0 in sum + (w * w * p * (1 - p)))
               weights 0 in
      let portfolioStdDev := sqrt portfolioVariance in
      let riskScore := Rmin (portfolioStdDev * 400) 100 in
      let avgPriceDist :=
        fold_left (fun sum p => sum + Rabs (p - 1/2)) prices 0 / INR (length prices) in
      let avgIndRisk := (1 - avgPriceDist * 2) * 100 in
      (7/10 * riskScore) + (3/10 * avgIndRisk)
  end.

Definition calculateBundleMetrics (bundle : HedgeBundle) : BundleMetrics.t :=
  let bets := bets bundle in
  match bets with
  | [] =>
    BundleMetrics.mk (theme_of (coverage_summary bundle)) 0 0 1 0 0 0 0 0 0 0 0 0
  | _ :: _ =>
    let totalAllocation := fold_left (fun sum b => sum + allocation b) bets 0 in
    let payouts := map potential_payout bets in
    let totalMaxPayout := fold_left (fun sum p => sum + p) payouts 0 in
    let riskScore := calculateRiskScore bets in
    let weightedSum :=
      fold_left (fun sum b => sum + (allocation b * payout_multiplier b)) bets 0 in
    let avgMultiplier :=
      if num_gt totalAllocation 0 then weightedSum / totalAllocation else 1 in
    BundleMetrics.mk (theme_of (coverage_summary bundle))
      totalAllocation (length bets) avgMultiplier
      (math_max payouts) (math_min payouts) totalMaxPayout riskScore
      0 0 0 0 0
  end.

Definition calculatePortfolioMetrics (bundles : list HedgeBundle) : PortfolioMetrics.t :=
  let bundleMetrics := map calculateBundleMetrics bundles in
  let totalAllocated := fold_left (fun sum b => sum + total_allocated b) bundles 0 in
  let totalMaxPayout :=
    fold_left (fun sum m => sum + BundleMetrics.total_max_payout m) bundleMetrics 0 in
  let totalRiskWeight :=
    fold_left (fun sum m => sum + (BundleMetrics.risk_score m * BundleMetrics.total_allocation m))
              bundleMetrics 0 in
  let overallRisk :=
    if num_gt totalAllocated 0 then totalRiskWeight / totalAllocated else 0 in
  PortfolioMetrics.mk
    (Some (js_or (match bundles with [] => None | b :: _ => budget b end) 0))
    totalAllocated
    (length bundles)
    (fold_left (fun sum b => (sum + length (bets b))%nat) bundles 0%nat)
    overallRisk
    0 0 0 0
    totalMaxPayout
    0 0
    bundleMetrics.

(** ** The results page ([ResultsPage]) *)

(** The state of the page that the handlers read and write.  The text of
    the budget field, [budgetInput], is kept as the number [parseFloat]
    reads from it: [None] when the text is not a number.  [JSON.parse
    (JSON.stringify x)], the deep copy, is the identity on the values of
    the model. *)
Record State := mkState {
  originalBundles : list HedgeBundle;
  currentBundles : list HedgeBundle;
  metrics : option PortfolioMetrics.t;
  budgetInput : option R
}.

Inductive JsError := TypeError | SyntaxError.

(** What a handler does: it completes with a new state, it raises, or it
    writes past the end of the working array ([Sparse], see [array_set]). *)
Inductive Outcome :=
| Done (s : State)
| Raises (e : JsError)
| Sparse.

Inductive Field := Allocation | Multiplier.

(** [x.toFixed(0)] read back by [parseFloat]: the nearest integer, the
    larger one of two that are equally near, computed on the absolute value
    with the sign put back. *)
Definition toFixed0 (x : R) : R :=
  if Rlt_dec x 0 then - IZR (Zfloor (- x + 1/2)) else IZR (Zfloor (x + 1/2)).

(** The first state: the initial values of the [useState] hooks. *)
Definition initial : State := mkState [] [] None None.

(** The effect that runs once on load, on the stored response [parsed]. *)
Definition load (parsed : HedgeResponse.t) : State :=
  mkState
    (HedgeResponse.bundles parsed)
    (HedgeResponse.bundles parsed)
    (Some (HedgeResponse.metrics parsed))
    (match PortfolioMetrics.total_budget (HedgeResponse.metrics parsed) with
     | Some b => Some (toFixed0 b)
     | None => Some 100
     end).

(** [recalculatemetrics] awaits the import of the metrics module and then
    sets the metrics and the working bundles; the triggers are taken one
    after the other, each running to its end. *)
Definition recalculatemetrics (bundles : list HedgeBundle) (s : State) : State :=
  mkState (originalBundles s) bundles
          (Some (calculatePortfolioMetrics bundles)) (budgetInput s).

(** [{...b, allocation: b.allocation * scale,
          potential_payout: b.potential_payout * scale}] *)
Definition scale_bet (scale : R) (b : HedgeBet) : HedgeBet :=
  mkBet (outcome b) (allocation b * scale) (allocation_percent b)
        (current_price b) (potential_payout b * scale) (payout_multiplier b).

(** [bet.allocation = a; bet.potential_payout = a * bet.payout_multiplier] *)
Definition allocate (a : R) (bet : HedgeBet) : HedgeBet :=
  mkBet (outcome bet) a (allocation_percent bet)
        (current_price bet) (a * payout_multiplier bet) (payout_multiplier bet).

(** Trigger C.  Past the end of the pristine array [JSON.stringify] gives
    [undefined], which [JSON.parse] refuses with a [SyntaxError].  The
    variable [currentBudget] of the source is never read and is left out. *)
Definition handleReset (s : State) (bundleIndex : nat) : Outcome :=
  match originalBundles s with
  | [] => Done s
  | _ :: _ =>
    match nth_error (originalBundles s) bundleIndex with
    | None => Raises SyntaxError
    | Some restored =>
      let intendedBudget := js_or (budgetInput s) 100 in
      let originalBudget := js_or (budget restored) 100 in
      let restored' :=
        if num_neq intendedBudget originalBudget && num_gt originalBudget 0 then
          let scale := intendedBudget / originalBudget in
          mkBundle (Some intendedBudget)
                   (map (scale_bet scale) (bets restored))
                   (total_allocated restored)
                   (coverage_summary restored)
                   (risk_factors_covered restored)
        else restored in
      match array_set (currentBundles s) bundleIndex restored' with
      | Some updatedBundles => Done (recalculatemetrics updatedBundles s)
      | None => Sparse
      end
    end
  end.

(** Trigger B.  [newBudget] is [parseFloat(val)], [None] when that is NaN;
    the text is stored in the budget field before anything is tested. *)
Definition handleUpdateBudget (s : State) (newBudget : option R) : Outcome :=
  let s1 := mkState (originalBundles s) (currentBundles s) (metrics s) newBudget in
  match currentBundles s, newBudget with
  | [], _ => Done s1
  | _ :: _, None => Done s1
  | first :: _, Some newBudget =>
    if num_le newBudget 0 then Done s1
    else
      let oldBudget := js_or (budget first) 100 in
      if num_le oldBudget 0 then Done s1
      else
        let scale := newBudget / oldBudget in
        let updatedBundles :=
          map (fun bundle =>
                 mkBundle (Some newBudget)
                          (map (scale_bet scale) (bets bundle))
                          (total_allocated bundle)
                          (coverage_summary bundle)
                          (risk_factors_covered bundle))
              (currentBundles s) in
        Done (recalculatemetrics updatedBundles s1)
  end.

(** Trigger A and the edit of a multiplier.  Past the end of the working
    array the bundle is [undefined] and spreading its [bets] raises a
    [TypeError]; so does writing the multiplier of a bet that is not there.
    The allocation branch rewrites the bets in place, each from its own
    allocation before the edit and from the sum taken before the loop. *)
Definition handleUpdateBet (s : State) (bundleIndex betIndex : nat)
    (field : Field) (value : R) : Outcome :=
  match nth_error (currentBundles s) bundleIndex with
  | None => Raises TypeError
  | Some bundle =>
    let bets0 := bets bundle in
    match field with
    | Allocation =>
      let totalBudget := js_or (budget bundle) 100 in
      let newAllocation := Rmin (Rmax value 0) totalBudget in
      let remainder := totalBudget - newAllocation in
      let otherBets := filteri (fun idx => negb (idx =? betIndex)%nat) bets0 in
      let currentSumOthers := fold_left (fun sum b => sum + allocation b) otherBets 0 in
      let bets1 :=
        mapi (fun bet idx =>
                if (idx =? betIndex)%nat then allocate newAllocation bet
                else
                  let share :=
                    if num_gt currentSumOthers 0
                    then allocation bet / currentSumOthers
                    else 1 / INR (length otherBets) in
                  let newAlloc := remainder * share in
                  allocate newAlloc bet)
             bets0 in
      let bundle1 :=
        mkBundle (budget bundle) bets1 totalBudget
                 (coverage_summary bundle) (risk_factors_covered bundle) in
      match array_set (currentBundles s) bundleIndex bundle1 with
      | Some updatedBundles => Done (recalculatemetrics updatedBundles s)
      | None => Sparse
      end
    | Multiplier =>
      match nth_error bets0 betIndex with
      | None => Raises TypeError
      | Some targetBet =>
        let targetBet1 :=
          mkBet (outcome targetBet) (allocation targetBet)
                (allocation_percent targetBet) (current_price targetBet)
                (allocation targetBet * value) value in
        match array_set bets0 betIndex targetBet1 with
        | None => Sparse
        | Some bets1 =>
          let bundle1 :=
            mkBundle (budget bundle) bets1 (total_allocated bundle)
                     (coverage_summary bundle) (risk_factors_covered bundle) in
          match array_set (currentBundles s) bundleIndex bundle1 with
          | Some updatedBundles => Done (recalculatemetrics updatedBundles s)
          | None => Sparse
          end
        end
      end
    end
  end.

(** The three triggers of the rebalancing engine, and one step of it. *)
Inductive Trigger :=
| UpdateBet (bundleIndex betIndex : nat) (field : Field) (value : R)
| UpdateBudget (newBudget : option R)
| Reset (bundleIndex : nat).

Definition step (s : State) (t : Trigger) : Outcome :=
  match t with
  | UpdateBet bi i f v => handleUpdateBet s bi i f v
  | UpdateBudget nb => handleUpdateBudget s nb
  | Reset bi => handleReset s bi
  end.

(** The states the page reaches from [s0] by triggers that complete. *)
Inductive reaches (s0 : State) : State -> Prop :=
| reaches_refl : reaches s0 s0
| reaches_step : forall s t s',
    reaches s0 s -> step s t = Done s' -> reaches s0 s'.

(** ** The price chart ([PriceChart]) *)

(** The bounds of the price axis, taken from the prices of the history once
    it is loaded and not empty. *)
Definition minPrice (prices : list R) : R := Rmax 0 (math_min prices - 5/100).

Definition maxPrice (prices : list R) : R := Rmin 1 (math_max prices + 5/100).

(** * The vocabulary of the properties *)

(** ** Sums, indices and the bets of an edit *)

(** The sum of a list of numbers, as mathematics writes it. *)
Definition Rsum (l : list R) : R := fold_right Rplus 0 l.

(** The filter [idx !== betIndex] of the allocation edit. *)
Definition not_target (betIndex : nat) : nat -> bool :=
  fun idx => negb (idx =? betIndex)%nat.

(** [i] is one of the [n] indices that start at [k]. *)
Definition in_range (k n i : nat) : bool := ((k <=? i) && (i <? k + n))%nat.


(** The share of the rest that the edit of bet [betIndex] gives to another
    bet of [bundle], and the bundle that the allocation branch of
    [handleUpdateBet] builds. *)
Definition share_of (bundle : HedgeBundle) (betIndex : nat) (bet : HedgeBet) : R :=
  let otherBets := filteri (not_target betIndex) (bets bundle) in
  let currentSumOthers := fold_left (fun sum b => sum + allocation b) otherBets 0 in
  if num_gt currentSumOthers 0
  then allocation bet / currentSumOthers
  else 1 / INR (length otherBets).

Definition edited (bundle : HedgeBundle) (betIndex : nat) (value : R) : HedgeBundle :=
  let totalBudget := js_or (budget bundle) 100 in
  let newAllocation := Rmin (Rmax value 0) totalBudget in
  let remainder := totalBudget - newAllocation in
  mkBundle (budget bundle)
    (mapi (fun bet idx =>
             if (idx =? betIndex)%nat then allocate newAllocation bet
             else allocate (remainder * share_of bundle betIndex bet) bet)
          (bets bundle))
    totalBudget (coverage_summary bundle) (risk_factors_covered bundle).

(** The allocations of a bundle, in the order of its bets. *)
Definition allocations (b : HedgeBundle) : list R := map allocation (bets b).


(** ** Scaled bundles *)

(** The bundle that the [map] of [handleUpdateBudget] builds. *)
Definition rescaled (newBudget scale : R) (bundle : HedgeBundle) : HedgeBundle :=
  mkBundle (Some newBudget) (map (scale_bet scale) (bets bundle))
           (total_allocated bundle) (coverage_summary bundle)
           (risk_factors_covered bundle).

(** The state a rejected budget change leaves: only the text of the budget
    field has changed. *)
Definition budget_typed (s : State) (newBudget : option R) : State :=
  mkState (originalBundles s) (currentBundles s) (metrics s) newBudget.

(** The bets of [bundle'] are those of [bundle], each with its allocation
    and its payout multiplied by [c]. *)
Definition scales_bets (c : R) (bundle bundle' : HedgeBundle) : Prop :=
  length (bets bundle') = length (bets bundle) /\
  forall j bet, nth_error (bets bundle) j = Some bet ->
    exists bet',
      nth_error (bets bundle') j = Some bet' /\
      allocation bet' = allocation bet * c /\
      potential_payout bet' = potential_payout bet * c /\
      payout_multiplier bet' = payout_multiplier bet.

(** Every bundle of [l'] is the bundle of [l] at its index with the budget
    [nb] and with its bets scaled by [c]. *)
Definition scales_every_bet (c nb : R) (l l' : list HedgeBundle) : Prop :=
  length l' = length l /\
  forall i bundle, nth_error l i = Some bundle ->
    exists bundle',
      nth_error l' i = Some bundle' /\
      budget bundle' = Some nb /\
      scales_bets c bundle bundle'.

(** The bundle that [handleReset] writes back for the pristine bundle
    [pristine]: the copy, scaled to the budget the field reads when that
    differs from the budget of the copy and the latter is positive. *)
Definition restored_bundle (s : State) (pristine : HedgeBundle) : HedgeBundle :=
  let intendedBudget := js_or (budgetInput s) 100 in
  let originalBudget := js_or (budget pristine) 100 in
  if num_neq intendedBudget originalBudget && num_gt originalBudget 0
  then rescaled intendedBudget (intendedBudget / originalBudget) pristine
  else pristine.

(** The budget that the field reads once the page has loaded the metrics
    [m], as [handleReset] takes it: the total budget rounded by [toFixed],
    100 in its place when it rounds to 0 or is absent. *)
Definition budget_shown (m : PortfolioMetrics.t) : R :=
  match PortfolioMetrics.total_budget m with
  | Some b => js_or (Some (toFixed0 b)) 100
  | None => 100
  end.

(** ** Closeness *)

(** Two numbers, and two bundles bet by bet, that differ by less than the
    tolerance. *)
Definition close (x y : R) : Prop := Rabs (x - y) < 1e-6.

Definition close_bundle (b b' : HedgeBundle) : Prop :=
  match budget b, budget b' with
  | Some x, Some y => close x y
  | None, None => True
  | _, _ => False
  end /\
  length (bets b') = length (bets b) /\
  forall j bet bet',
    nth_error (bets b) j = Some bet -> nth_error (bets b') j = Some bet' ->
    close (allocation bet) (allocation bet') /\
    close (potential_payout bet) (potential_payout bet').

(** ** The risk score of the design document *)

(** The price the score works with: the current price of the bet, 0.5 when
    that is absent or zero. *)
Definition price (b : HedgeBet) : R := js_or (current_price b) (1/2).

(** The score as the design document writes it. *)
Definition score_bundle_risk (bets : list HedgeBet) : R :=
  match bets with
  | [] => 0
  | _ :: _ =>
    let total := Rsum (map allocation bets) in
    if Rle_dec total 0 then 0
    else
      let w := fun b => allocation b / total in
      let variance := Rsum (map (fun b => w b * w b * price b * (1 - price b)) bets) in
      let avg_dist := Rsum (map (fun b => Rabs (price b - 1/2)) bets) / INR (length bets) in
      let risk_a := Rmin (sqrt variance * 400) 100 in
      let risk_b := (1 - avg_dist * 2) * 100 in
      7/10 * risk_a + 3/10 * risk_b
  end.

(** ** Sample portfolios *)

(** A bet that holds [a] with multiplier [m], and a page that shows the
    bundles [l] with the budget field reading [b]. *)
Definition bet_of (a m : R) : HedgeBet := mkBet "Yes" a 0 (Some (1/2)) (a * m) m.

Definition page_of (l : list HedgeBundle) (b : R) : State :=
  mkState l l (Some (calculatePortfolioMetrics l)) (Some b).


Definition proportional_bundle : HedgeBundle :=
  mkBundle (Some 100) [bet_of 60 2; bet_of 40 3; bet_of 0 5] 100 "Rates: covered" [].

Definition loaded_example : HedgeResponse.t :=
  HedgeResponse.mk [proportional_bundle]
                   (calculatePortfolioMetrics [proportional_bundle]).

Definition rates_bundle : HedgeBundle :=
  mkBundle (Some 100) [bet_of 70 2; bet_of 30 3] 100 "Rates: covered" [].

Definition missing_budget_bundle : HedgeBundle :=
  mkBundle None [bet_of 70 2; bet_of 30 3] 100 "Rates: covered" [].

Definition unbudgeted_bundle : HedgeBundle :=
  mkBundle (Some 0) [bet_of 70 2; bet_of 30 3] 100 "Rates: covered" [].

Definition metrics_with_budget (b : option R) : PortfolioMetrics.t :=
  PortfolioMetrics.mk b 0 0 0 0 0 0 0 0 0 0 0 [].

Definition fractional_bundle : HedgeBundle :=
  mkBundle (Some (1004/10)) [bet_of (1004/10) 2] (1004/10) "Rates: covered" [].

Definition fractional_response : HedgeResponse.t :=
  HedgeResponse.mk [fractional_bundle] (metrics_with_budget (Some (1004/10))).

Definition empty_bundle : HedgeBundle :=
  mkBundle (Some 100) [] 0 "Rates: covered" [].

(** ** Statements of the design document that the code does not meet *)


(** C7 as the design document words it: the scaling is by the intended
    budget over the recorded budget of the pristine bundle, and a pristine
    budget of 0 means no scaling. *)
Definition trigger_c_as_stated : Prop :=
  forall s bundleIndex pristine P,
    nth_error (originalBundles s) bundleIndex = Some pristine ->
    (bundleIndex < length (currentBundles s))%nat ->
    budget pristine = Some P ->
    let intended := js_or (budgetInput s) 100 in
    exists s' bundle',
      handleReset s bundleIndex = Done s' /\
      nth_error (currentBundles s') bundleIndex = Some bundle' /\
      (intended <> P -> 0 < P ->
         budget bundle' = Some intended /\
         scales_bets (intended / P) pristine bundle') /\
      (P = 0 \/ P = intended -> bundle' = pristine).

(** C8 as the design document words it: for every portfolio, a reset right
    after loading gives back the pristine bundle. *)
Definition reset_after_load_as_stated : Prop :=
  forall parsed bundleIndex pristine,
    nth_error (HedgeResponse.bundles parsed) bundleIndex = Some pristine ->
    exists s' bundle',
      handleReset (load parsed) bundleIndex = Done s' /\
      nth_error (currentBundles s') bundleIndex = Some bundle' /\
      close_bundle pristine bundle'.

(** C9 as the design document words it: each of the invalid inputs leaves
    the working bundles as they are. *)
Definition invalid_input_as_stated : Prop :=
  (forall s newBudget,
     currentBundles s = [] \/ newBudget = None \/
     (exists v, newBudget = Some v /\ v <= 0) ->
     exists s', handleUpdateBudget s newBudget = Done s' /\
                currentBundles s' = currentBundles s) /\
  (forall s bundleIndex betIndex value bundle,
     nth_error (currentBundles s) bundleIndex = Some bundle ->
     bets bundle = [] ->
     exists s', handleUpdateBet s bundleIndex betIndex Allocation value = Done s' /\
                currentBundles s' = currentBundles s).

(** ** Further vocabulary *)

(** The payouts of a bundle, in the order of its bets. *)
Definition payouts (b : HedgeBundle) : list R := map potential_payout (bets b).

(** The text [s] holds no colon. *)
Definition colon_free (s : string) : Prop :=
  ~ In ":"%char (list_ascii_of_string s).

(** What no trigger writes: the summary and the risk factors of a bundle
    and, bet by bet, the outcome, the price and the allocation percentage. *)
Definition bet_shape (bet : HedgeBet) : string * option R * R :=
  (outcome bet, current_price bet, allocation_percent bet).

Definition shape (b : HedgeBundle) : string * list string * list (string * option R * R) :=
  (coverage_summary b, risk_factors_covered b, map bet_shape (bets b)).

(** The states the page reaches from [s0] by completed edits and resets,
    with no budget change among them. *)
Inductive reaches_at_budget (s0 : State) : State -> Prop :=
| at_budget_refl : reaches_at_budget s0 s0
| at_budget_edit : forall s bundleIndex betIndex field value s',
    reaches_at_budget s0 s ->
    handleUpdateBet s bundleIndex betIndex field value = Done s' ->
    reaches_at_budget s0 s'
| at_budget_reset : forall s bundleIndex s',
    reaches_at_budget s0 s ->
    handleReset s bundleIndex = Done s' ->
    reaches_at_budget s0 s'.

(** * The engine in the numbers of JavaScript

    The definitions above take the sums, products and quotients of the code
    for exact.  JavaScript computes them in binary64, the double precision
    of IEEE 754, and rounds every result.  Module [Js] holds the handlers
    and the metrics once more, written over a type of numbers with the
    operations of the language, and two readings of that type:

      - [binary64], the numbers of JavaScript themselves, on which the
        handlers run;
      - [rounded rnd], the real numbers with every sum, difference,
        product, quotient and square root rounded by [rnd], for which
        the bounds on the rounding errors are proved. *)

Module Js.

(** The numbers and the operations that the code applies to them.  [lit z]
    is the integer [z], written in the code or the length of an array;
    [lt], [le] and [eqb] are [<], [<=] and [===]; [falsy x] says that [||]
    replaces [x]; [max2] and [min2] are [Math.max] and [Math.min] of two
    numbers. *)
Class Number (num : Type) : Type := {
  lit : Z -> num;
  add : num -> num -> num;
  sub : num -> num -> num;
  mul : num -> num -> num;
  div : num -> num -> num;
  sqrt : num -> num;
  abs : num -> num;
  lt : num -> num -> bool;
  le : num -> num -> bool;
  eqb : num -> num -> bool;
  falsy : num -> bool;
  isNaN : num -> bool;
  max2 : num -> num -> num;
  min2 : num -> num -> num
}.

Declare Scope js_scope.
Delimit Scope js_scope with js.
Infix "+" := add : js_scope.
Infix "-" := sub : js_scope.
Infix "*" := mul : js_scope.
Infix "/" := div : js_scope.
Infix "<?" := lt (at level 70, no associativity) : js_scope.
Infix "<=?" := le (at level 70, no associativity) : js_scope.

(** ** Data model ([lib/types]) *)

Record HedgeBet (num : Type) := mkBet {
  outcome : string;
  allocation : num;
  allocation_percent : num;
  current_price : option num;
  potential_payout : num;
  payout_multiplier : num
}.

Arguments mkBet {num}.
Arguments outcome {num}.
Arguments allocation {num}.
Arguments allocation_percent {num}.
Arguments current_price {num}.
Arguments potential_payout {num}.
Arguments payout_multiplier {num}.

Record HedgeBundle (num : Type) := mkBundle {
  budget : option num;
  bets : list (HedgeBet num);
  total_allocated : num;
  coverage_summary : string;
  risk_factors_covered : list string
}.

Arguments mkBundle {num}.
Arguments budget {num}.
Arguments bets {num}.
Arguments total_allocated {num}.
Arguments coverage_summary {num}.
Arguments risk_factors_covered {num}.

Module BundleMetrics.
Record t (num : Type) := mk {
  theme_name : string;
  total_allocation : num;
  num_markets : nat;
  avg_payout_multiplier : num;
  max_payout : num;
  min_payout : num;
  total_max_payout : num;
  risk_score : num;
  volatility : num;
  sharpe_ratio : num;
  expected_return : num;
  diversification_score : num;
  liquidity_score : num
}.
Arguments mk {num}.
Arguments total_allocation {num}.
Arguments total_max_payout {num}.
Arguments risk_score {num}.
End BundleMetrics.

Module PortfolioMetrics.
Record t (num : Type) := mk {
  total_budget : option num;
  total_allocated : num;
  num_bundles : nat;
  total_markets : nat;
  overall_risk_score : num;
  portfolio_volatility : num;
  sharpe_ratio : num;
  correlation_score : num;
  sector_diversity_score : num;
  total_max_payout : num;
  weighted_avg_multiplier : num;
  expected_return : num;
  bundle_metrics : list (BundleMetrics.t num)
}.
Arguments mk {num}.
Arguments total_budget {num}.
Arguments total_allocated {num}.
Arguments overall_risk_score {num}.
Arguments total_max_payout {num}.
Arguments bundle_metrics {num}.
End PortfolioMetrics.

(** The state of the page; the text of the budget field is kept as the
    number [parseFloat] reads from it, [None] when it is not a number. *)
Record State (num : Type) := mkState {
  originalBundles : list (HedgeBundle num);
  currentBundles : list (HedgeBundle num);
  metrics : option (PortfolioMetrics.t num);
  budgetInput : option num
}.

Arguments mkState {num}.
Arguments originalBundles {num}.
Arguments currentBundles {num}.
Arguments metrics {num}.
Arguments budgetInput {num}.

Inductive Outcome (num : Type) :=
| Done (s : State num)
| Raises (e : JsError)
| Sparse.

Arguments Done {num}.
Arguments Raises {num}.
Arguments Sparse {num}.

Section Engine.

Context {num : Type} {N : Number num}.

Local Open Scope js_scope.

(** [x || d] on a number that may be absent. *)
Definition js_or (x : option num) (d : num) : num :=
  match x with
  | Some v => if falsy v then d else v
  | None => d
  end.

(** The literals [0.5], [0.7] and [0.3]: the numbers nearest to 1/2, 7/10
    and 3/10, which is what the quotient of the two integers is. *)
Definition decimal (p q : Z) : num := lit p / lit q.

(** [Math.max(...l)] and [Math.min(...l)] on a list that is not empty. *)
Definition math_max (l : list num) : num :=
  match l with
  | [] => lit 0
  | x :: t => fold_left max2 t x
  end.

Definition math_min (l : list num) : num :=
  match l with
  | [] => lit 0
  | x :: t => fold_left min2 t x
  end.

(** ** Metrics ([lib/metrics]) *)

Definition calculateRiskScore (bets : list (HedgeBet num)) : num :=
  match bets with
  | [] => lit 0
  | _ :: _ =>
    let prices := map (fun b => js_or (current_price b) (decimal 1 2)) bets in
    let allocations := map allocation bets in
    let totalAlloc := fold_left (fun a b => a + b) allocations (lit 0) in
    if totalAlloc <=? lit 0 then lit 0
    else
      let weights := map (fun a => a / totalAlloc) allocations in
      let portfolioVariance :=
        reduce (fun sum w i =>
                  let p := nth i prices (lit 0) in sum + (w * w * p * (lit 1 - p)))
               weights (lit 0) in
      let portfolioStdDev := sqrt portfolioVariance in
      let riskScore := min2 (portfolioStdDev * lit 400) (lit 100) in
      let avgPriceDist :=
        fold_left (fun sum p => sum + abs (p - decimal 1 2)) prices (lit 0)
        / lit (Z.of_nat (length prices)) in
      let avgIndRisk := (lit 1 - avgPriceDist * lit 2) * lit 100 in
      (decimal 7 10 * riskScore) + (decimal 3 10 * avgIndRisk)
  end.

Definition calculateBundleMetrics (bundle : HedgeBundle num) : BundleMetrics.t num :=
  let bets := bets bundle in
  match bets with
  | [] =>
    BundleMetrics.mk (theme_of (coverage_summary bundle))
      (lit 0) 0 (lit 1) (lit 0) (lit 0) (lit 0) (lit 0)
      (lit 0) (lit 0) (lit 0) (lit 0) (lit 0)
  | _ :: _ =>
    let totalAllocation := fold_left (fun sum b => sum + allocation b) bets (lit 0) in
    let payouts := map potential_payout bets in
    let totalMaxPayout := fold_left (fun sum p => sum + p) payouts (lit 0) in
    let riskScore := calculateRiskScore bets in
    let weightedSum :=
      fold_left (fun sum b => sum + (allocation b * payout_multiplier b)) bets (lit 0) in
    let avgMultiplier :=
      if lit 0 <? totalAllocation then weightedSum / totalAllocation else lit 1 in
    BundleMetrics.mk (theme_of (coverage_summary bundle))
      totalAllocation (length bets) avgMultiplier
      (math_max payouts) (math_min payouts) totalMaxPayout riskScore
      (lit 0) (lit 0) (lit 0) (lit 0) (lit 0)
  end.

Definition calculatePortfolioMetrics (bundles : list (HedgeBundle num))
    : PortfolioMetrics.t num :=
  let bundleMetrics := map calculateBundleMetrics bundles in
  let totalAllocated :=
    fold_left (fun sum b => sum + total_allocated b) bundles (lit 0) in
  let totalMaxPayout :=
    fold_left (fun sum m => sum + BundleMetrics.total_max_payout m) bundleMetrics (lit 0) in
  let totalRiskWeight :=
    fold_left (fun sum m => sum + (BundleMetrics.risk_score m * BundleMetrics.total_allocation m))
              bundleMetrics (lit 0) in
  let overallRisk :=
    if lit 0 <? totalAllocated then totalRiskWeight / totalAllocated else lit 0 in
  PortfolioMetrics.mk
    (Some (js_or (match bundles with [] => None | b :: _ => budget b end) (lit 0)))
    totalAllocated
    (length bundles)
    (fold_left (fun sum b => (sum + length (bets b))%nat) bundles 0%nat)
    overallRisk
    (lit 0) (lit 0) (lit 0) (lit 0)
    totalMaxPayout
    (lit 0) (lit 0)
    bundleMetrics.

(** ** The results page ([ResultsPage]) *)

Definition recalculatemetrics (bundles : list (HedgeBundle num)) (s : State num)
    : State num :=
  mkState (originalBundles s) bundles
          (Some (calculatePortfolioMetrics bundles)) (budgetInput s).

(** [{...b, allocation: b.allocation * scale,
          potential_payout: b.potential_payout * scale}] *)
Definition scale_bet (scale : num) (b : HedgeBet num) : HedgeBet num :=
  mkBet (outcome b) (allocation b * scale) (allocation_percent b)
        (current_price b) (potential_payout b * scale) (payout_multiplier b).

(** [bet.allocation = a; bet.potential_payout = a * bet.payout_multiplier] *)
Definition allocate (a : num) (bet : HedgeBet num) : HedgeBet num :=
  mkBet (outcome bet) a (allocation_percent bet)
        (current_price bet) (a * payout_multiplier bet) (payout_multiplier bet).

(** Trigger C. *)
Definition handleReset (s : State num) (bundleIndex : nat) : Outcome num :=
  match originalBundles s with
  | [] => Done s
  | _ :: _ =>
    match nth_error (originalBundles s) bundleIndex with
    | None => Raises SyntaxError
    | Some restored =>
      let intendedBudget := js_or (budgetInput s) (lit 100) in
      let originalBudget := js_or (budget restored) (lit 100) in
      let restored' :=
        if negb (eqb intendedBudget originalBudget) && (lit 0 <? originalBudget) then
          let scale := intendedBudget / originalBudget in
          mkBundle (Some intendedBudget)
                   (map (scale_bet scale) (bets restored))
                   (total_allocated restored)
                   (coverage_summary restored)
                   (risk_factors_covered restored)
        else restored in
      match array_set (currentBundles s) bundleIndex restored' with
      | Some updatedBundles => Done (recalculatemetrics updatedBundles s)
      | None => Sparse
      end
    end
  end.

(** Trigger B.  [newBudget] is [parseFloat(val)], [None] when the text is
    not a number. *)
Definition handleUpdateBudget (s : State num) (newBudget : option num) : Outcome num :=
  let s1 := mkState (originalBundles s) (currentBundles s) (metrics s) newBudget in
  match currentBundles s, newBudget with
  | [], _ => Done s1
  | _ :: _, None => Done s1
  | first :: _, Some newBudget =>
    if isNaN newBudget || (newBudget <=? lit 0) then Done s1
    else
      let oldBudget := js_or (budget first) (lit 100) in
      if oldBudget <=? lit 0 then Done s1
      else
        let scale := newBudget / oldBudget in
        let updatedBundles :=
          map (fun bundle =>
                 mkBundle (Some newBudget)
                          (map (scale_bet scale) (bets bundle))
                          (total_allocated bundle)
                          (coverage_summary bundle)
                          (risk_factors_covered bundle))
              (currentBundles s) in
        Done (recalculatemetrics updatedBundles s1)
  end.

(** Trigger A and the edit of a multiplier. *)
Definition handleUpdateBet (s : State num) (bundleIndex betIndex : nat)
    (field : Field) (value : num) : Outcome num :=
  match nth_error (currentBundles s) bundleIndex with
  | None => Raises TypeError
  | Some bundle =>
    let bets0 := bets bundle in
    match field with
    | Allocation =>
      let totalBudget := js_or (budget bundle) (lit 100) in
      let newAllocation := min2 (max2 value (lit 0)) totalBudget in
      let remainder := totalBudget - newAllocation in
      let otherBets := filteri (fun idx => negb (idx =? betIndex)%nat) bets0 in
      let currentSumOthers :=
        fold_left (fun sum b => sum + allocation b) otherBets (lit 0) in
      let bets1 :=
        mapi (fun bet idx =>
                if (idx =? betIndex)%nat then allocate newAllocation bet
                else
                  let share :=
                    if lit 0 <? currentSumOthers
                    then allocation bet / currentSumOthers
                    else lit 1 / lit (Z.of_nat (length otherBets)) in
                  let newAlloc := remainder * share in
                  allocate newAlloc bet)
             bets0 in
      let bundle1 :=
        mkBundle (budget bundle) bets1 totalBudget
                 (coverage_summary bundle) (risk_factors_covered bundle) in
      match array_set (currentBundles s) bundleIndex bundle1 with
      | Some updatedBundles => Done (recalculatemetrics updatedBundles s)
      | None => Sparse
      end
    | Multiplier =>
      match nth_error bets0 betIndex with
      | None => Raises TypeError
      | Some targetBet =>
        let targetBet1 :=
          mkBet (outcome targetBet) (allocation targetBet)
                (allocation_percent targetBet) (current_price targetBet)
                (allocation targetBet * value) value in
        match array_set bets0 betIndex targetBet1 with
        | None => Sparse
        | Some bets1 =>
          let bundle1 :=
            mkBundle (budget bundle) bets1 (total_allocated bundle)
                     (coverage_summary bundle) (risk_factors_covered bundle) in
          match array_set (currentBundles s) bundleIndex bundle1 with
          | Some updatedBundles => Done (recalculatemetrics updatedBundles s)
          | None => Sparse
          end
        end
      end
    end
  end.

(** The three triggers, and one step of the engine. *)
Inductive Trigger :=
| UpdateBet (bundleIndex betIndex : nat) (field : Field) (value : num)
| UpdateBudget (newBudget : option num)
| Reset (bundleIndex : nat).

Definition step (s : State num) (t : Trigger) : Outcome num :=
  match t with
  | UpdateBet bi i f v => handleUpdateBet s bi i f v
  | UpdateBudget nb => handleUpdateBudget s nb
  | Reset bi => handleReset s bi
  end.

(** ** The bundles that the handlers build *)

(** The state a rejected budget change leaves. *)
Definition budget_typed (s : State num) (newBudget : option num) : State num :=
  mkState (originalBundles s) (currentBundles s) (metrics s) newBudget.

(** The bundle that the [map] of [handleUpdateBudget] builds. *)
Definition rescaled (newBudget scale : num) (bundle : HedgeBundle num)
    : HedgeBundle num :=
  mkBundle (Some newBudget) (map (scale_bet scale) (bets bundle))
           (total_allocated bundle) (coverage_summary bundle)
           (risk_factors_covered bundle).

(** The share of the rest that the edit of bet [betIndex] gives to another
    bet of [bundle], and the bundle that the allocation branch of
    [handleUpdateBet] builds. *)
Definition share_of (bundle : HedgeBundle num) (betIndex : nat) (bet : HedgeBet num)
    : num :=
  let otherBets := filteri (not_target betIndex) (bets bundle) in
  let currentSumOthers :=
    fold_left (fun sum b => sum + allocation b) otherBets (lit 0) in
  if lit 0 <? currentSumOthers
  then allocation bet / currentSumOthers
  else lit 1 / lit (Z.of_nat (length otherBets)).

Definition edited (bundle : HedgeBundle num) (betIndex : nat) (value : num)
    : HedgeBundle num :=
  let totalBudget := js_or (budget bundle) (lit 100) in
  let newAllocation := min2 (max2 value (lit 0)) totalBudget in
  let remainder := totalBudget - newAllocation in
  mkBundle (budget bundle)
    (mapi (fun bet idx =>
             if (idx =? betIndex)%nat then allocate newAllocation bet
             else allocate (remainder * share_of bundle betIndex bet) bet)
          (bets bundle))
    totalBudget (coverage_summary bundle) (risk_factors_covered bundle).

(** The bundle that [handleReset] writes back for the pristine bundle
    [pristine]. *)
Definition restored_bundle (s : State num) (pristine : HedgeBundle num)
    : HedgeBundle num :=
  let intendedBudget := js_or (budgetInput s) (lit 100) in
  let originalBudget := js_or (budget pristine) (lit 100) in
  if negb (eqb intendedBudget originalBudget) && (lit 0 <? originalBudget)
  then rescaled intendedBudget (intendedBudget / originalBudget) pristine
  else pristine.

End Engine.

Arguments Trigger : clear implicits.

(** ** The numbers of JavaScript *)

(** The integer [z] as a double; exact below 2^53. *)
Fixpoint float_of_pos (p : positive) : PrimFloat.float :=
  match p with
  | xH => PrimFloat.one
  | xO q => PrimFloat.mul PrimFloat.two (float_of_pos q)
  | xI q => PrimFloat.add (PrimFloat.mul PrimFloat.two (float_of_pos q)) PrimFloat.one
  end.

Definition float_of_Z (z : Z) : PrimFloat.float :=
  match z with
  | Z0 => PrimFloat.zero
  | Zpos p => float_of_pos p
  | Zneg p => PrimFloat.opp (float_of_pos p)
  end.

(** [Math.max] and [Math.min] of two doubles: NaN when one of them is, and
    of two zeros the positive one for the maximum, the negative one for
    the minimum. *)
Definition float_max (a b : PrimFloat.float) : PrimFloat.float :=
  if PrimFloat.is_nan a || PrimFloat.is_nan b then PrimFloat.nan
  else if PrimFloat.ltb a b then b
  else if PrimFloat.ltb b a then a
  else if PrimFloat.get_sign a then b else a.

Definition float_min (a b : PrimFloat.float) : PrimFloat.float :=
  if PrimFloat.is_nan a || PrimFloat.is_nan b then PrimFloat.nan
  else if PrimFloat.ltb a b then a
  else if PrimFloat.ltb b a then b
  else if PrimFloat.get_sign a then a else b.

#[global] Instance binary64 : Number PrimFloat.float := {
  lit := float_of_Z;
  add := PrimFloat.add;
  sub := PrimFloat.sub;
  mul := PrimFloat.mul;
  div := PrimFloat.div;
  sqrt := PrimFloat.sqrt;
  abs := PrimFloat.abs;
  lt := PrimFloat.ltb;
  le := PrimFloat.leb;
  eqb := PrimFloat.eqb;
  falsy := fun x => PrimFloat.eqb x PrimFloat.zero || PrimFloat.is_nan x;
  isNaN := PrimFloat.is_nan;
  max2 := float_max;
  min2 := float_min
}.

(** ** Real numbers with rounded operations *)

(** Every operation of the code that rounds in binary64 rounds by [rnd].
    Comparisons, the absolute value, the maximum and the minimum are exact
    in binary64 and are exact here.  There is no NaN and no infinity: the
    square root of a negative number is 0 here, and the properties proved
    over these numbers bound the operands so that no result overflows, or
    state no more of a result than the expression that the code rounds. *)
Definition rounded (rnd : R -> R) : Number R := {|
  lit := IZR;
  add := fun a b => rnd (a + b);
  sub := fun a b => rnd (a - b);
  mul := fun a b => rnd (a * b);
  div := fun a b => rnd (a / b);
  sqrt := fun a => rnd (R_sqrt.sqrt a);
  abs := Rabs;
  lt := fun a b => if Rlt_dec a b then true else false;
  le := fun a b => if Rle_dec a b then true else false;
  eqb := fun a b => if Req_dec_T a b then true else false;
  falsy := fun a => if Req_dec_T a 0 then true else false;
  isNaN := fun _ => false;
  max2 := Rmax;
  min2 := Rmin
|}.

End Js.

(** ** Rounding to binary64 *)

(** Half the distance from 1 to the next double, half the distance between
    two subnormal doubles, the least positive normal double, and a power of
    two below the largest double. *)
Definition unit_roundoff : R := / 2 ^ 53.
Definition eta : R := / 2 ^ 1075.
Definition smallest_normal : R := / 2 ^ 1022.
Definition largest : R := 2 ^ 1023.

(** What the bounds below take for granted of the rounding: rounding to a
    nearest double errs by at most [unit_roundoff] times the number, or by
    [eta] where the doubles are subnormal, as long as the number is not
    beyond [largest]; it keeps the order; and it leaves the integers up to
    2^53 as they are. *)
Record binary64_rounding (rnd : R -> R) : Prop := {
  rnd_error : forall x, Rabs x <= largest ->
    Rabs (rnd x - x) <= unit_roundoff * Rabs x + eta;
  rnd_monotone : forall x y, x <= y -> rnd x <= rnd y;
  rnd_integer : forall z, (Z.abs z <= 2 ^ 53)%Z -> rnd (IZR z) = IZR z
}.

(** A number that is zero or in the range of the normal doubles. *)
Definition normal (x : R) : Prop :=
  x = 0 \/ smallest_normal <= Rabs x <= largest.

(** The payout of [bet] is its allocation times its multiplier up to the
    relative error [e]. *)
Definition near (e : R) (bet : Js.HedgeBet R) : Prop :=
  Rabs (Js.potential_payout bet - Js.allocation bet * Js.payout_multiplier bet)
    <= e * Rabs (Js.allocation bet * Js.payout_multiplier bet).

(** ** Sample portfolios in binary64 *)

Import PrimFloat.PrimFloatNotations.
Number Notation PrimFloat.float PrimFloat.parser PrimFloat.printer : float_scope.
Set Warnings "-inexact-float".

(** A bet that holds [a] with the multiplier [m] and the payout [a * m],
    and a page that shows the bundles [l] as loaded, with the budget field
    reading [b]. *)
Definition double_bet (a m : PrimFloat.float) : Js.HedgeBet PrimFloat.float :=
  Js.mkBet "Yes" a 0%float (Some 0.5%float) (a * m)%float m.

Definition double_page (l : list (Js.HedgeBundle PrimFloat.float)) (b : PrimFloat.float)
    : Js.State PrimFloat.float :=
  Js.mkState l l (Some (Js.calculatePortfolioMetrics l)) (Some b).

Definition large_bundle : Js.HedgeBundle PrimFloat.float :=
  Js.mkBundle (Some 1e12%float)
    [double_bet 1e11%float 2%float; double_bet 2e11%float 2%float;
     double_bet 3e11%float 2%float; double_bet 4e11%float 2%float]
    1e12%float "Rates: covered" [].

Definition priced_bundle : Js.HedgeBundle PrimFloat.float :=
  Js.mkBundle (Some 1e6%float)
    [double_bet 660000%float 8.2%float; double_bet 340000%float 2%float]
    1e6%float "Rates: covered" [].

Definition tenth_bundle : Js.HedgeBundle PrimFloat.float :=
  Js.mkBundle (Some 100%float)
    [double_bet 0.1%float 2%float; double_bet 99.9%float 2%float]
    100%float "Rates: covered" [].

Definition hundred_bundle : Js.HedgeBundle PrimFloat.float :=
  Js.mkBundle (Some 100%float) [double_bet 100%float 2%float] 100%float
              "Rates: covered" [].

Definition half_bundle : Js.HedgeBundle PrimFloat.float :=
  Js.mkBundle (Some 50%float) [double_bet 50%float 2%float] 50%float
              "Election: covered" [].

Definition budget_zero_bundle : Js.HedgeBundle PrimFloat.float :=
  Js.mkBundle (Some 0%float) [double_bet 70%float 2%float; double_bet 30%float 3%float]
              100%float "Rates: covered" [].

(** [bets.reduce((sum, b) => sum + b.allocation, 0)] in binary64. *)
Definition double_sum (bundle : Js.HedgeBundle PrimFloat.float) : PrimFloat.float :=
  fold_left (fun sum b => (sum + Js.allocation b)%float) (Js.bets bundle) 0%float.

(** ** Statements of the design document that the code does not meet in
    binary64 *)

(** C1 in the numbers of JavaScript: after a completed allocation edit the
    allocations of the bundle, added up as the code adds them, are within
    1e-6 of the recorded budget, and [total_allocated] is that budget. *)
Definition sum_equals_budget_as_stated : Prop :=
  forall s bundleIndex betIndex value s' bundle' B,
    Js.handleUpdateBet s bundleIndex betIndex Allocation value = Js.Done s' ->
    nth_error (Js.currentBundles s') bundleIndex = Some bundle' ->
    Js.budget bundle' = Some B ->
    (PrimFloat.abs (double_sum bundle' - B) <? 1e-6)%float = true /\
    Js.total_allocated bundle' = B.

(** The same for the bundles that the document has in mind: two bets or
    more, and a recorded budget that is positive. *)
Definition sum_within_tolerance_as_stated : Prop :=
  forall s bundleIndex betIndex value bundle s' bundle' B,
    nth_error (Js.currentBundles s) bundleIndex = Some bundle ->
    (betIndex < length (Js.bets bundle))%nat ->
    (2 <= length (Js.bets bundle))%nat ->
    Js.handleUpdateBet s bundleIndex betIndex Allocation value = Js.Done s' ->
    nth_error (Js.currentBundles s') bundleIndex = Some bundle' ->
    Js.budget bundle' = Some B -> (0 <? B)%float = true ->
    (PrimFloat.abs (double_sum bundle' - B) <? 1e-6)%float = true.

(** C2 with its tolerance, in the numbers of JavaScript. *)
Definition payout_consistency_as_stated : Prop :=
  forall s t s',
    Js.originalBundles s = Js.currentBundles s ->
    (forall bundle bet, In bundle (Js.currentBundles s) -> In bet (Js.bets bundle) ->
       Js.potential_payout bet = (Js.allocation bet * Js.payout_multiplier bet)%float) ->
    Js.step s t = Js.Done s' ->
    forall bundle bet, In bundle (Js.currentBundles s') -> In bet (Js.bets bundle) ->
      (PrimFloat.abs (Js.potential_payout bet
                      - Js.allocation bet * Js.payout_multiplier bet) <? 1e-9)%float
      = true.

(** C4 in the numbers of JavaScript: a positive new budget leaves, for every
    bet of every bundle, the allocation over the budget of the bundle as it
    was. *)
Definition trigger_b_as_stated : Prop :=
  forall s nb first rest B s',
    Js.currentBundles s = first :: rest -> Js.budget first = Some B ->
    (0 <? B)%float = true -> (0 <? nb)%float = true ->
    Js.handleUpdateBudget s (Some nb) = Js.Done s' ->
    forall i bundle bundle' Bi Bi' j bet bet',
      nth_error (Js.currentBundles s) i = Some bundle ->
      nth_error (Js.currentBundles s') i = Some bundle' ->
      Js.budget bundle = Some Bi -> Js.budget bundle' = Some Bi' ->
      nth_error (Js.bets bundle) j = Some bet ->
      nth_error (Js.bets bundle') j = Some bet' ->
      (Js.allocation bet' / Bi' =? Js.allocation bet / Bi)%float = true.

(** The same for the bundles that record the budget of the first. *)
Definition trigger_b_shared_budget_as_stated : Prop :=
  forall s nb first rest B s',
    Js.currentBundles s = first :: rest -> Js.budget first = Some B ->
    (0 <? B)%float = true -> (0 <? nb)%float = true ->
    Js.handleUpdateBudget s (Some nb) = Js.Done s' ->
    forall i bundle bundle' j bet bet',
      nth_error (Js.currentBundles s) i = Some bundle ->
      nth_error (Js.currentBundles s') i = Some bundle' ->
      Js.budget bundle = Some B ->
      nth_error (Js.bets bundle) j = Some bet ->
      nth_error (Js.bets bundle') j = Some bet' ->
      (Js.allocation bet' / nb =? Js.allocation bet / B)%float = true.

(** C6 in the numbers of JavaScript: the overall risk score is the mean of
    the risk scores of the bundles, each weighted by what the bundle
    allocates over what all bundles allocate, and 0 when nothing is
    allocated; [allocated] is what a bundle is taken to allocate. *)
Definition weighted_mean_as_stated
    (allocated : Js.HedgeBundle PrimFloat.float -> PrimFloat.float) : Prop :=
  forall bundles,
    let m := Js.calculatePortfolioMetrics bundles in
    let A := fold_left (fun sum b => (sum + allocated b)%float) bundles 0%float in
    Js.PortfolioMetrics.overall_risk_score m
    = if (0 <? A)%float
      then fold_left
             (fun sum b =>
                (sum + Js.calculateRiskScore (Js.bets b) * (allocated b / A))%float)
             bundles 0%float
      else 0%float.

(** ** Where the bets of a state come from *)

(** After a trigger a bet is one that the state held before, in a working
    or in a pristine bundle; or one whose payout the trigger has computed
    as the product of its allocation and its multiplier; or one that the
    state held before with its allocation and its payout multiplied by a
    scale. *)
Definition kept {num : Type} (s : Js.State num) (bet : Js.HedgeBet num) : Prop :=
  exists bundle,
    In bundle (Js.originalBundles s ++ Js.currentBundles s) /\ In bet (Js.bets bundle).

Definition computed {num : Type} {N : Js.Number num} (bet : Js.HedgeBet num) : Prop :=
  Js.potential_payout bet = Js.mul (Js.allocation bet) (Js.payout_multiplier bet).

Definition scaled {num : Type} {N : Js.Number num} (s : Js.State num)
    (bet' : Js.HedgeBet num) : Prop :=
  exists scale bet, kept s bet /\ bet' = Js.scale_bet scale bet.

(** ** Sample portfolios over the real numbers *)

Definition real_bet (a m : R) : Js.HedgeBet R :=
  Js.mkBet "Yes" a 0 (Some (1/2)) (a * m) m.

Definition real_page (l : list (Js.HedgeBundle R)) (b : R) : Js.State R :=
  Js.mkState l l None (Some b).

Definition real_rates_bundle : Js.HedgeBundle R :=
  Js.mkBundle (Some 100) [real_bet 70 2; real_bet 30 3] 100 "Rates: covered" [].

Definition real_proportional_bundle : Js.HedgeBundle R :=
  Js.mkBundle (Some 100) [real_bet 60 2; real_bet 40 3; real_bet 0 5] 100
              "Rates: covered" [].

(** * Properties *)

(** ** Arithmetic on lists *)

Lemma fold_left_sum {A : Type} (f : A -> R) (l : list A) (a : R) :
  fold_left (fun sum x => sum + f x) l a = a + Rsum (map f l).
Proof.
  revert a; induction l as [|x l IH]; intros a; simpl.
  - lra.
  - rewrite IH. lra.
Qed.

Lemma fold_left_Rplus (l : list R) (a : R) :
  fold_left (fun x y => x + y) l a = a + Rsum l.
Proof.
  rewrite (fold_left_sum (fun x => x) l a). now rewrite map_id.
Qed.

Lemma Rsum_map_scale {A : Type} (f : A -> R) (c : R) (l : list A) :
  Rsum (map (fun x => c * f x) l) = c * Rsum (map f l).
Proof. induction l as [|x l IH]; simpl; [lra | rewrite IH; lra]. Qed.

Lemma Rsum_map_div {A : Type} (f : A -> R) (c : R) (l : list A) :
  Rsum (map (fun x => f x / c) l) = Rsum (map f l) / c.
Proof.
  induction l as [|x l IH]; simpl; [unfold Rdiv; lra | rewrite IH; unfold Rdiv; lra].
Qed.

Lemma Rsum_map_const {A : Type} (c : R) (l : list A) :
  Rsum (map (fun _ => c) l) = INR (length l) * c.
Proof.
  induction l as [|x l IH]; [simpl; lra|].
  change (length (x :: l)) with (S (length l)).
  rewrite S_INR. simpl. rewrite IH. lra.
Qed.

(** ** The comparisons *)

Lemma num_neq_true x y : num_neq x y = true <-> x <> y.
Proof. unfold num_neq; destruct (Req_dec_T x y); split; congruence. Qed.

Lemma num_gt_true x y : num_gt x y = true <-> y < x.
Proof. unfold num_gt; destruct (Rlt_dec y x); split; (congruence || lra). Qed.

Lemma num_le_true x y : num_le x y = true <-> x <= y.
Proof. unfold num_le; destruct (Rle_dec x y); split; (congruence || lra). Qed.

Lemma num_gt_false x y : num_gt x y = false <-> x <= y.
Proof. unfold num_gt; destruct (Rlt_dec y x); split; (congruence || lra). Qed.

Lemma num_le_false x y : num_le x y = false <-> y < x.
Proof. unfold num_le; destruct (Rle_dec x y); split; (congruence || lra). Qed.

Lemma js_or_some (v d : R) : v <> 0 -> js_or (Some v) d = v.
Proof. intros H; unfold js_or; destruct (Req_dec_T v 0); [contradiction | reflexivity]. Qed.

Lemma js_or_zero (d : R) : js_or (Some 0) d = d.
Proof. unfold js_or; destruct (Req_dec_T 0 0); [reflexivity | lra]. Qed.

(** Decides the comparisons that stand in the goal, with [lra] to discard
    the impossible side. *)
Ltac decide_num :=
  unfold num_neq, num_gt, num_le, js_or, Rmin, Rmax in *;
  repeat match goal with
  | |- context [Req_dec_T ?a ?b] =>
      destruct (Req_dec_T a b); try lra; try (exfalso; lra)
  | |- context [Rlt_dec ?a ?b] =>
      destruct (Rlt_dec a b); try lra; try (exfalso; lra)
  | |- context [Rle_dec ?a ?b] =>
      destruct (Rle_dec a b); try lra; try (exfalso; lra)
  | H : context [Req_dec_T ?a ?b] |- _ =>
      destruct (Req_dec_T a b); try lra; try (exfalso; lra)
  | H : context [Rlt_dec ?a ?b] |- _ =>
      destruct (Rlt_dec a b); try lra; try (exfalso; lra)
  | H : context [Rle_dec ?a ?b] |- _ =>
      destruct (Rle_dec a b); try lra; try (exfalso; lra)
  end.

(** Proves two lists of numbers equal, entry by entry. *)
Ltac list_eq :=
  repeat (apply (f_equal2 (@cons R)); [ try lra; try (field; lra) | ]);
  try reflexivity.

(** ** Writing into an array *)

Lemma array_set_in {A : Type} (l : list A) (i : nat) (x : A) :
  (i < length l)%nat ->
  exists l', array_set l i x = Some l' /\
             length l' = length l /\
             nth_error l' i = Some x /\
             forall j, j <> i -> nth_error l' j = nth_error l j.
Proof.
  revert i; induction l as [|y l IH]; intros i Hi; simpl in Hi; [lia|].
  destruct i as [|i].
  - exists (x :: l); repeat split; auto.
    intros [|j] Hj; [congruence | reflexivity].
  - destruct (IH i) as (l' & E & Hlen & Hnth & Hother); [lia|].
    exists (y :: l'). simpl. rewrite E. repeat split; simpl; auto.
    intros [|j] Hj; [reflexivity | apply Hother; congruence].
Qed.

Lemma array_set_elements {A : Type} (l l' : list A) (i : nat) (x y : A) :
  array_set l i x = Some l' -> In y l' -> y = x \/ In y l.
Proof.
  revert i l'; induction l as [|z l IH]; intros [|i] l' E Hin; simpl in E.
  - injection E as <-. destruct Hin as [<-|[]]. now left.
  - discriminate.
  - injection E as <-. destruct Hin as [<-|Hin]; [now left | right; now right].
  - destruct (array_set l i x) as [l0|] eqn:E0; [|discriminate].
    injection E as <-. destruct Hin as [<-|Hin]; [right; now left|].
    destruct (IH _ _ E0 Hin); [now left | right; now right].
Qed.

Lemma nth_error_lt {A : Type} (l : list A) (i : nat) (x : A) :
  nth_error l i = Some x -> (i < length l)%nat.
Proof. intros H; apply nth_error_Some; congruence. Qed.

(** ** Indexed traversals *)

Lemma mapi_from_length {A B : Type} (f : A -> nat -> B) (k : nat) (l : list A) :
  length (mapi_from f k l) = length l.
Proof. revert k; induction l as [|x l IH]; intros k; simpl; [|rewrite IH]; reflexivity. Qed.

Lemma mapi_from_nth {A B : Type} (f : A -> nat -> B) (k j : nat) (l : list A) :
  nth_error (mapi_from f k l) j = option_map (fun x => f x (k + j)%nat) (nth_error l j).
Proof.
  revert k j; induction l as [|x l IH]; intros k [|j]; simpl; try reflexivity.
  - now rewrite Nat.add_0_r.
  - rewrite IH. now rewrite Nat.add_succ_comm.
Qed.

Lemma mapi_from_In {A B : Type} (f : A -> nat -> B) (k : nat) (l : list A) (y : B) :
  In y (mapi_from f k l) -> exists x i, In x l /\ y = f x i.
Proof.
  revert k; induction l as [|x l IH]; intros k Hin; simpl in Hin; [contradiction|].
  destruct Hin as [<-|Hin].
  - exists x, k; split; [now left | reflexivity].
  - destruct (IH _ Hin) as (x' & i & Hx & ->). exists x', i; split; [now right | reflexivity].
Qed.

Lemma filteri_past_target {A : Type} (i k : nat) (l : list A) :
  (i < k)%nat -> filteri_from (not_target i) k l = l.
Proof.
  revert k; induction l as [|x l IH]; intros k Hk; simpl; [reflexivity|].
  change (not_target i k) with (negb (k =? i)%nat).
  destruct (Nat.eqb_spec k i); [lia|]. simpl.
  rewrite IH by lia. reflexivity.
Qed.

Lemma filteri_drops_target {A : Type} (f : A -> R) (i k : nat) (l : list A) (t : A) :
  (k <= i)%nat -> nth_error l (i - k) = Some t ->
  Rsum (map f (filteri_from (not_target i) k l)) = Rsum (map f l) - f t /\
  S (length (filteri_from (not_target i) k l)) = length l.
Proof.
  revert k; induction l as [|x l IH]; intros k Hk Ht.
  - destruct (i - k)%nat; discriminate.
  - simpl. change (not_target i k) with (negb (k =? i)%nat).
    destruct (Nat.eqb_spec k i) as [->|Hne]; simpl.
    + rewrite Nat.sub_diag in Ht. injection Ht as ->.
      rewrite filteri_past_target by lia. split; [lra | reflexivity].
    + replace (i - k)%nat with (S (i - S k)) in Ht by lia. simpl in Ht.
      destruct (IH (S k)) as [Hs Hl]; [lia | exact Ht |].
      rewrite Hs, Hl. split; [lra | reflexivity].
Qed.

Lemma in_range_empty k i : in_range k 0 i = false.
Proof.
  unfold in_range. destruct (Nat.leb_spec k i), (Nat.ltb_spec i (k + 0)); auto; lia.
Qed.

Lemma in_range_here n i : in_range i (S n) i = true.
Proof.
  unfold in_range. destruct (Nat.leb_spec i i), (Nat.ltb_spec i (i + S n)); auto; lia.
Qed.

Lemma in_range_past k n i : (i < k)%nat -> in_range k n i = false.
Proof.
  intros H. unfold in_range. destruct (Nat.leb_spec k i); auto; lia.
Qed.

Lemma in_range_next k n i : k <> i -> in_range k (S n) i = in_range (S k) n i.
Proof.
  intros H. unfold in_range.
  destruct (Nat.leb_spec k i), (Nat.leb_spec (S k) i),
    (Nat.ltb_spec i (k + S n)), (Nat.ltb_spec i (S k + n)); auto; lia.
Qed.

Lemma in_range_zero n i : (i < n)%nat -> in_range 0 n i = true.
Proof.
  intros H. unfold in_range.
  destruct (Nat.leb_spec 0 i), (Nat.ltb_spec i (0 + n)); auto; lia.
Qed.

(** ** Trigger A: the edit of one allocation *)

Section TriggerA.

Variable bundle : HedgeBundle.
Variable betIndex : nat.
Variable value : R.

(** The names of the source, for the bundle at hand. *)
Local Abbreviation totalBudget := (js_or (budget bundle) 100).
Local Abbreviation newAllocation := (Rmin (Rmax value 0) totalBudget).
Local Abbreviation remainder := (totalBudget - newAllocation).
Local Abbreviation otherBets := (filteri (not_target betIndex) (bets bundle)).

Lemma handleUpdateBet_allocation (s : State) (bundleIndex : nat) :
  nth_error (currentBundles s) bundleIndex = Some bundle ->
  exists updated,
    array_set (currentBundles s) bundleIndex (edited bundle betIndex value)
      = Some updated /\
    handleUpdateBet s bundleIndex betIndex Allocation value
      = Done (recalculatemetrics updated s).
Proof.
  intros Hb.
  destruct (array_set_in (currentBundles s) bundleIndex
              (edited bundle betIndex value) (nth_error_lt _ _ _ Hb))
    as (updated & E & _).
  exists updated; split; [exact E|].
  unfold handleUpdateBet. rewrite Hb.
  unfold edited, share_of, not_target in E. cbv zeta in E |- *.
  rewrite E. reflexivity.
Qed.

Lemma edited_bet (j : nat) (bet : HedgeBet) :
  nth_error (bets bundle) j = Some bet ->
  nth_error (bets (edited bundle betIndex value)) j =
    Some (if (j =? betIndex)%nat then allocate newAllocation bet
          else allocate (remainder * share_of bundle betIndex bet) bet).
Proof.
  intros Hj. unfold edited; cbn [bets]. unfold mapi.
  rewrite mapi_from_nth, Hj. reflexivity.
Qed.

Lemma edited_length :
  length (bets (edited bundle betIndex value)) = length (bets bundle).
Proof. apply mapi_from_length. Qed.

End TriggerA.



(** One completed allocation edit, seen from the page: the edited bundle
    stands at its index, and nothing else has changed. *)
Lemma handleUpdateBet_allocation_state (s : State) (bundleIndex betIndex : nat)
    (value : R) (bundle : HedgeBundle) :
  nth_error (currentBundles s) bundleIndex = Some bundle ->
  exists s',
    handleUpdateBet s bundleIndex betIndex Allocation value = Done s' /\
    nth_error (currentBundles s') bundleIndex = Some (edited bundle betIndex value) /\
    (forall j, j <> bundleIndex ->
       nth_error (currentBundles s') j = nth_error (currentBundles s) j) /\
    length (currentBundles s') = length (currentBundles s) /\
    originalBundles s' = originalBundles s /\
    budgetInput s' = budgetInput s.
Proof.
  intros Hb.
  destruct (handleUpdateBet_allocation bundle betIndex value s bundleIndex Hb)
    as (updated & E & Hdone).
  destruct (array_set_in (currentBundles s) bundleIndex (edited bundle betIndex value)
              (nth_error_lt _ _ _ Hb)) as (updated' & E' & Hlen & Hnth & Hother).
  rewrite E in E'. injection E' as <-.
  exists (recalculatemetrics updated s). simpl. auto 6.
Qed.





Lemma clamp_bounds (v B : R) : 0 <= B -> 0 <= Rmin (Rmax v 0) B <= B.
Proof. intros HB. decide_num. Qed.




(** ** Trigger B: the change of the global budget *)

Lemma handleUpdateBudget_scales (s : State) (nb : R) (first : HedgeBundle)
    (rest : list HedgeBundle) :
  currentBundles s = first :: rest ->
  0 < nb -> 0 < js_or (budget first) 100 ->
  handleUpdateBudget s (Some nb) =
    Done (recalculatemetrics
            (map (rescaled nb (nb / js_or (budget first) 100)) (currentBundles s))
            (budget_typed s (Some nb))).
Proof.
  intros Hcur Hnb Hold. unfold handleUpdateBudget. rewrite Hcur.
  apply num_le_false in Hnb, Hold. rewrite Hnb, Hold. reflexivity.
Qed.

Lemma handleUpdateBudget_guard (s : State) (nb : R) (first : HedgeBundle)
    (rest : list HedgeBundle) :
  currentBundles s = first :: rest ->
  0 < nb -> js_or (budget first) 100 <= 0 ->
  handleUpdateBudget s (Some nb) = Done (budget_typed s (Some nb)).
Proof.
  intros Hcur Hnb Hold. unfold handleUpdateBudget, budget_typed. rewrite Hcur.
  apply num_le_false in Hnb. apply num_le_true in Hold.
  rewrite Hnb, Hold. reflexivity.
Qed.

Lemma rescaled_scales_bets (c nb : R) (bundle : HedgeBundle) :
  scales_bets c bundle (rescaled nb c bundle).
Proof.
  split; [apply length_map|].
  intros j bet Hj. exists (scale_bet c bet).
  simpl. rewrite nth_error_map, Hj. repeat split.
Qed.

Lemma map_rescaled_scales (c nb : R) (l : list HedgeBundle) :
  scales_every_bet c nb l (map (rescaled nb c) l).
Proof.
  split; [apply length_map|].
  intros i bundle Hi. exists (rescaled nb c bundle).
  rewrite nth_error_map, Hi. repeat split; apply rescaled_scales_bets.
Qed.

(** C10: when the first bundle records no budget or the budget 0, a
    positive new budget is not rejected: the old budget is taken to be 100,
    every bundle gets the new budget and the allocation and the payout of
    every bet are multiplied by [new_budget / 100].  The guard on the old
    budget, [oldBudget <= 0], holds exactly when the first bundle records a
    budget that is strictly negative: then the handler stores the text of
    the budget field and nothing else, and in every other case it takes the
    scaling branch, with the budget of the first bundle (100 when it is 0
    or absent) as the old budget. *)
Theorem trigger_b_fallback_budget (s : State) (nb : R) (first : HedgeBundle)
    (rest : list HedgeBundle) :
  currentBundles s = first :: rest -> 0 < nb ->
  (budget first = None \/ budget first = Some 0 ->
   exists s',
     handleUpdateBudget s (Some nb) = Done s' /\
     budgetInput s' = Some nb /\
     scales_every_bet (nb / 100) nb (currentBundles s) (currentBundles s')) /\
  (num_le (js_or (budget first) 100) 0 = true <->
   exists b, budget first = Some b /\ b < 0) /\
  ((exists b, budget first = Some b /\ b < 0) ->
   handleUpdateBudget s (Some nb) = Done (budget_typed s (Some nb))) /\
  (~ (exists b, budget first = Some b /\ b < 0) ->
   handleUpdateBudget s (Some nb) =
     Done (recalculatemetrics
             (map (rescaled nb (nb / js_or (budget first) 100)) (currentBundles s))
             (budget_typed s (Some nb)))).
Proof.
  intros Hcur Hnb.
  assert (Hguard : num_le (js_or (budget first) 100) 0 = true <->
                   exists b, budget first = Some b /\ b < 0).
  { rewrite num_le_true. split.
    - destruct (budget first) as [b|]; simpl; [|lra].
      destruct (Req_dec_T b 0); [lra|]. intros Hb. exists b. split; [reflexivity | lra].
    - intros (b & -> & Hb). rewrite js_or_some; lra. }
  split; [|split; [exact Hguard|split]].
  - intros Hzero.
    assert (Hold : js_or (budget first) 100 = 100).
    { destruct Hzero as [-> | ->]; [reflexivity | apply js_or_zero]. }
    eexists. split; [|split].
    + apply (handleUpdateBudget_scales s nb first rest Hcur Hnb). lra.
    + reflexivity.
    + simpl. rewrite Hold. apply map_rescaled_scales.
  - intros Hneg. apply Hguard in Hneg. apply num_le_true in Hneg.
    now apply (handleUpdateBudget_guard s nb first rest).
  - intros Hnot.
    apply (handleUpdateBudget_scales s nb first rest Hcur Hnb).
    destruct (Rlt_dec 0 (js_or (budget first) 100)) as [Hpos|Hle]; [exact Hpos|].
    exfalso. apply Hnot. apply Hguard. apply num_le_true. lra.
Qed.

Lemma trigger_b_fallback_budget_witness :
  exists s',
    handleUpdateBudget (page_of [missing_budget_bundle] 100) (Some 200) = Done s' /\
    budgetInput s' = Some 200 /\
    scales_every_bet (200 / 100) 200 [missing_budget_bundle] (currentBundles s').
Proof.
  apply (proj1 (trigger_b_fallback_budget
                  (page_of [missing_budget_bundle] 100) 200
                  missing_budget_bundle [] eq_refl ltac:(lra))).
  left. reflexivity.
Defined.

(** ** Trigger C: the reset of one bundle *)

Lemma handleReset_empty (s : State) (bundleIndex : nat) :
  originalBundles s = [] -> handleReset s bundleIndex = Done s.
Proof. intros H. unfold handleReset. now rewrite H. Qed.

Lemma handleReset_restores (s : State) (bundleIndex : nat) (pristine : HedgeBundle) :
  nth_error (originalBundles s) bundleIndex = Some pristine ->
  (bundleIndex < length (currentBundles s))%nat ->
  exists s',
    handleReset s bundleIndex = Done s' /\
    nth_error (currentBundles s') bundleIndex = Some (restored_bundle s pristine) /\
    (forall j, j <> bundleIndex ->
       nth_error (currentBundles s') j = nth_error (currentBundles s) j) /\
    length (currentBundles s') = length (currentBundles s) /\
    originalBundles s' = originalBundles s /\
    budgetInput s' = budgetInput s.
Proof.
  intros Hp Hi.
  destruct (array_set_in (currentBundles s) bundleIndex (restored_bundle s pristine) Hi)
    as (updated & E & Hlen & Hnth & Hother).
  exists (recalculatemetrics updated s). split; [|simpl; auto 6].
  unfold handleReset.
  destruct (originalBundles s) as [|o rest] eqn:Horig.
  - destruct bundleIndex; discriminate.
  - rewrite Hp.
    unfold restored_bundle, rescaled in E. rewrite E. reflexivity.
Qed.

Lemma restored_bundle_scaled (s : State) (pristine : HedgeBundle) :
  js_or (budgetInput s) 100 <> js_or (budget pristine) 100 ->
  0 < js_or (budget pristine) 100 ->
  restored_bundle s pristine =
    rescaled (js_or (budgetInput s) 100)
             (js_or (budgetInput s) 100 / js_or (budget pristine) 100) pristine.
Proof.
  intros Hne Hpos. unfold restored_bundle.
  apply num_neq_true in Hne. apply num_gt_true in Hpos.
  now rewrite Hne, Hpos.
Qed.

Lemma restored_bundle_unscaled (s : State) (pristine : HedgeBundle) :
  js_or (budget pristine) 100 <= 0 \/
  js_or (budgetInput s) 100 = js_or (budget pristine) 100 ->
  restored_bundle s pristine = pristine.
Proof.
  intros H. unfold restored_bundle.
  destruct H as [H|H].
  - apply num_gt_false in H. rewrite H. now rewrite andb_false_r.
  - unfold num_neq. destruct (Req_dec_T _ _); [reflexivity | contradiction].
Qed.

(** C7, counterexample: the pristine bundle records the budget 0 and the
    allocations [70, 30], and the budget field reads 200; the reset takes
    the pristine budget to be 100 and scales by 200 / 100: the restored
    bundle has the budget 200 and the allocations [140, 60]. *)
Lemma trigger_c_zero_budget_counterexample :
  (exists s' bundle',
     handleReset (page_of [unbudgeted_bundle] 200) 0 = Done s' /\
     nth_error (currentBundles s') 0 = Some bundle' /\
     budget bundle' = Some 200 /\
     allocations bundle' = [140; 60]) /\
  ~ trigger_c_as_stated.
Proof.
  assert (Hr : restored_bundle (page_of [unbudgeted_bundle] 200) unbudgeted_bundle
               = rescaled 200 (200 / 100) unbudgeted_bundle).
  { pose proof (restored_bundle_scaled (page_of [unbudgeted_bundle] 200)
                  unbudgeted_bundle) as Hs.
    assert (Hshown : js_or (budgetInput (page_of [unbudgeted_bundle] 200)) 100 = 200)
      by (apply js_or_some; lra).
    assert (Hown : js_or (budget unbudgeted_bundle) 100 = 100) by apply js_or_zero.
    rewrite Hshown, Hown in Hs. apply Hs; lra. }
  destruct (handleReset_restores (page_of [unbudgeted_bundle] 200) 0 unbudgeted_bundle
              eq_refl ltac:(simpl; lia))
    as (s1 & Hdone1 & Hnth1 & _).
  rewrite Hr in Hnth1.
  split.
  - exists s1, (rescaled 200 (200 / 100) unbudgeted_bundle).
    repeat split; try assumption.
    unfold allocations. simpl. list_eq.
  - intros H.
    destruct (H (page_of [unbudgeted_bundle] 200) 0%nat unbudgeted_bundle 0
                eq_refl ltac:(simpl; lia) eq_refl)
      as (s' & bundle' & Hdone & Hnth & _ & Hsame).
    rewrite Hdone1 in Hdone. injection Hdone as <-.
    rewrite Hnth1 in Hnth. injection Hnth as <-.
    specialize (Hsame (or_introl eq_refl)).
    apply (f_equal budget) in Hsame. simpl in Hsame.
    injection Hsame as Hb. lra.
Qed.

(** C7, as amended: a reset is a no-op when there is no pristine snapshot.
    Otherwise it completes and puts at the index a copy of the pristine
    bundle, leaving the other bundles alone.  With [intended] the budget
    the field reads (100 when the field reads no number, or 0) and [P] the
    recorded budget of the pristine bundle (100 when that is 0 or absent):
    when [intended] differs from [P] and [P] is positive, the restored
    bundle has the budget [intended] and every bet has its allocation and
    its payout multiplied by [intended / P]; when [P] is negative or equal
    to [intended], the restored bundle is the pristine bundle. *)
Theorem trigger_c_reset :
  (forall s bundleIndex,
     originalBundles s = [] -> handleReset s bundleIndex = Done s) /\
  (forall s bundleIndex pristine,
     nth_error (originalBundles s) bundleIndex = Some pristine ->
     (bundleIndex < length (currentBundles s))%nat ->
     let intended := js_or (budgetInput s) 100 in
     let P := js_or (budget pristine) 100 in
     exists s' bundle',
       handleReset s bundleIndex = Done s' /\
       nth_error (currentBundles s') bundleIndex = Some bundle' /\
       (forall j, j <> bundleIndex ->
          nth_error (currentBundles s') j = nth_error (currentBundles s) j) /\
       coverage_summary bundle' = coverage_summary pristine /\
       total_allocated bundle' = total_allocated pristine /\
       (intended <> P -> 0 < P ->
          budget bundle' = Some intended /\
          scales_bets (intended / P) pristine bundle') /\
       (P <= 0 \/ P = intended -> bundle' = pristine)).
Proof.
  split; [exact handleReset_empty|].
  intros s bi pristine Hp Hi intended P.
  destruct (handleReset_restores s bi pristine Hp Hi)
    as (s' & Hdone & Hnth & Hother & _).
  exists s', (restored_bundle s pristine).
  split; [exact Hdone|]. split; [exact Hnth|]. split; [exact Hother|].
  split; [|split; [|split]].
  - unfold restored_bundle. destruct (_ && _); reflexivity.
  - unfold restored_bundle. destruct (_ && _); reflexivity.
  - intros Hne Hpos. rewrite restored_bundle_scaled by assumption.
    split; [reflexivity | apply rescaled_scales_bets].
  - intros H. apply restored_bundle_unscaled.
    destruct H as [H|H]; [now left | right; symmetry; exact H].
Qed.

Lemma trigger_c_reset_witness :
  exists s' bundle',
    handleReset (page_of [rates_bundle] 200) 0 = Done s' /\
    nth_error (currentBundles s') 0 = Some bundle' /\
    (forall j, j <> 0%nat ->
       nth_error (currentBundles s') j
         = nth_error (currentBundles (page_of [rates_bundle] 200)) j) /\
    coverage_summary bundle' = coverage_summary rates_bundle /\
    total_allocated bundle' = total_allocated rates_bundle /\
    (js_or (Some 200) 100 <> js_or (Some 100) 100 -> 0 < js_or (Some 100) 100 ->
       budget bundle' = Some (js_or (Some 200) 100) /\
       scales_bets (js_or (Some 200) 100 / js_or (Some 100) 100) rates_bundle bundle') /\
    (js_or (Some 100) 100 <= 0 \/ js_or (Some 100) 100 = js_or (Some 200) 100 ->
       bundle' = rates_bundle).
Proof.
  apply (proj2 trigger_c_reset (page_of [rates_bundle] 200) 0%nat rates_bundle).
  - reflexivity.
  - simpl; lia.
Defined.

(** ** Reset right after loading *)

Lemma toFixed0_integer (z : Z) : toFixed0 (IZR z) = IZR z.
Proof.
  unfold toFixed0. destruct (Rlt_dec (IZR z) 0).
  - rewrite (Zfloor_eq (- z)%Z); rewrite opp_IZR; lra.
  - rewrite (Zfloor_eq z); lra.
Qed.

Lemma array_set_same {A : Type} (l : list A) (i : nat) (x : A) :
  nth_error l i = Some x -> array_set l i x = Some l.
Proof.
  revert i; induction l as [|y l IH]; intros [|i] H; simpl in *; try discriminate.
  - now injection H as ->.
  - now rewrite (IH i H).
Qed.

Lemma load_budgetInput (parsed : HedgeResponse.t) :
  js_or (budgetInput (load parsed)) 100 = budget_shown (HedgeResponse.metrics parsed).
Proof.
  unfold load, budget_shown; simpl.
  destruct (PortfolioMetrics.total_budget (HedgeResponse.metrics parsed));
    [reflexivity | apply js_or_some; lra].
Qed.

Lemma reset_unscaled_is_identity (s : State) (bundleIndex : nat) (pristine : HedgeBundle) :
  originalBundles s = currentBundles s ->
  nth_error (originalBundles s) bundleIndex = Some pristine ->
  js_or (budget pristine) 100 <= 0 \/
  js_or (budgetInput s) 100 = js_or (budget pristine) 100 ->
  exists s',
    handleReset s bundleIndex = Done s' /\
    currentBundles s' = currentBundles s /\
    nth_error (currentBundles s') bundleIndex = Some pristine.
Proof.
  intros Hsame Hp Hbudget.
  exists (recalculatemetrics (currentBundles s) s).
  split; [|split; [reflexivity | simpl; now rewrite <- Hsame]].
  unfold handleReset.
  destruct (originalBundles s) as [|o rest] eqn:Horig.
  - destruct bundleIndex; discriminate.
  - rewrite Hp.
    pose proof (restored_bundle_unscaled s pristine Hbudget) as Hr.
    unfold restored_bundle, rescaled in Hr. cbv zeta in Hr |- *. rewrite Hr.
    rewrite <- Hsame. rewrite (array_set_same _ _ _ Hp). reflexivity.
Qed.

Lemma toFixed0_fractional : toFixed0 (1004/10) = 100.
Proof.
  unfold toFixed0. destruct (Rlt_dec (1004/10) 0); [lra|].
  rewrite (Zfloor_eq 100); lra.
Qed.

(** C8, counterexample: one bundle with the budget 100.4, which is also the
    total budget.  The budget field is filled with [toFixed(0)] of it and
    reads 100; the reset finds 100 different from 100.4 and scales the
    bundle down to the budget 100. *)
Lemma reset_after_load_counterexample :
  (exists s' bundle',
     handleReset (load fractional_response) 0 = Done s' /\
     nth_error (currentBundles s') 0 = Some bundle' /\
     budget fractional_bundle = Some (1004/10) /\
     budget bundle' = Some 100 /\
     allocations bundle' = [100]) /\
  ~ reset_after_load_as_stated.
Proof.
  assert (Hr : restored_bundle (load fractional_response) fractional_bundle
               = rescaled 100 (100 / (1004/10)) fractional_bundle).
  { pose proof (restored_bundle_scaled (load fractional_response) fractional_bundle)
      as Hs.
    assert (Hshown : js_or (budgetInput (load fractional_response)) 100 = 100).
    { simpl. rewrite toFixed0_fractional. apply js_or_some. lra. }
    assert (Hown : js_or (budget fractional_bundle) 100 = 1004/10)
      by (apply js_or_some; lra).
    rewrite Hshown, Hown in Hs. apply Hs; lra. }
  destruct (handleReset_restores (load fractional_response) 0 fractional_bundle
              eq_refl ltac:(simpl; lia))
    as (s1 & Hdone1 & Hnth1 & _).
  rewrite Hr in Hnth1.
  split.
  - exists s1, (rescaled 100 (100 / (1004/10)) fractional_bundle).
    repeat split; try assumption.
    unfold allocations. simpl. list_eq.
  - intros H.
    destruct (H fractional_response 0%nat fractional_bundle eq_refl)
      as (s' & bundle' & Hdone & Hnth & Hclose & _).
    rewrite Hdone1 in Hdone. injection Hdone as <-.
    rewrite Hnth1 in Hnth. injection Hnth as <-.
    simpl in Hclose.
    unfold close, Rabs in Hclose. destruct (Rcase_abs _); lra.
Qed.

(** C8, as amended: a reset right after loading completes and leaves the
    working bundles as they were loaded, the bundle at the index being the
    pristine bundle itself, provided the budget of that bundle (100 when it
    records 0 or none) is negative or equals the budget the field reads
    after loading: the total budget of the loaded metrics rounded to an
    integer, 100 when that is 0 or absent.  This is so whenever the bundle
    and the loaded metrics record the same integer budget. *)
Theorem reset_after_load :
  (forall parsed bundleIndex pristine,
     nth_error (HedgeResponse.bundles parsed) bundleIndex = Some pristine ->
     js_or (budget pristine) 100 <= 0 \/
     budget_shown (HedgeResponse.metrics parsed) = js_or (budget pristine) 100 ->
     exists s',
       handleReset (load parsed) bundleIndex = Done s' /\
       currentBundles s' = HedgeResponse.bundles parsed /\
       nth_error (currentBundles s') bundleIndex = Some pristine) /\
  (forall parsed bundleIndex pristine n,
     nth_error (HedgeResponse.bundles parsed) bundleIndex = Some pristine ->
     PortfolioMetrics.total_budget (HedgeResponse.metrics parsed) = Some (IZR n) ->
     budget pristine = Some (IZR n) ->
     exists s',
       handleReset (load parsed) bundleIndex = Done s' /\
       currentBundles s' = HedgeResponse.bundles parsed /\
       nth_error (currentBundles s') bundleIndex = Some pristine).
Proof.
  assert (Hgen : forall parsed bundleIndex pristine,
     nth_error (HedgeResponse.bundles parsed) bundleIndex = Some pristine ->
     js_or (budget pristine) 100 <= 0 \/
     budget_shown (HedgeResponse.metrics parsed) = js_or (budget pristine) 100 ->
     exists s',
       handleReset (load parsed) bundleIndex = Done s' /\
       currentBundles s' = HedgeResponse.bundles parsed /\
       nth_error (currentBundles s') bundleIndex = Some pristine).
  { intros parsed bi pristine Hp Hbudget.
    apply (reset_unscaled_is_identity (load parsed) bi pristine eq_refl Hp).
    rewrite load_budgetInput. exact Hbudget. }
  split; [exact Hgen|].
  intros parsed bi pristine n Hp Htotal Hb.
  apply (Hgen parsed bi pristine Hp). right.
  unfold budget_shown. rewrite Htotal, Hb, toFixed0_integer. reflexivity.
Qed.

Lemma reset_after_load_witness :
  exists s',
    handleReset (load loaded_example) 0 = Done s' /\
    currentBundles s' = HedgeResponse.bundles loaded_example /\
    nth_error (currentBundles s') 0 = Some proportional_bundle.
Proof.
  apply (proj2 reset_after_load loaded_example 0%nat proportional_bundle 100%Z).
  - reflexivity.
  - simpl. unfold js_or. destruct (Req_dec_T 100 0); [exfalso; lra | reflexivity].
  - reflexivity.
Defined.

(** ** Invalid input *)

Lemma handleUpdateBudget_rejects (s : State) (newBudget : option R) :
  currentBundles s = [] \/ newBudget = None \/
  (exists v, newBudget = Some v /\ v <= 0) ->
  handleUpdateBudget s newBudget = Done (budget_typed s newBudget).
Proof.
  intros H. unfold handleUpdateBudget, budget_typed.
  destruct (currentBundles s) as [|first rest]; [reflexivity|].
  destruct H as [H | [-> | (v & -> & Hv)]]; [discriminate | reflexivity |].
  apply num_le_true in Hv. now rewrite Hv.
Qed.

(** C9, counterexample: a bundle with the budget 100, no bets and 0 as its
    [total_allocated]; an allocation edit completes and the bundle records
    100 as its [total_allocated]. *)
Lemma invalid_input_empty_bundle_counterexample :
  (exists s' bundle',
     handleUpdateBet (page_of [empty_bundle] 100) 0 0 Allocation 40 = Done s' /\
     nth_error (currentBundles s') 0 = Some bundle' /\
     total_allocated empty_bundle = 0 /\
     total_allocated bundle' = 100) /\
  ~ invalid_input_as_stated.
Proof.
  split.
  - exists (recalculatemetrics [edited empty_bundle 0 40] (page_of [empty_bundle] 100)),
           (edited empty_bundle 0 40).
    repeat split. apply js_or_some. lra.
  - intros [_ H].
    destruct (H (page_of [empty_bundle] 100) 0%nat 0%nat 40 empty_bundle
                eq_refl eq_refl) as (s' & Hdone & Hsame).
    cbn in Hdone. injection Hdone as <-. cbn in Hsame.
    injection Hsame as Htotal. revert Htotal. decide_num.
Qed.

(** C9, as amended: a budget change with a text that is no number, with a
    number that is not positive, or with no bundles loaded completes and
    leaves the pristine and the working bundles and the metrics as they
    are; only the text of the budget field is taken over.  An allocation
    edit on a bundle with no bets completes, too, and leaves every other
    bundle, and the budget and the empty bet list of this one, as they are;
    it sets the [total_allocated] of the bundle to its budget, or to 100
    when that is 0 or absent. *)
Theorem invalid_input_handling :
  (forall s newBudget,
     currentBundles s = [] \/ newBudget = None \/
     (exists v, newBudget = Some v /\ v <= 0) ->
     exists s',
       handleUpdateBudget s newBudget = Done s' /\
       currentBundles s' = currentBundles s /\
       originalBundles s' = originalBundles s /\
       metrics s' = metrics s /\
       budgetInput s' = newBudget) /\
  (forall s bundleIndex betIndex value bundle,
     nth_error (currentBundles s) bundleIndex = Some bundle ->
     bets bundle = [] ->
     exists s' bundle',
       handleUpdateBet s bundleIndex betIndex Allocation value = Done s' /\
       nth_error (currentBundles s') bundleIndex = Some bundle' /\
       (forall j, j <> bundleIndex ->
          nth_error (currentBundles s') j = nth_error (currentBundles s) j) /\
       length (currentBundles s') = length (currentBundles s) /\
       budget bundle' = budget bundle /\
       bets bundle' = [] /\
       total_allocated bundle' = js_or (budget bundle) 100 /\
       coverage_summary bundle' = coverage_summary bundle /\
       risk_factors_covered bundle' = risk_factors_covered bundle).
Proof.
  split.
  - intros s nb H. exists (budget_typed s nb).
    split; [now apply handleUpdateBudget_rejects | repeat split].
  - intros s bi i v bundle Hb Hempty.
    destruct (handleUpdateBet_allocation_state s bi i v bundle Hb)
      as (s' & Hdone & Hnth & Hother & Hlen & _).
    exists s', (edited bundle i v). repeat split; try assumption.
    unfold edited; simpl. now rewrite Hempty.
Qed.

Lemma invalid_input_handling_witness :
  exists s',
    handleUpdateBudget (page_of [rates_bundle] 100) (Some (-5)) = Done s' /\
    currentBundles s' = [rates_bundle] /\
    originalBundles s' = [rates_bundle] /\
    metrics s' = Some (calculatePortfolioMetrics [rates_bundle]) /\
    budgetInput s' = Some (-5).
Proof.
  apply (proj1 invalid_input_handling (page_of [rates_bundle] 100) (Some (-5))).
  right; right. exists (-5). split; [reflexivity | lra].
Defined.

(** ** The risk score *)

Lemma reduce_from_variance {A : Type} (g h : A -> R) (pre l : list A) (acc : R) :
  reduce_from (fun sum w i =>
                 let p := nth i (map h (pre ++ l)) 0 in sum + (w * w * p * (1 - p)))
              (length pre) (map g l) acc
  = acc + Rsum (map (fun b => g b * g b * h b * (1 - h b)) l).
Proof.
  revert pre acc; induction l as [|x l IH]; intros pre acc.
  - simpl. lra.
  - cbn [map reduce_from].
    replace (pre ++ x :: l) with ((pre ++ [x]) ++ l) by now rewrite <- app_assoc.
    replace (S (length pre)) with (length (pre ++ [x]))
      by (rewrite length_app; simpl; lia).
    rewrite IH.
    replace (nth (length pre) (map h ((pre ++ [x]) ++ l)) 0) with (h x).
    + cbn [Rsum fold_right]. cbv zeta. unfold Rsum. lra.
    + rewrite <- app_assoc, map_app. cbn [app map].
      rewrite app_nth2; rewrite length_map; [|lia].
      now rewrite Nat.sub_diag.
Qed.

Lemma calculateRiskScore_eq (bets : list HedgeBet) :
  calculateRiskScore bets = score_bundle_risk bets.
Proof.
  destruct bets as [|b0 l]; [reflexivity|].
  unfold calculateRiskScore, score_bundle_risk.
  set (bets := b0 :: l). cbv zeta.
  rewrite fold_left_Rplus, Rplus_0_l.
  unfold num_le. destruct (Rle_dec (Rsum (map allocation bets)) 0); [reflexivity|].
  rewrite (map_map allocation (fun a => a / Rsum (map allocation bets))).
  unfold reduce.
  pose proof (reduce_from_variance
                (fun b => allocation b / Rsum (map allocation bets))
                (fun b => js_or (current_price b) (1/2)) [] bets 0) as Hv.
  cbv zeta in Hv. cbn [app length] in Hv. rewrite Hv.
  rewrite (fold_left_sum (fun p => Rabs (p - 1/2))), map_map, !Rplus_0_l.
  rewrite length_map. reflexivity.
Qed.






(** ** The working array keeps its length *)

(** The pristine and the working array are loaded with the same bundles,
    and every completed trigger keeps their lengths.  A trigger on a state
    the page reaches therefore never writes past the end of the working
    array: the outcome [Sparse] does not occur. *)
Lemma array_set_length {A : Type} (l l' : list A) (i : nat) (x : A) :
  (i < length l)%nat -> array_set l i x = Some l' -> length l' = length l.
Proof.
  intros Hi E. destruct (array_set_in l i x Hi) as (l1 & E1 & Hlen & _).
  rewrite E in E1. now injection E1 as <-.
Qed.

Lemma step_keeps_lengths (s s' : State) (t : Trigger) :
  length (currentBundles s) = length (originalBundles s) ->
  step s t = Done s' ->
  length (currentBundles s') = length (originalBundles s').
Proof.
  intros Hlen. destruct t as [bi i f v | nb | bi]; simpl.
  - unfold handleUpdateBet.
    destruct (nth_error (currentBundles s) bi) as [bundle|] eqn:Hb; [|discriminate].
    pose proof (nth_error_lt _ _ _ Hb) as Hbi.
    destruct f.
    + match goal with |- context [array_set _ _ ?b] => set (bundle1 := b) end.
      destruct (array_set (currentBundles s) bi bundle1) as [updated|] eqn:E;
        [|discriminate].
      intros [= <-]. simpl. rewrite (array_set_length _ _ _ _ Hbi E). exact Hlen.
    + destruct (nth_error (bets bundle) i) as [targetBet|]; [|discriminate].
      destruct (array_set (bets bundle) i _) as [bets1|]; [|discriminate].
      match goal with |- context [array_set (currentBundles s) _ ?b] => set (bundle1 := b) end.
      destruct (array_set (currentBundles s) bi bundle1) as [updated|] eqn:E;
        [|discriminate].
      intros [= <-]. simpl. rewrite (array_set_length _ _ _ _ Hbi E). exact Hlen.
  - unfold handleUpdateBudget.
    destruct (currentBundles s) as [|first rest] eqn:Hcur.
    + intros [= <-]. exact Hlen.
    + destruct nb as [nb|]; [|intros [= <-]; exact Hlen].
      destruct (num_le nb 0); [intros [= <-]; exact Hlen|].
      destruct (num_le (js_or (budget first) 100) 0); [intros [= <-]; exact Hlen|].
      intros [= <-]. unfold recalculatemetrics.
      cbn [currentBundles originalBundles].
      rewrite <- Hlen. apply (length_map _ (first :: rest)).
  - unfold handleReset.
    destruct (originalBundles s) as [|o rest] eqn:Horig; [intros [= <-]; congruence|].
    destruct (nth_error (o :: rest) bi) as [restored|] eqn:Hr; [|discriminate].
    pose proof (nth_error_lt _ _ _ Hr) as Hbi. rewrite <- Hlen in Hbi.
    match goal with |- context [array_set _ _ ?b] => set (restored1 := b) end.
    destruct (array_set (currentBundles s) bi restored1) as [updated|] eqn:E;
      [|discriminate].
    intros [= <-]. simpl. rewrite (array_set_length _ _ _ _ Hbi E), Horig. exact Hlen.
Qed.

Lemma reaches_keeps_lengths (parsed : HedgeResponse.t) (s : State) :
  reaches (load parsed) s ->
  length (currentBundles s) = length (originalBundles s).
Proof.
  intros Hr. induction Hr as [|s t s' _ IH Hstep]; [reflexivity|].
  exact (step_keeps_lengths s s' t IH Hstep).
Qed.

Lemma step_not_sparse (s : State) (t : Trigger) :
  length (currentBundles s) = length (originalBundles s) ->
  step s t <> Sparse.
Proof.
  intros Hlen. destruct t as [bi i f v | nb | bi]; simpl.
  - unfold handleUpdateBet.
    destruct (nth_error (currentBundles s) bi) as [bundle|] eqn:Hb; [|discriminate].
    pose proof (nth_error_lt _ _ _ Hb) as Hbi.
    destruct f.
    + match goal with |- context [array_set _ _ ?b] => set (bundle1 := b) end.
      destruct (array_set_in (currentBundles s) bi bundle1 Hbi) as (l1 & -> & _).
      discriminate.
    + destruct (nth_error (bets bundle) i) as [targetBet|] eqn:Ht; [|discriminate].
      match goal with |- context [array_set (bets bundle) _ ?b] => set (targetBet1 := b) end.
      destruct (array_set_in (bets bundle) i targetBet1 (nth_error_lt _ _ _ Ht))
        as (bets1 & -> & _).
      match goal with |- context [array_set (currentBundles s) _ ?b] => set (bundle1 := b) end.
      destruct (array_set_in (currentBundles s) bi bundle1 Hbi) as (l1 & -> & _).
      discriminate.
  - unfold handleUpdateBudget.
    destruct (currentBundles s); [discriminate|].
    destruct nb; [|discriminate].
    destruct (num_le _ 0); [discriminate|].
    destruct (num_le _ 0); discriminate.
  - unfold handleReset.
    destruct (originalBundles s) as [|o rest] eqn:Horig; [discriminate|].
    destruct (nth_error (o :: rest) bi) as [restored|] eqn:Hr; [|discriminate].
    pose proof (nth_error_lt _ _ _ Hr) as Hbi. rewrite <- Hlen in Hbi.
    match goal with |- context [array_set _ _ ?b] => set (restored1 := b) end.
    destruct (array_set_in (currentBundles s) bi restored1 Hbi) as (l1 & -> & _).
    discriminate.
Qed.

(** * Further properties of the code *)

(** ** The metrics of one bundle *)

Lemma fold_left_Rmax_ge (l : list R) (x : R) :
  x <= fold_left Rmax l x /\ forall y, In y l -> y <= fold_left Rmax l x.
Proof.
  revert x; induction l as [|z l IH]; intros x; simpl.
  - split; [lra | intros y []].
  - destruct (IH (Rmax x z)) as [H1 H2].
    pose proof (Rmax_l x z). pose proof (Rmax_r x z).
    split; [lra|]. intros y [<-|Hy]; [lra | now apply H2].
Qed.

Lemma fold_left_Rmin_le (l : list R) (x : R) :
  fold_left Rmin l x <= x /\ forall y, In y l -> fold_left Rmin l x <= y.
Proof.
  revert x; induction l as [|z l IH]; intros x; simpl.
  - split; [lra | intros y []].
  - destruct (IH (Rmin x z)) as [H1 H2].
    pose proof (Rmin_l x z). pose proof (Rmin_r x z).
    split; [lra|]. intros y [<-|Hy]; [lra | now apply H2].
Qed.

Lemma math_max_ge (l : list R) (y : R) : In y l -> y <= math_max l.
Proof.
  destruct l as [|x l]; [intros []|]. simpl.
  destruct (fold_left_Rmax_ge l x) as [H1 H2].
  intros [<-|Hy]; [exact H1 | now apply H2].
Qed.

Lemma math_min_le (l : list R) (y : R) : In y l -> math_min l <= y.
Proof.
  destruct l as [|x l]; [intros []|]. simpl.
  destruct (fold_left_Rmin_le l x) as [H1 H2].
  intros [<-|Hy]; [exact H1 | now apply H2].
Qed.



(** ** The theme of a bundle *)

Lemma before_colon_free (s : string) : colon_free (before_colon s).
Proof.
  unfold colon_free. induction s as [|c s IH]; simpl; [tauto|].
  destruct (Ascii.eqb_spec c ":"%char) as [->|Hc]; simpl; [tauto|].
  intros [H|H]; [congruence | tauto].
Qed.

Lemma before_colon_prefix (t r : string) :
  colon_free t -> before_colon (t ++ String ":" r) = t.
Proof.
  unfold colon_free. induction t as [|c t IH]; simpl; intros H; [reflexivity|].
  destruct (Ascii.eqb_spec c ":"%char) as [->|Hc]; [tauto|].
  rewrite IH; [reflexivity | tauto].
Qed.

Lemma before_colon_whole (t : string) : colon_free t -> before_colon t = t.
Proof.
  unfold colon_free. induction t as [|c t IH]; simpl; intros H; [reflexivity|].
  destruct (Ascii.eqb_spec c ":"%char) as [->|Hc]; [tauto|].
  rewrite IH; [reflexivity | tauto].
Qed.

(** X4: the theme name of a bundle is never empty and holds no colon.  It
    is the text of the coverage summary before its first colon when that
    text is not empty, the whole summary when this holds no colon and is
    not empty, and ["Bundle"] when the summary is empty or starts with a
    colon. *)
Theorem theme_name_of_summary (bundle : HedgeBundle) :
  let theme := BundleMetrics.theme_name (calculateBundleMetrics bundle) in
  theme <> ""%string /\
  colon_free theme /\
  (forall t r, t <> ""%string -> colon_free t ->
     coverage_summary bundle = (t ++ String ":" r)%string -> theme = t) /\
  (coverage_summary bundle <> ""%string -> colon_free (coverage_summary bundle) ->
     theme = coverage_summary bundle) /\
  (coverage_summary bundle = ""%string \/
   (exists r, coverage_summary bundle = String ":" r) -> theme = "Bundle"%string).
Proof.
  intros theme.
  assert (Htheme : theme = theme_of (coverage_summary bundle)).
  { unfold theme, calculateBundleMetrics. destruct (bets bundle); reflexivity. }
  rewrite Htheme. clear Htheme theme. unfold theme_of.
  split; [|split; [|split; [|split]]].
  - destruct (before_colon (coverage_summary bundle)); discriminate.
  - pose proof (before_colon_free (coverage_summary bundle)) as H.
    destruct (before_colon (coverage_summary bundle)) eqn:E; [|exact H].
    unfold colon_free. simpl. intros Hin.
    repeat (destruct Hin as [Hin|Hin]; [discriminate|]). exact Hin.
  - intros t r Ht Hfree ->. rewrite before_colon_prefix by exact Hfree.
    destruct t; [congruence | reflexivity].
  - intros Hne Hfree. rewrite before_colon_whole by exact Hfree.
    destruct (coverage_summary bundle); [congruence | reflexivity].
  - intros [-> | (r & ->)]; reflexivity.
Qed.

Lemma theme_name_of_summary_witness :
  BundleMetrics.theme_name (calculateBundleMetrics rates_bundle) = "Rates"%string.
Proof.
  apply (proj1 (proj2 (proj2 (theme_name_of_summary rates_bundle)))
           "Rates"%string " covered"%string).
  - discriminate.
  - unfold colon_free. simpl. intros H.
    repeat (destruct H as [H|H]; [discriminate|]). exact H.
  - reflexivity.
Defined.

(** ** The portfolio metrics, bundle by bundle *)




Lemma portfolio_total_allocated (bundles : list HedgeBundle) :
  PortfolioMetrics.total_allocated (calculatePortfolioMetrics bundles)
    = Rsum (map total_allocated bundles).
Proof.
  unfold calculatePortfolioMetrics. cbn [PortfolioMetrics.total_allocated].
  rewrite fold_left_sum. lra.
Qed.




(** ** A budget change and the metrics *)

(** X8: a budget change that goes through sets the budget of every bundle
    and leaves its [total_allocated] as it was recorded, though it scales
    the bets.  In the metrics computed after it, the total budget is the
    new budget and the portfolio's [total_allocated] is what it was
    before. *)
Theorem budget_change_metrics (s : State) (nb : R) (first : HedgeBundle)
    (rest : list HedgeBundle) :
  currentBundles s = first :: rest ->
  0 < nb -> 0 < js_or (budget first) 100 ->
  let before := calculatePortfolioMetrics (currentBundles s) in
  exists s' after,
    handleUpdateBudget s (Some nb) = Done s' /\
    metrics s' = Some after /\
    map total_allocated (currentBundles s') = map total_allocated (currentBundles s) /\
    (forall b, In b (currentBundles s') -> budget b = Some nb) /\
    PortfolioMetrics.total_budget after = Some nb /\
    PortfolioMetrics.total_allocated after = PortfolioMetrics.total_allocated before.
Proof.
  intros Hcur Hnb Hold before.
  pose proof (handleUpdateBudget_scales s nb first rest Hcur Hnb Hold) as Hdone.
  set (scale := nb / js_or (budget first) 100) in *.
  set (bundles := currentBundles s) in *.
  exists (recalculatemetrics (map (rescaled nb scale) bundles) (budget_typed s (Some nb))),
         (calculatePortfolioMetrics (map (rescaled nb scale) bundles)).
  assert (Htotal : map total_allocated (map (rescaled nb scale) bundles)
                   = map total_allocated bundles).
  { rewrite map_map. reflexivity. }
  split; [exact Hdone|]. split; [reflexivity|]. split; [exact Htotal|].
  split; [|split].
  - cbn [currentBundles recalculatemetrics]. intros b Hb.
    apply in_map_iff in Hb. destruct Hb as (b0 & <- & _). reflexivity.
  - rewrite Hcur. simpl. f_equal. apply js_or_some. lra.
  - unfold before. rewrite !portfolio_total_allocated. now rewrite Htotal.
Qed.

Lemma budget_change_metrics_witness :
  exists s' after,
    handleUpdateBudget (page_of [rates_bundle] 100) (Some 200) = Done s' /\
    metrics s' = Some after /\
    map total_allocated (currentBundles s') = [100] /\
    (forall b, In b (currentBundles s') -> budget b = Some 200) /\
    PortfolioMetrics.total_budget after = Some 200 /\
    PortfolioMetrics.total_allocated after
      = PortfolioMetrics.total_allocated (calculatePortfolioMetrics [rates_bundle]).
Proof.
  apply (budget_change_metrics (page_of [rates_bundle] 100) 200 rates_bundle []).
  - reflexivity.
  - lra.
  - change (budget rates_bundle) with (Some 100). rewrite js_or_some; lra.
Defined.

(** ** The edit of a multiplier *)

Lemma array_set_map_same {A B : Type} (f : A -> B) (l l' : list A) (i : nat) (x y : A) :
  nth_error l i = Some y -> f x = f y ->
  array_set l i x = Some l' -> map f l' = map f l.
Proof.
  revert i l'; induction l as [|z l IH]; intros [|i] l' Hy Hf E; simpl in *;
    try discriminate.
  - injection Hy as ->. injection E as <-. simpl. now rewrite Hf.
  - destruct (array_set l i x) as [l0|] eqn:E0; [|discriminate].
    injection E as <-. simpl. f_equal. now apply (IH i).
Qed.

(** X9: the multiplier edit of an existing bet completes.  It gives the bet
    the new multiplier and the payout allocation times multiplier, and
    changes nothing else: the allocations, the budget and the
    [total_allocated] of the bundle, its other bets, the other bundles, the
    pristine bundles and the budget field are as before. *)
Theorem multiplier_edit (s : State) (bundleIndex betIndex : nat) (value : R)
    (bundle : HedgeBundle) (target : HedgeBet) :
  nth_error (currentBundles s) bundleIndex = Some bundle ->
  nth_error (bets bundle) betIndex = Some target ->
  exists s' bundle' target',
    handleUpdateBet s bundleIndex betIndex Multiplier value = Done s' /\
    nth_error (currentBundles s') bundleIndex = Some bundle' /\
    nth_error (bets bundle') betIndex = Some target' /\
    payout_multiplier target' = value /\
    potential_payout target' = allocation target * value /\
    allocation target' = allocation target /\
    (forall j, j <> betIndex -> nth_error (bets bundle') j = nth_error (bets bundle) j) /\
    allocations bundle' = allocations bundle /\
    budget bundle' = budget bundle /\
    total_allocated bundle' = total_allocated bundle /\
    (forall j, j <> bundleIndex ->
       nth_error (currentBundles s') j = nth_error (currentBundles s) j) /\
    originalBundles s' = originalBundles s /\
    budgetInput s' = budgetInput s.
Proof.
  intros Hb Ht.
  set (target1 := mkBet (outcome target) (allocation target)
                        (allocation_percent target) (current_price target)
                        (allocation target * value) value).
  destruct (array_set_in (bets bundle) betIndex target1 (nth_error_lt _ _ _ Ht))
    as (bets1 & E1 & Hlen1 & Hnth1 & Hother1).
  set (bundle1 := mkBundle (budget bundle) bets1 (total_allocated bundle)
                           (coverage_summary bundle) (risk_factors_covered bundle)).
  destruct (array_set_in (currentBundles s) bundleIndex bundle1 (nth_error_lt _ _ _ Hb))
    as (updated & E & Hlen & Hnth & Hother).
  exists (recalculatemetrics updated s), bundle1, target1.
  split.
  { unfold handleUpdateBet. rewrite Hb, Ht. fold target1. rewrite E1.
    fold bundle1. rewrite E. reflexivity. }
  repeat split; try assumption.
  unfold allocations. simpl.
  apply (array_set_map_same allocation (bets bundle) bets1 betIndex target1 target Ht);
    [reflexivity | exact E1].
Qed.

Lemma multiplier_edit_witness :
  exists s' bundle' target',
    handleUpdateBet (page_of [rates_bundle] 100) 0 1 Multiplier 4 = Done s' /\
    nth_error (currentBundles s') 0 = Some bundle' /\
    nth_error (bets bundle') 1 = Some target' /\
    payout_multiplier target' = 4 /\
    potential_payout target' = allocation (bet_of 30 3) * 4 /\
    allocation target' = allocation (bet_of 30 3) /\
    (forall j, j <> 1%nat -> nth_error (bets bundle') j = nth_error (bets rates_bundle) j) /\
    allocations bundle' = allocations rates_bundle /\
    budget bundle' = budget rates_bundle /\
    total_allocated bundle' = total_allocated rates_bundle /\
    (forall j, j <> 0%nat ->
       nth_error (currentBundles s') j
         = nth_error (currentBundles (page_of [rates_bundle] 100)) j) /\
    originalBundles s' = originalBundles (page_of [rates_bundle] 100) /\
    budgetInput s' = budgetInput (page_of [rates_bundle] 100).
Proof.
  apply (multiplier_edit (page_of [rates_bundle] 100) 0 1 4 rates_bundle (bet_of 30 3));
    reflexivity.
Defined.

(** ** What the triggers raise *)

(** X10: an edit raises exactly when the bundle index lies past the end of
    the working bundles, or when it is a multiplier edit and the bet index
    lies past the end of the bets of the bundle; what it raises is a
    [TypeError].  A budget change never raises.  A reset raises exactly
    when there are pristine bundles and the index lies past their end, and
    it raises a [SyntaxError]. *)
Theorem triggers_raise (s : State) :
  (forall bundleIndex betIndex field value e,
     handleUpdateBet s bundleIndex betIndex field value = Raises e <->
     e = TypeError /\
     (nth_error (currentBundles s) bundleIndex = None \/
      exists bundle,
        nth_error (currentBundles s) bundleIndex = Some bundle /\
        field = Multiplier /\ nth_error (bets bundle) betIndex = None)) /\
  (forall newBudget e, handleUpdateBudget s newBudget <> Raises e) /\
  (forall bundleIndex e,
     handleReset s bundleIndex = Raises e <->
     e = SyntaxError /\ originalBundles s <> [] /\
     nth_error (originalBundles s) bundleIndex = None).
Proof.
  split; [|split].
  - intros bi i f v e. unfold handleUpdateBet.
    destruct (nth_error (currentBundles s) bi) as [bundle|] eqn:Hb.
    + destruct f.
      * destruct (array_set _ _ _); split; try discriminate;
          intros (_ & [H | (b & _ & H & _)]); discriminate.
      * destruct (nth_error (bets bundle) i) as [t|] eqn:Ht.
        -- destruct (array_set (bets bundle) i _);
             [destruct (array_set (currentBundles s) bi _)|];
             split; try discriminate;
             intros (_ & [H | (b & [= <-] & _ & H)]); try discriminate;
             rewrite Ht in H; discriminate.
        -- split.
           ++ intros [= <-]. split; [reflexivity|]. right. now exists bundle.
           ++ intros (-> & _). reflexivity.
    + split.
      * intros [= <-]. split; [reflexivity | now left].
      * intros (-> & _). reflexivity.
  - intros nb e. unfold handleUpdateBudget.
    destruct (currentBundles s); [discriminate|].
    destruct nb; [|discriminate].
    destruct (num_le _ 0); [discriminate|].
    destruct (num_le _ 0); discriminate.
  - intros bi e. unfold handleReset.
    destruct (originalBundles s) as [|o rest] eqn:Ho.
    + split; [discriminate | intros (_ & H & _); congruence].
    + destruct (nth_error (o :: rest) bi) as [r|] eqn:Hr.
      * destruct (array_set _ _ _); split; try discriminate;
          intros (_ & _ & H); discriminate.
      * split.
        -- intros [= <-]. repeat split. discriminate.
        -- intros (-> & _). reflexivity.
Qed.

Lemma triggers_raise_witness :
  handleReset (page_of [rates_bundle] 100) 3 = Raises SyntaxError.
Proof.
  apply (proj2 (proj2 (triggers_raise (page_of [rates_bundle] 100))) 3%nat SyntaxError).
  repeat split. discriminate.
Defined.

(** ** What every trigger keeps *)

Lemma map_mapi_from {A B C : Type} (g : B -> C) (h : A -> C) (f : A -> nat -> B)
    (k : nat) (l : list A) :
  (forall x i, g (f x i) = h x) -> map g (mapi_from f k l) = map h l.
Proof.
  intros H. revert k; induction l as [|x l IH]; intros k; simpl; [reflexivity|].
  now rewrite H, IH.
Qed.

Lemma shape_rescaled (nb c : R) (b : HedgeBundle) : shape (rescaled nb c b) = shape b.
Proof. unfold shape, rescaled. simpl. now rewrite map_map. Qed.

Lemma step_keeps_shape (s s' : State) (t : Trigger) :
  map shape (currentBundles s) = map shape (originalBundles s) ->
  step s t = Done s' ->
  originalBundles s' = originalBundles s /\
  map shape (currentBundles s') = map shape (originalBundles s).
Proof.
  intros Hshape. destruct t as [bi i f v | nb | bi]; simpl.
  - unfold handleUpdateBet.
    destruct (nth_error (currentBundles s) bi) as [bundle|] eqn:Hb; [|discriminate].
    destruct f.
    + match goal with |- context [array_set _ _ ?b] => set (bundle1 := b) end.
      destruct (array_set (currentBundles s) bi bundle1) as [updated|] eqn:E;
        [|discriminate].
      intros [= <-]. split; [reflexivity|]. simpl. rewrite <- Hshape.
      apply (array_set_map_same shape _ _ bi bundle1 bundle Hb); [|exact E].
      unfold shape, bundle1. simpl. f_equal. unfold mapi.
      apply map_mapi_from. intros x idx. destruct (idx =? i)%nat; reflexivity.
    + destruct (nth_error (bets bundle) i) as [target|] eqn:Ht; [|discriminate].
      match goal with |- context [array_set (bets bundle) _ ?b] => set (target1 := b) end.
      destruct (array_set (bets bundle) i target1) as [bets1|] eqn:E1; [|discriminate].
      match goal with |- context [array_set (currentBundles s) _ ?b] => set (bundle1 := b) end.
      destruct (array_set (currentBundles s) bi bundle1) as [updated|] eqn:E;
        [|discriminate].
      intros [= <-]. split; [reflexivity|]. simpl. rewrite <- Hshape.
      apply (array_set_map_same shape _ _ bi bundle1 bundle Hb); [|exact E].
      unfold shape, bundle1. simpl. f_equal.
      apply (array_set_map_same bet_shape _ _ i target1 target Ht); [reflexivity | exact E1].
  - unfold handleUpdateBudget.
    destruct (currentBundles s) as [|first rest] eqn:Hcur.
    + intros [= <-]. split; [reflexivity | exact Hshape].
    + destruct nb as [nb|]; [|intros [= <-]; split; [reflexivity | exact Hshape]].
      destruct (num_le nb 0); [intros [= <-]; split; [reflexivity | exact Hshape]|].
      destruct (num_le (js_or (budget first) 100) 0);
        [intros [= <-]; split; [reflexivity | exact Hshape]|].
      intros [= <-]. split; [reflexivity|].
      unfold recalculatemetrics. cbn [currentBundles]. rewrite <- Hshape.
      set (c := nb / js_or (budget first) 100).
      change (map shape (map (rescaled nb c) (first :: rest)) = map shape (first :: rest)).
      rewrite map_map. apply map_ext. intros b. apply shape_rescaled.
  - unfold handleReset.
    destruct (originalBundles s) as [|o rest] eqn:Horig; [intros [= <-]; auto|].
    destruct (nth_error (o :: rest) bi) as [restored|] eqn:Hr; [|discriminate].
    match goal with |- context [array_set _ _ ?b] => set (restored1 := b) end.
    destruct (array_set (currentBundles s) bi restored1) as [updated|] eqn:E;
      [|discriminate].
    intros [= <-]. split; [simpl; now rewrite Horig|].
    unfold recalculatemetrics. cbn [currentBundles].
    assert (Hr1 : shape restored1 = shape restored).
    { unfold restored1. destruct (_ && _); [|reflexivity].
      unfold shape. simpl. now rewrite map_map. }
    destruct (nth_error (currentBundles s) bi) as [old|] eqn:Hold.
    + rewrite <- Hshape.
      apply (array_set_map_same shape _ _ bi restored1 old Hold); [|exact E].
      rewrite Hr1.
      assert (H1 : nth_error (map shape (currentBundles s)) bi = Some (shape old))
        by (rewrite nth_error_map, Hold; reflexivity).
      assert (H2 : nth_error (map shape (o :: rest)) bi = Some (shape restored))
        by (rewrite nth_error_map, Hr; reflexivity).
      rewrite Hshape in H1. congruence.
    + exfalso. apply nth_error_None in Hold.
      pose proof (nth_error_lt _ _ _ Hr) as Hlt.
      apply (f_equal (@length _)) in Hshape. rewrite !length_map in Hshape. lia.
Qed.

(** X11: from the load on, whatever triggers complete, the pristine bundles
    stay the bundles that were loaded, and the working bundles keep their
    number, and bundle by bundle their summary and risk factors and, bet by
    bet, outcome, price and allocation percentage: the triggers write
    budgets, allocations, multipliers, payouts and [total_allocated], and
    nothing else. *)
Theorem triggers_keep_shape (parsed : HedgeResponse.t) (s : State) :
  reaches (load parsed) s ->
  originalBundles s = HedgeResponse.bundles parsed /\
  map shape (currentBundles s) = map shape (HedgeResponse.bundles parsed).
Proof.
  intros Hr. induction Hr as [|s t s' _ [IHo IHs] Hstep]; [split; reflexivity|].
  rewrite <- IHo in IHs.
  destruct (step_keeps_shape s s' t IHs Hstep) as [Ho Hs].
  rewrite Ho, Hs, IHo. split; reflexivity.
Qed.

Lemma triggers_keep_shape_witness :
  originalBundles (recalculatemetrics [edited proportional_bundle 2 20]
                                      (load loaded_example))
    = HedgeResponse.bundles loaded_example /\
  map shape (currentBundles (recalculatemetrics [edited proportional_bundle 2 20]
                                                (load loaded_example)))
    = map shape (HedgeResponse.bundles loaded_example).
Proof.
  apply (triggers_keep_shape loaded_example).
  apply reaches_step with (s := load loaded_example)
                          (t := UpdateBet 0 2 Allocation 20).
  - apply reaches_refl.
  - reflexivity.
Defined.

(** ** The range of the allocations after an edit *)

Lemma filteri_from_In (i k j : nat) (l : list HedgeBet) (x : HedgeBet) :
  nth_error l j = Some x -> (k + j)%nat <> i ->
  In x (filteri_from (not_target i) k l).
Proof.
  revert k j; induction l as [|y l IH]; intros k [|j] Hj Hne; simpl in *;
    try discriminate.
  - injection Hj as ->. change (not_target i k) with (negb (k =? i)%nat).
    rewrite Nat.add_0_r in Hne.
    destruct (Nat.eqb_spec k i); [contradiction | now left].
  - assert (In x (filteri_from (not_target i) (S k) l)) by (apply (IH (S k) j Hj); lia).
    destruct (not_target i k); [now right | assumption].
Qed.

Lemma filteri_from_origin (i k : nat) (l : list HedgeBet) (y : HedgeBet) :
  In y (filteri_from (not_target i) k l) ->
  exists j, nth_error l j = Some y /\ (k + j)%nat <> i.
Proof.
  revert k; induction l as [|x l IH]; intros k Hin; simpl in Hin; [contradiction|].
  change (not_target i k) with (negb (k =? i)%nat) in Hin.
  destruct (Nat.eqb_spec k i) as [Heq|Hne]; simpl in Hin.
  - destruct (IH (S k) Hin) as (j & Hj & Hne). exists (S j). split; [exact Hj | lia].
  - destruct Hin as [<-|Hin].
    + exists 0%nat. split; [reflexivity | lia].
    + destruct (IH (S k) Hin) as (j & Hj & Hne'). exists (S j). split; [exact Hj | lia].
Qed.

Lemma Rsum_ge_element {A : Type} (f : A -> R) (l : list A) (x : A) :
  (forall y, In y l -> 0 <= f y) -> In x l -> f x <= Rsum (map f l).
Proof.
  induction l as [|z l IH]; intros Hpos Hin; [destruct Hin|]. simpl.
  assert (0 <= Rsum (map f l)).
  { clear IH Hin. induction l as [|w l IH]; simpl; [lra|].
    assert (0 <= f w) by (apply Hpos; right; now left).
    assert (0 <= Rsum (map f l)); [|lra].
    apply IH. intros y [Hy|Hy]; apply Hpos; [now left | right; now right]. }
  assert (0 <= f z) by (apply Hpos; now left).
  destruct Hin as [<-|Hin]; [lra|].
  assert (f x <= Rsum (map f l)); [|lra].
  apply IH; [|exact Hin]. intros y Hy. apply Hpos. now right.
Qed.

Lemma share_of_range (bundle : HedgeBundle) (i j : nat) (x : HedgeBet) :
  (forall k bet, k <> i -> nth_error (bets bundle) k = Some bet -> 0 <= allocation bet) ->
  nth_error (bets bundle) j = Some x -> j <> i ->
  0 <= share_of bundle i x <= 1.
Proof.
  intros Hpos Hj Hne. unfold share_of. cbv zeta.
  rewrite fold_left_sum, Rplus_0_l. unfold filteri.
  set (rest := filteri_from (not_target i) 0 (bets bundle)).
  assert (Hin : In x rest) by (apply (filteri_from_In i 0 j (bets bundle) x Hj); simpl; exact Hne).
  assert (Hrest : forall y, In y rest -> 0 <= allocation y).
  { intros y Hy. destruct (filteri_from_origin i 0 (bets bundle) y Hy) as (k & Hk & Hki).
    apply (Hpos k y); [exact Hki | exact Hk]. }
  pose proof (Rsum_ge_element allocation rest x Hrest Hin) as Hle.
  pose proof (Hrest x Hin) as Hx.
  unfold num_gt. destruct (Rlt_dec 0 (Rsum (map allocation rest))) as [HS|HS].
  - assert (0 < / Rsum (map allocation rest)) by now apply Rinv_0_lt_compat.
    split.
    + apply Rmult_le_pos; lra.
    + apply (Rmult_le_reg_r (Rsum (map allocation rest))); [exact HS|].
      unfold Rdiv. rewrite Rmult_assoc, Rinv_l by lra. lra.
  - assert (Hn : 1 <= INR (length rest)).
    { destruct rest as [|r0 rest']; [destruct Hin|].
      change (length (r0 :: rest')) with (S (length rest')). rewrite S_INR.
      pose proof (pos_INR (length rest')). lra. }
    assert (0 < / INR (length rest)) by (apply Rinv_0_lt_compat; lra).
    split.
    + apply Rmult_le_pos; lra.
    + apply (Rmult_le_reg_r (INR (length rest))); [lra|].
      unfold Rdiv. rewrite Rmult_assoc, Rinv_l by lra. lra.
Qed.

(** X13: on a bundle whose budget [B] (100 for a budget that is 0 or
    absent) is not negative and whose bets other than the target hold no
    negative allocation, an allocation edit leaves every bet with an
    allocation in [0, B]; and a value that lies in [0, B], as the slider of
    the card gives it, is stored in the target as it is, with the payout
    value times multiplier. *)
Theorem allocation_edit_range (s : State) (bundleIndex betIndex : nat)
    (value : R) (bundle : HedgeBundle) :
  nth_error (currentBundles s) bundleIndex = Some bundle ->
  0 <= js_or (budget bundle) 100 ->
  (forall k bet, k <> betIndex -> nth_error (bets bundle) k = Some bet ->
     0 <= allocation bet) ->
  exists s' bundle',
    handleUpdateBet s bundleIndex betIndex Allocation value = Done s' /\
    nth_error (currentBundles s') bundleIndex = Some bundle' /\
    (forall bet', In bet' (bets bundle') ->
       0 <= allocation bet' <= js_or (budget bundle) 100) /\
    (0 <= value <= js_or (budget bundle) 100 ->
     forall target', nth_error (bets bundle') betIndex = Some target' ->
       allocation target' = value /\
       potential_payout target' = value * payout_multiplier target').
Proof.
  intros Hb HB Hpos.
  destruct (handleUpdateBet_allocation_state s bundleIndex betIndex value bundle Hb)
    as (s' & Hdone & Hnth & _).
  exists s', (edited bundle betIndex value).
  split; [exact Hdone|]. split; [exact Hnth|].
  set (B := js_or (budget bundle) 100) in *.
  pose proof (clamp_bounds value B HB) as Hclamp.
  split.
  - intros bet' Hin. apply In_nth_error in Hin. destruct Hin as (j & Hj').
    assert (Hlt : (j < length (bets bundle))%nat).
    { rewrite <- (edited_length bundle betIndex value). now apply nth_error_lt in Hj'. }
    destruct (nth_error (bets bundle) j) as [x|] eqn:Hj;
      [|apply nth_error_None in Hj; lia].
    rewrite (edited_bet bundle betIndex value j x Hj) in Hj'. injection Hj' as <-.
    fold B. destruct (Nat.eqb_spec j betIndex) as [->|Hne]; cbn [allocation allocate].
    + exact Hclamp.
    + pose proof (share_of_range bundle betIndex j x Hpos Hj Hne). nra.
  - intros Hv target' Ht'.
    assert (Hlt : (betIndex < length (bets bundle))%nat).
    { rewrite <- (edited_length bundle betIndex value). now apply nth_error_lt in Ht'. }
    destruct (nth_error (bets bundle) betIndex) as [x|] eqn:Ht;
      [|apply nth_error_None in Ht; lia].
    rewrite (edited_bet bundle betIndex value betIndex x Ht) in Ht'.
    rewrite Nat.eqb_refl in Ht'. injection Ht' as <-. fold B.
    assert (Hnv : Rmin (Rmax value 0) B = value) by (revert Hv; decide_num).
    rewrite Hnv. split; reflexivity.
Qed.

Lemma allocation_edit_range_witness :
  exists s' bundle',
    handleUpdateBet (page_of [proportional_bundle] 100) 0 2 Allocation 20 = Done s' /\
    nth_error (currentBundles s') 0 = Some bundle' /\
    (forall bet', In bet' (bets bundle') ->
       0 <= allocation bet' <= js_or (budget proportional_bundle) 100) /\
    (0 <= 20 <= js_or (budget proportional_bundle) 100 ->
     forall target', nth_error (bets bundle') 2 = Some target' ->
       allocation target' = 20 /\
       potential_payout target' = 20 * payout_multiplier target').
Proof.
  apply (allocation_edit_range (page_of [proportional_bundle] 100) 0 2 20
           proportional_bundle).
  - reflexivity.
  - change (budget proportional_bundle) with (Some 100). rewrite js_or_some; lra.
  - intros k bet Hk Hnth.
    destruct k as [|[|[|k]]]; simpl in Hnth.
    + injection Hnth as <-. simpl. lra.
    + injection Hnth as <-. simpl. lra.
    + exfalso. apply Hk. reflexivity.
    + destruct k; discriminate.
Defined.

(** ** The scale 1 *)

Lemma scale_bet_one (bet : HedgeBet) : scale_bet 1 bet = bet.
Proof. destruct bet. unfold scale_bet. simpl. f_equal; ring. Qed.

Lemma rescaled_one (B : R) (b : HedgeBundle) :
  budget b = Some B -> rescaled B 1 b = b.
Proof.
  intros HB. destruct b as [bud bs ta cs rf]. simpl in HB. subst bud.
  unfold rescaled. simpl. f_equal.
  rewrite <- (map_id bs) at 2. apply map_ext. intros bet. apply scale_bet_one.
Qed.

(** ** Resets *)

(** X17: a reset made twice does what it does once: after the reset of a
    bundle, the same reset completes and leaves the whole state of the page
    as it is. *)
Theorem reset_idempotent (s : State) (bundleIndex : nat) (pristine : HedgeBundle) :
  nth_error (originalBundles s) bundleIndex = Some pristine ->
  (bundleIndex < length (currentBundles s))%nat ->
  exists s1,
    handleReset s bundleIndex = Done s1 /\ handleReset s1 bundleIndex = Done s1.
Proof.
  intros Hp Hi.
  destruct (array_set_in (currentBundles s) bundleIndex (restored_bundle s pristine) Hi)
    as (updated & E & Hlen & Hnth & _).
  assert (Hreset : forall s0 l,
            originalBundles s0 = originalBundles s ->
            budgetInput s0 = budgetInput s ->
            array_set (currentBundles s0) bundleIndex (restored_bundle s pristine) = Some l ->
            handleReset s0 bundleIndex = Done (recalculatemetrics l s0)).
  { intros s0 l Ho Hbi El. unfold handleReset. rewrite Ho.
    destruct (originalBundles s) as [|o rest] eqn:Horig.
    - destruct bundleIndex; discriminate.
    - rewrite Hp, Hbi.
      unfold restored_bundle, rescaled in El. cbv zeta in El |- *.
      rewrite El. reflexivity. }
  exists (recalculatemetrics updated s). split.
  - apply Hreset; auto.
  - rewrite (Hreset (recalculatemetrics updated s) updated); try reflexivity.
    cbn [currentBundles recalculatemetrics]. now apply array_set_same.
Qed.

Lemma reset_idempotent_witness :
  exists s1,
    handleReset (page_of [rates_bundle] 200) 0 = Done s1 /\
    handleReset s1 0 = Done s1.
Proof.
  apply (reset_idempotent (page_of [rates_bundle] 200) 0 rates_bundle).
  - reflexivity.
  - simpl. lia.
Defined.

Lemma handleUpdateBet_keeps (s s' : State) (bi i : nat) (f : Field) (v : R) :
  handleUpdateBet s bi i f v = Done s' ->
  originalBundles s' = originalBundles s /\ budgetInput s' = budgetInput s.
Proof.
  unfold handleUpdateBet.
  destruct (nth_error (currentBundles s) bi) as [bundle|]; [|discriminate].
  destruct f.
  - match goal with |- context [array_set _ _ ?b] => set (bundle1 := b) end.
    destruct (array_set (currentBundles s) bi bundle1); [|discriminate].
    intros [= <-]. split; reflexivity.
  - destruct (nth_error (bets bundle) i); [|discriminate].
    destruct (array_set (bets bundle) i _); [|discriminate].
    match goal with |- context [array_set (currentBundles s) _ ?b] => set (bundle1 := b) end.
    destruct (array_set (currentBundles s) bi bundle1); [|discriminate].
    intros [= <-]. split; reflexivity.
Qed.

Lemma handleReset_keeps (s s' : State) (bi : nat) :
  handleReset s bi = Done s' ->
  originalBundles s' = originalBundles s /\ budgetInput s' = budgetInput s.
Proof.
  unfold handleReset.
  destruct (originalBundles s) as [|o rest] eqn:Horig.
  - intros [= <-]. rewrite Horig. split; reflexivity.
  - destruct (nth_error (o :: rest) bi); [|discriminate].
    match goal with |- context [array_set _ _ ?b] => set (restored1 := b) end.
    destruct (array_set (currentBundles s) bi restored1); [|discriminate].
    intros [= <-]. unfold recalculatemetrics. cbn [originalBundles budgetInput].
    rewrite Horig. split; reflexivity.
Qed.

Lemma reaches_at_budget_keeps (s0 s : State) :
  length (currentBundles s0) = length (originalBundles s0) ->
  reaches_at_budget s0 s ->
  originalBundles s = originalBundles s0 /\
  budgetInput s = budgetInput s0 /\
  length (currentBundles s) = length (originalBundles s).
Proof.
  intros Hlen Hr.
  induction Hr as [| s bi i f v s' _ (IHo & IHb & IHl) Hdone
                   | s bi s' _ (IHo & IHb & IHl) Hdone].
  - auto.
  - destruct (handleUpdateBet_keeps s s' bi i f v Hdone) as (Ho & Hb).
    rewrite Ho, Hb. repeat split; auto.
    rewrite <- Ho. exact (step_keeps_lengths s s' (UpdateBet bi i f v) IHl Hdone).
  - destruct (handleReset_keeps s s' bi Hdone) as (Ho & Hb).
    rewrite Ho, Hb. repeat split; auto.
    rewrite <- Ho. exact (step_keeps_lengths s s' (Reset bi) IHl Hdone).
Qed.

(** X18: a reset undoes the edits.  After the load and any number of
    completed allocation edits, multiplier edits and resets, with no budget
    change among them, the reset of a bundle completes and puts the
    pristine bundle itself back at its index, leaving the other bundles as
    they are, provided the budget of the pristine bundle (100 when it is 0
    or absent) is negative or is what the budget field reads after the
    load. *)
Theorem reset_undoes_edits (parsed : HedgeResponse.t) (s : State)
    (bundleIndex : nat) (pristine : HedgeBundle) :
  reaches_at_budget (load parsed) s ->
  nth_error (HedgeResponse.bundles parsed) bundleIndex = Some pristine ->
  js_or (budget pristine) 100 <= 0 \/
  budget_shown (HedgeResponse.metrics parsed) = js_or (budget pristine) 100 ->
  exists s',
    handleReset s bundleIndex = Done s' /\
    nth_error (currentBundles s') bundleIndex = Some pristine /\
    (forall j, j <> bundleIndex ->
       nth_error (currentBundles s') j = nth_error (currentBundles s) j).
Proof.
  intros Hr Hp Hbudget.
  destruct (reaches_at_budget_keeps (load parsed) s eq_refl Hr) as (Ho & Hb & Hl).
  assert (Hp' : nth_error (originalBundles s) bundleIndex = Some pristine)
    by (rewrite Ho; exact Hp).
  assert (Hi : (bundleIndex < length (currentBundles s))%nat)
    by (rewrite Hl; now apply nth_error_lt in Hp').
  destruct (handleReset_restores s bundleIndex pristine Hp' Hi)
    as (s' & Hdone & Hnth & Hother & _).
  exists s'. split; [exact Hdone|]. split; [|exact Hother].
  rewrite Hnth. f_equal. apply restored_bundle_unscaled.
  rewrite Hb, load_budgetInput.
  destruct Hbudget as [H|H]; [now left | now right].
Qed.

Lemma reset_undoes_edits_witness :
  exists s',
    handleReset (recalculatemetrics [edited proportional_bundle 2 20]
                                    (load loaded_example)) 0 = Done s' /\
    nth_error (currentBundles s') 0 = Some proportional_bundle /\
    (forall j, j <> 0%nat ->
       nth_error (currentBundles s') j
         = nth_error (currentBundles
                        (recalculatemetrics [edited proportional_bundle 2 20]
                                            (load loaded_example))) j).
Proof.
  apply (reset_undoes_edits loaded_example
           (recalculatemetrics [edited proportional_bundle 2 20] (load loaded_example))
           0 proportional_bundle).
  - apply at_budget_edit with (s := load loaded_example) (bundleIndex := 0%nat)
                              (betIndex := 2%nat) (field := Allocation) (value := 20).
    + apply at_budget_refl.
    + reflexivity.
  - reflexivity.
  - right.
    change (budget_shown (HedgeResponse.metrics loaded_example))
      with (js_or (Some (toFixed0 (js_or (Some 100) 0))) 100).
    change (budget proportional_bundle) with (Some 100).
    rewrite (js_or_some 100 0) by lra.
    rewrite (toFixed0_integer 100). reflexivity.
Defined.

(** X19: after a budget change, a reset brings a bundle back to what the
    budget change made of it, not to the pristine bundle.  On a page whose
    working bundles are the pristine ones, change the budget to a positive
    number, then make any number of completed edits and resets; the reset
    of a bundle which records the budget of the first bundle, a positive
    number, completes and puts at its index the bundle that stood there
    right after the budget change. *)
Theorem reset_after_budget_change (s0 s1 s : State) (nb B : R)
    (first : HedgeBundle) (rest : list HedgeBundle)
    (bundleIndex : nat) (pristine : HedgeBundle) :
  originalBundles s0 = currentBundles s0 ->
  currentBundles s0 = first :: rest ->
  budget first = Some B -> 0 < B -> 0 < nb ->
  nth_error (originalBundles s0) bundleIndex = Some pristine ->
  budget pristine = Some B ->
  handleUpdateBudget s0 (Some nb) = Done s1 ->
  reaches_at_budget s1 s ->
  exists s',
    handleReset s bundleIndex = Done s' /\
    nth_error (currentBundles s') bundleIndex
      = nth_error (currentBundles s1) bundleIndex /\
    nth_error (currentBundles s1) bundleIndex
      = Some (rescaled nb (nb / B) pristine).
Proof.
  intros Hsame Hcur HB HBpos Hnb Hp HpB Hchange Hr.
  assert (Hold : js_or (budget first) 100 = B)
    by (rewrite HB; apply js_or_some; lra).
  rewrite (handleUpdateBudget_scales s0 nb first rest Hcur Hnb) in Hchange
    by (rewrite Hold; exact HBpos).
  rewrite Hold in Hchange. injection Hchange as <-.
  set (s1 := recalculatemetrics _ _) in *.
  assert (Hs1 : nth_error (currentBundles s1) bundleIndex
                = Some (rescaled nb (nb / B) pristine)).
  { unfold s1. cbn [currentBundles recalculatemetrics].
    rewrite nth_error_map, <- Hsame, Hp. reflexivity. }
  assert (Hlen1 : length (currentBundles s1) = length (originalBundles s1)).
  { unfold s1. cbn [currentBundles originalBundles recalculatemetrics budget_typed].
    rewrite length_map. now rewrite Hsame. }
  destruct (reaches_at_budget_keeps s1 s Hlen1 Hr) as (Ho & Hb & Hl).
  assert (Hp' : nth_error (originalBundles s) bundleIndex = Some pristine)
    by (rewrite Ho; exact Hp).
  assert (Hi : (bundleIndex < length (currentBundles s))%nat)
    by (rewrite Hl; now apply nth_error_lt in Hp').
  destruct (handleReset_restores s bundleIndex pristine Hp' Hi)
    as (s' & Hdone & Hnth & _).
  exists s'. split; [exact Hdone|]. split; [|exact Hs1].
  rewrite Hnth, Hs1. f_equal.
  unfold restored_bundle. rewrite Hb.
  change (budgetInput s1) with (Some nb).
  rewrite (js_or_some nb 100) by lra.
  rewrite HpB, (js_or_some B 100) by lra.
  destruct (Req_dec_T nb B) as [E|E].
  - subst nb.
    replace (num_neq B B) with false
      by (symmetry; unfold num_neq; destruct (Req_dec_T B B); [reflexivity | contradiction]).
    cbn [andb]. replace (B / B) with 1 by (field; lra).
    symmetry. now apply rescaled_one.
  - apply num_neq_true in E. rewrite E.
    apply num_gt_true in HBpos. rewrite HBpos. reflexivity.
Qed.

Lemma reset_after_budget_change_witness :
  exists s',
    handleReset (recalculatemetrics [rescaled 200 (200 / 100) rates_bundle]
                   (budget_typed (page_of [rates_bundle] 100) (Some 200))) 0
      = Done s' /\
    nth_error (currentBundles s') 0
      = nth_error (currentBundles
                     (recalculatemetrics [rescaled 200 (200 / 100) rates_bundle]
                        (budget_typed (page_of [rates_bundle] 100) (Some 200)))) 0 /\
    nth_error (currentBundles
                 (recalculatemetrics [rescaled 200 (200 / 100) rates_bundle]
                    (budget_typed (page_of [rates_bundle] 100) (Some 200)))) 0
      = Some (rescaled 200 (200 / 100) rates_bundle).
Proof.
  apply (reset_after_budget_change (page_of [rates_bundle] 100)
           (recalculatemetrics [rescaled 200 (200 / 100) rates_bundle]
              (budget_typed (page_of [rates_bundle] 100) (Some 200)))
           (recalculatemetrics [rescaled 200 (200 / 100) rates_bundle]
              (budget_typed (page_of [rates_bundle] 100) (Some 200)))
           200 100 rates_bundle [] 0 rates_bundle).
  - reflexivity.
  - reflexivity.
  - reflexivity.
  - lra.
  - lra.
  - reflexivity.
  - reflexivity.
  - rewrite (handleUpdateBudget_scales (page_of [rates_bundle] 100) 200 rates_bundle []);
      [| reflexivity | lra
       | change (budget rates_bundle) with (Some 100); rewrite js_or_some; lra ].
    change (budget rates_bundle) with (Some 100).
    rewrite (js_or_some 100 100) by lra. reflexivity.
  - apply at_budget_refl.
Defined.

(** ** What the chart shows *)

Lemma fold_left_Rmin_In (l : list R) (x : R) : In (fold_left Rmin l x) (x :: l).
Proof.
  revert x; induction l as [|z l IH]; intros x; simpl; [now left|].
  destruct (IH (Rmin x z)) as [H|H]; [|now right; right].
  rewrite <- H. unfold Rmin. destruct (Rle_dec x z); [now left | now right; left].
Qed.

Lemma fold_left_Rmax_In (l : list R) (x : R) : In (fold_left Rmax l x) (x :: l).
Proof.
  revert x; induction l as [|z l IH]; intros x; simpl; [now left|].
  destruct (IH (Rmax x z)) as [H|H]; [|now right; right].
  rewrite <- H. unfold Rmax. destruct (Rle_dec x z); [now right; left | now left].
Qed.

(** X21: the price axis of the chart.  For a history that is not empty the
    axis starts at max(0, lo - 0.05) and ends at min(1, hi + 0.05), where
    lo is the least and hi the greatest price of the history.  When the
    prices lie between 0 and 1, 0 <= minPrice < maxPrice <= 1 and every
    price lies on the axis. *)
Theorem price_axis (prices : list R) :
  prices <> [] ->
  exists lo hi,
    In lo prices /\ In hi prices /\
    (forall p, In p prices -> lo <= p <= hi) /\
    minPrice prices = Rmax 0 (lo - 5/100) /\
    maxPrice prices = Rmin 1 (hi + 5/100) /\
    ((forall p, In p prices -> 0 <= p <= 1) ->
     0 <= minPrice prices /\ maxPrice prices <= 1 /\
     minPrice prices < maxPrice prices /\
     forall p, In p prices -> minPrice prices <= p <= maxPrice prices).
Proof.
  intros Hne.
  destruct prices as [|x l]; [contradiction|].
  set (prices := x :: l) in *.
  assert (Hx : In x prices) by now left.
  exists (math_min prices), (math_max prices).
  assert (Hlo : In (math_min prices) prices) by apply fold_left_Rmin_In.
  assert (Hhi : In (math_max prices) prices) by apply fold_left_Rmax_In.
  assert (Hlow : forall p, In p prices -> math_min prices <= p)
    by (intros p; apply math_min_le).
  assert (Hhigh : forall p, In p prices -> p <= math_max prices)
    by (intros p; apply math_max_ge).
  split; [exact Hlo|]. split; [exact Hhi|].
  split; [intros p Hp; split; [now apply Hlow | now apply Hhigh]|].
  split; [reflexivity|]. split; [reflexivity|].
  intros Hp.
  pose proof (Hp _ Hlo) as Hlo01. pose proof (Hp _ Hhi) as Hhi01.
  pose proof (Hlow _ Hhi) as Hlohi.
  unfold minPrice, maxPrice.
  split; [apply Rmax_l|]. split; [apply Rmin_l|]. split.
  - unfold Rmax, Rmin.
    destruct (Rle_dec 0 (math_min prices - 5/100));
      destruct (Rle_dec 1 (math_max prices + 5/100)); lra.
  - intros p Hin. pose proof (Hlow p Hin). pose proof (Hhigh p Hin).
    pose proof (Hp p Hin).
    unfold Rmax, Rmin.
    destruct (Rle_dec 0 (math_min prices - 5/100));
      destruct (Rle_dec 1 (math_max prices + 5/100)); lra.
Qed.

Lemma price_axis_witness :
  exists lo hi,
    In lo [3/10; 1/2; 4/10] /\ In hi [3/10; 1/2; 4/10] /\
    (forall p, In p [3/10; 1/2; 4/10] -> lo <= p <= hi) /\
    minPrice [3/10; 1/2; 4/10] = Rmax 0 (lo - 5/100) /\
    maxPrice [3/10; 1/2; 4/10] = Rmin 1 (hi + 5/100) /\
    ((forall p, In p [3/10; 1/2; 4/10] -> 0 <= p <= 1) ->
     0 <= minPrice [3/10; 1/2; 4/10] /\ maxPrice [3/10; 1/2; 4/10] <= 1 /\
     minPrice [3/10; 1/2; 4/10] < maxPrice [3/10; 1/2; 4/10] /\
     forall p, In p [3/10; 1/2; 4/10] ->
       minPrice [3/10; 1/2; 4/10] <= p <= maxPrice [3/10; 1/2; 4/10]).
Proof.
  apply (price_axis [3/10; 1/2; 4/10]). discriminate.
Defined.

(** ** The risk score of a bundle of one bet *)

(** X23: the risk score of a bundle of one bet does not depend on the
    allocation as long as it is positive: it is 0.7 * min(400 *
    sqrt(p (1 - p)), 100) + 0.3 * (1 - 2 |p - 0.5|) * 100 for the price p
    of the bet, 0.5 standing for a price that is 0 or absent.  It is 100
    at the price 0.5 or without a price, and 0 at the price 1. *)
Theorem single_bet_risk_score (bet : HedgeBet) :
  0 < allocation bet ->
  calculateRiskScore [bet]
    = 7/10 * Rmin (sqrt (price bet * (1 - price bet)) * 400) 100
      + 3/10 * ((1 - Rabs (price bet - 1/2) * 2) * 100) /\
  (price bet = 1/2 -> calculateRiskScore [bet] = 100) /\
  (price bet = 1 -> calculateRiskScore [bet] = 0).
Proof.
  intros Ha.
  assert (E : calculateRiskScore [bet]
              = 7/10 * Rmin (sqrt (price bet * (1 - price bet)) * 400) 100
                + 3/10 * ((1 - Rabs (price bet - 1/2) * 2) * 100)).
  { rewrite calculateRiskScore_eq. unfold score_bundle_risk. cbv zeta.
    cbn [map Rsum fold_right length].
    destruct (Rle_dec (allocation bet + 0) 0) as [H|_]; [lra|].
    change (INR 1) with 1.
    replace (allocation bet / (allocation bet + 0) * (allocation bet / (allocation bet + 0))
             * price bet * (1 - price bet) + 0)
      with (price bet * (1 - price bet)) by (field; lra).
    replace ((Rabs (price bet - 1 / 2) + 0) / 1) with (Rabs (price bet - 1/2))
      by (field; lra).
    reflexivity. }
  split; [exact E|]. split; intros Hp; rewrite E, Hp.
  - replace (1 / 2 * (1 - 1 / 2)) with ((1/2) * (1/2)) by lra.
    rewrite sqrt_square by lra.
    replace (1 / 2 - 1 / 2) with 0 by lra. rewrite Rabs_R0.
    unfold Rmin. destruct (Rle_dec (1 / 2 * 400) 100); lra.
  - replace (1 * (1 - 1)) with 0 by lra. rewrite sqrt_0.
    replace (1 - 1 / 2) with (1/2) by lra.
    rewrite (Rabs_right (1/2)) by lra.
    unfold Rmin. destruct (Rle_dec (0 * 400) 100); lra.
Qed.

Lemma single_bet_risk_score_witness :
  calculateRiskScore [bet_of 50 2]
    = 7/10 * Rmin (sqrt (price (bet_of 50 2) * (1 - price (bet_of 50 2))) * 400) 100
      + 3/10 * ((1 - Rabs (price (bet_of 50 2) - 1/2) * 2) * 100) /\
  (price (bet_of 50 2) = 1/2 -> calculateRiskScore [bet_of 50 2] = 100) /\
  (price (bet_of 50 2) = 1 -> calculateRiskScore [bet_of 50 2] = 0).
Proof.
  apply (single_bet_risk_score (bet_of 50 2)). simpl. lra.
Defined.

(** ** The metrics follow the bundles *)

Lemma handleUpdateBudget_cases (s : State) (newBudget : option R) :
  handleUpdateBudget s newBudget = Done (budget_typed s newBudget) \/
  exists updated,
    handleUpdateBudget s newBudget
      = Done (recalculatemetrics updated (budget_typed s newBudget)).
Proof.
  unfold handleUpdateBudget, budget_typed.
  destruct (currentBundles s) as [|first rest]; [now left|].
  destruct newBudget as [nb|]; [|now left].
  destruct (num_le nb 0); [now left|].
  destruct (num_le (js_or (budget first) 100) 0); [now left|].
  right. eexists. reflexivity.
Qed.

(** X24: no trigger changes the working bundles without computing the
    metrics anew.  After a completed trigger the metrics of the page are
    those of its working bundles as soon as the trigger has changed a
    bundle, or was an edit, or the metrics were those of the bundles before
    it; in every case they are either the metrics that stood before the
    trigger or those of the working bundles. *)
Theorem metrics_follow_bundles (s s' : State) (t : Trigger) :
  step s t = Done s' ->
  (metrics s = Some (calculatePortfolioMetrics (currentBundles s)) ->
   metrics s' = Some (calculatePortfolioMetrics (currentBundles s'))) /\
  (currentBundles s' <> currentBundles s ->
   metrics s' = Some (calculatePortfolioMetrics (currentBundles s'))) /\
  (forall bi i f v, t = UpdateBet bi i f v ->
   metrics s' = Some (calculatePortfolioMetrics (currentBundles s'))) /\
  (metrics s' = metrics s \/
   metrics s' = Some (calculatePortfolioMetrics (currentBundles s'))).
Proof.
  destruct t as [bi i f v | nb | bi]; simpl.
  - unfold handleUpdateBet.
    destruct (nth_error (currentBundles s) bi) as [bundle|]; [|discriminate].
    destruct f.
    + match goal with |- context [array_set _ _ ?b] => set (bundle1 := b) end.
      destruct (array_set (currentBundles s) bi bundle1); [|discriminate].
      intros [= <-]. repeat split; auto.
    + destruct (nth_error (bets bundle) i); [|discriminate].
      destruct (array_set (bets bundle) i _); [|discriminate].
      match goal with |- context [array_set (currentBundles s) _ ?b] => set (bundle1 := b) end.
      destruct (array_set (currentBundles s) bi bundle1); [|discriminate].
      intros [= <-]. repeat split; auto.
  - destruct (handleUpdateBudget_cases s nb) as [E | (updated & E)];
      rewrite E; intros [= <-].
    + cbn [metrics currentBundles budget_typed].
      repeat split; auto; try discriminate. intros H. now contradiction H.
    + repeat split; auto; discriminate.
  - unfold handleReset.
    destruct (originalBundles s) as [|o rest].
    + intros [= <-]. repeat split; auto; try discriminate.
      intros H. now contradiction H.
    + destruct (nth_error (o :: rest) bi); [|discriminate].
      match goal with |- context [array_set _ _ ?b] => set (restored1 := b) end.
      destruct (array_set (currentBundles s) bi restored1); [|discriminate].
      intros [= <-]. repeat split; auto; discriminate.
Qed.

Lemma metrics_follow_bundles_witness :
  let s := load fractional_response in
  let s' := recalculatemetrics [edited fractional_bundle 0 50] s in
  (metrics s = Some (calculatePortfolioMetrics (currentBundles s)) ->
   metrics s' = Some (calculatePortfolioMetrics (currentBundles s'))) /\
  (currentBundles s' <> currentBundles s ->
   metrics s' = Some (calculatePortfolioMetrics (currentBundles s'))) /\
  (forall bi i f v, UpdateBet 0 0 Allocation 50 = UpdateBet bi i f v ->
   metrics s' = Some (calculatePortfolioMetrics (currentBundles s'))) /\
  (metrics s' = metrics s \/
   metrics s' = Some (calculatePortfolioMetrics (currentBundles s'))).
Proof.
  apply (metrics_follow_bundles (load fractional_response)
           (recalculatemetrics [edited fractional_bundle 0 50] (load fractional_response))
           (UpdateBet 0 0 Allocation 50)).
  reflexivity.
Defined.

(** * The engine in binary64 *)

(** ** The handlers run on doubles *)

(** C1, counterexample.  A bundle whose recorded budget is 0, with the
    allocations [70, 30], is edited with the budget 100: after the edit of
    bet 0 to 50 the allocations are [50, 50] and [total_allocated] is 100,
    and the recorded budget is still 0.  And on a bundle with the budget
    1e12 and the allocations 1e11, 2e11, 3e11 and 4e11, the edit of the
    first bet to 5e11 leaves allocations whose sum, taken as the code takes
    it, is 999999999999.9999: it misses the budget by more than 1e-4. *)
Lemma sum_equals_budget_counterexample :
  (exists s' bundle',
     Js.handleUpdateBet (double_page [budget_zero_bundle] 100%float) 0 0 Allocation 50%float
       = Js.Done s' /\
     nth_error (Js.currentBundles s') 0 = Some bundle' /\
     Js.budget bundle' = Some 0%float /\
     map Js.allocation (Js.bets bundle') = [50%float; 50%float] /\
     Js.total_allocated bundle' = 100%float) /\
  (exists s' bundle',
     Js.handleUpdateBet (double_page [large_bundle] 1e12%float) 0 0 Allocation 5e11%float
       = Js.Done s' /\
     nth_error (Js.currentBundles s') 0 = Some bundle' /\
     Js.budget bundle' = Some 1e12%float /\
     double_sum bundle' = 999999999999.9999%float /\
     (1e-4 <? PrimFloat.abs (double_sum bundle' - 1e12))%float = true) /\
  ~ sum_equals_budget_as_stated /\
  ~ sum_within_tolerance_as_stated.
Proof.
  split; [|split; [|split]].
  - destruct (Js.handleUpdateBet (double_page [budget_zero_bundle] 100%float) 0 0
                Allocation 50%float) as [s'| |] eqn:E; vm_compute in E; try discriminate.
    injection E as <-.
    eexists. eexists. split; [reflexivity|]. split; [reflexivity|].
    split; [reflexivity|]. split; vm_compute; reflexivity.
  - destruct (Js.handleUpdateBet (double_page [large_bundle] 1e12%float) 0 0
                Allocation 5e11%float) as [s'| |] eqn:E; vm_compute in E; try discriminate.
    injection E as <-.
    eexists. eexists. split; [reflexivity|]. split; [reflexivity|].
    split; [reflexivity|]. split; vm_compute; reflexivity.
  - intros H.
    specialize (H (double_page [budget_zero_bundle] 100%float) 0%nat 0%nat 50%float).
    destruct (Js.handleUpdateBet (double_page [budget_zero_bundle] 100%float) 0 0
                Allocation 50%float) as [s'| |] eqn:E; vm_compute in E; try discriminate.
    injection E as <-.
    destruct (H _ _ 0%float eq_refl eq_refl eq_refl) as [Hsum _].
    vm_compute in Hsum. discriminate.
  - intros H.
    specialize (H (double_page [large_bundle] 1e12%float) 0%nat 0%nat 5e11%float
                  large_bundle).
    destruct (Js.handleUpdateBet (double_page [large_bundle] 1e12%float) 0 0
                Allocation 5e11%float) as [s'| |] eqn:E; vm_compute in E; try discriminate.
    injection E as <-.
    specialize (H _ _ 1e12%float eq_refl ltac:(simpl; lia) ltac:(simpl; lia)
                  eq_refl eq_refl eq_refl eq_refl).
    vm_compute in H. discriminate.
Qed.

(** What the edit does to a bundle of one bet: nothing takes the rest.  A
    bet that holds 100 of the budget 100 holds 40 after the edit to 40,
    while [total_allocated] is set to the budget. *)
Lemma single_bet_edit :
  exists s' bundle',
    Js.handleUpdateBet (double_page [hundred_bundle] 100%float) 0 0 Allocation 40%float
      = Js.Done s' /\
    nth_error (Js.currentBundles s') 0 = Some bundle' /\
    Js.budget bundle' = Some 100%float /\
    map Js.allocation (Js.bets bundle') = [40%float] /\
    Js.total_allocated bundle' = 100%float.
Proof.
  destruct (Js.handleUpdateBet (double_page [hundred_bundle] 100%float) 0 0
              Allocation 40%float) as [s'| |] eqn:E; vm_compute in E; try discriminate.
  injection E as <-.
  eexists. eexists. split; [reflexivity|]. split; [reflexivity|].
  split; [reflexivity|]. split; vm_compute; reflexivity.
Qed.

(** C2, counterexample: a page loads a bundle whose first bet holds 660000
    at the multiplier 8.2, with the payout 660000 * 8.2 as the doubles give
    it, and the budget is changed from 1e6 to 7e6.  The bet then holds
    4620000 and the payout 37883999.99999999, where 4620000 * 8.2 is
    37884000: they differ by more than 7e-9. *)
Lemma payout_consistency_counterexample :
  (exists s' bundle' bet',
     Js.handleUpdateBudget (double_page [priced_bundle] 1e6%float) (Some 7e6%float)
       = Js.Done s' /\
     nth_error (Js.currentBundles s') 0 = Some bundle' /\
     nth_error (Js.bets bundle') 0 = Some bet' /\
     Js.allocation bet' = 4620000%float /\
     Js.payout_multiplier bet' = 8.2%float /\
     Js.potential_payout bet' = 37883999.99999999%float /\
     (Js.allocation bet' * Js.payout_multiplier bet')%float = 37884000%float /\
     (7e-9 <? PrimFloat.abs (Js.potential_payout bet'
                             - Js.allocation bet' * Js.payout_multiplier bet'))%float
     = true) /\
  ~ payout_consistency_as_stated.
Proof.
  split.
  - destruct (Js.handleUpdateBudget (double_page [priced_bundle] 1e6%float)
                (Some 7e6%float)) as [s'| |] eqn:E; vm_compute in E; try discriminate.
    injection E as <-.
    eexists. eexists. eexists. split; [reflexivity|]. split; [reflexivity|].
    split; [reflexivity|]. repeat split; vm_compute; reflexivity.
  - intros H.
    specialize (H (double_page [priced_bundle] 1e6%float)
                  (Js.UpdateBudget (Some 7e6%float))).
    cbn [Js.step] in H.
    destruct (Js.handleUpdateBudget (double_page [priced_bundle] 1e6%float)
                (Some 7e6%float)) as [s'| |] eqn:E; vm_compute in E; try discriminate.
    injection E as <-.
    assert (Hloaded : forall bundle bet,
              In bundle (Js.currentBundles (double_page [priced_bundle] 1e6%float)) ->
              In bet (Js.bets bundle) ->
              Js.potential_payout bet
                = (Js.allocation bet * Js.payout_multiplier bet)%float).
    { intros bundle bet [<-|[]] [<-|[<-|[]]]; reflexivity. }
    specialize (H _ eq_refl Hloaded eq_refl _ _ (or_introl eq_refl) (or_introl eq_refl)).
    vm_compute in H. discriminate.
Qed.

(** C4, counterexample.  Of two bundles with the budgets 100 and 50, the
    second holds 50 of 50 in its one bet; the budget 200 scales by
    200 / 100, and the bet holds 100 of 200: the ratio went from 1 to 0.5.
    And a page shows a bundle with the budget 100 whose first bet holds
    0.1, and the budget is changed to 300: the bet then holds
    0.30000000000000004, which is 0.0010000000000000002 of the budget,
    where it was 0.001 of it before. *)
Lemma trigger_b_counterexample :
  (exists s' bundle' bet',
     Js.handleUpdateBudget (double_page [hundred_bundle; half_bundle] 100%float)
                           (Some 200%float) = Js.Done s' /\
     nth_error (Js.currentBundles s') 1 = Some bundle' /\
     Js.budget bundle' = Some 200%float /\
     Js.bets bundle' = [bet'] /\
     Js.allocation bet' = 100%float /\
     (Js.allocation bet' / 200)%float = 0.5%float /\
     (50 / 50)%float = 1%float) /\
  (exists s' bundle' bet',
     Js.handleUpdateBudget (double_page [tenth_bundle] 100%float) (Some 300%float)
       = Js.Done s' /\
     nth_error (Js.currentBundles s') 0 = Some bundle' /\
     nth_error (Js.bets bundle') 0 = Some bet' /\
     Js.allocation bet' = 0.30000000000000004%float /\
     (Js.allocation bet' / 300)%float = 0.0010000000000000002%float /\
     (0.1 / 100)%float = 0.001%float) /\
  ~ trigger_b_as_stated /\
  ~ trigger_b_shared_budget_as_stated.
Proof.
  split; [|split; [|split]].
  - destruct (Js.handleUpdateBudget (double_page [hundred_bundle; half_bundle] 100%float)
                (Some 200%float)) as [s'| |] eqn:E; vm_compute in E; try discriminate.
    injection E as <-.
    eexists. eexists. eexists. split; [reflexivity|]. split; [reflexivity|].
    split; [reflexivity|]. split; [reflexivity|]. repeat split; vm_compute; reflexivity.
  - destruct (Js.handleUpdateBudget (double_page [tenth_bundle] 100%float)
                (Some 300%float)) as [s'| |] eqn:E; vm_compute in E; try discriminate.
    injection E as <-.
    eexists. eexists. eexists. split; [reflexivity|]. split; [reflexivity|].
    split; [reflexivity|]. repeat split; vm_compute; reflexivity.
  - intros H.
    specialize (H (double_page [hundred_bundle; half_bundle] 100%float) 200%float
                  hundred_bundle [half_bundle] 100%float).
    destruct (Js.handleUpdateBudget (double_page [hundred_bundle; half_bundle] 100%float)
                (Some 200%float)) as [s'| |] eqn:E; vm_compute in E; try discriminate.
    injection E as <-.
    specialize (H _ eq_refl eq_refl eq_refl eq_refl eq_refl
                  1%nat _ _ 50%float 200%float 0%nat _ _
                  eq_refl eq_refl eq_refl eq_refl eq_refl eq_refl).
    vm_compute in H. discriminate.
  - intros H.
    specialize (H (double_page [tenth_bundle] 100%float) 300%float tenth_bundle []
                  100%float).
    destruct (Js.handleUpdateBudget (double_page [tenth_bundle] 100%float)
                (Some 300%float)) as [s'| |] eqn:E; vm_compute in E; try discriminate.
    injection E as <-.
    specialize (H _ eq_refl eq_refl eq_refl eq_refl eq_refl
                  0%nat _ _ 0%nat _ _ eq_refl eq_refl eq_refl eq_refl eq_refl).
    vm_compute in H. discriminate.
Qed.

(** C6, counterexample: a page shows one bundle of one bet, with the budget
    100, the allocation 100 and the price 0.5, and the budget is changed to
    200.  The bet then holds 200 and the bundle still records 100 as its
    [total_allocated]; the risk score of the bundle is 100, and the overall
    risk score that the metrics report is 100 * 200 / 100 = 200, where the
    mean of the one risk score is 100, whether the bundle is taken to
    allocate the sum of its bets or what it records. *)
Lemma weighted_mean_counterexample :
  (exists s' m bundle',
     Js.handleUpdateBudget (double_page [hundred_bundle] 100%float) (Some 200%float)
       = Js.Done s' /\
     Js.metrics s' = Some m /\
     Js.currentBundles s' = [bundle'] /\
     double_sum bundle' = 200%float /\
     Js.total_allocated bundle' = 100%float /\
     Js.calculateRiskScore (Js.bets bundle') = 100%float /\
     Js.PortfolioMetrics.overall_risk_score m = 200%float) /\
  ~ weighted_mean_as_stated double_sum /\
  ~ weighted_mean_as_stated Js.total_allocated.
Proof.
  destruct (Js.handleUpdateBudget (double_page [hundred_bundle] 100%float)
              (Some 200%float)) as [s'| |] eqn:E; vm_compute in E; try discriminate.
  injection E as <-.
  split; [|split].
  - eexists. eexists. eexists. split; [reflexivity|]. split; [reflexivity|].
    split; [reflexivity|]. repeat split; vm_compute; reflexivity.
  - intros H.
    specialize (H [Js.rescaled 200%float (200 / 100)%float hundred_bundle]).
    vm_compute in H. discriminate.
  - intros H.
    specialize (H [Js.rescaled 200%float (200 / 100)%float hundred_bundle]).
    vm_compute in H. discriminate.
Qed.

(** On the three pages above the doubles stay within the relative bounds
    that the last part proves of rounded numbers: the sum of the four
    allocations is within 4 * 2^-48 of the budget 1e12, the payout within
    2^-50 of the allocation times the multiplier, and the ratio of the
    allocation to the budget within 2^-50 of what it was. *)
Lemma samples_within_bounds :
  (exists s' bundle',
     Js.handleUpdateBet (double_page [large_bundle] 1e12%float) 0 0 Allocation 5e11%float
       = Js.Done s' /\
     nth_error (Js.currentBundles s') 0 = Some bundle' /\
     (PrimFloat.abs (double_sum bundle' - 1e12) <=? 4 * (1 / 0x1p48) * 1e12)%float
     = true) /\
  (exists s' bundle' bet',
     Js.handleUpdateBudget (double_page [priced_bundle] 1e6%float) (Some 7e6%float)
       = Js.Done s' /\
     nth_error (Js.currentBundles s') 0 = Some bundle' /\
     nth_error (Js.bets bundle') 0 = Some bet' /\
     (PrimFloat.abs (Js.potential_payout bet'
                     - Js.allocation bet' * Js.payout_multiplier bet')
      <=? (1 / 0x1p50) * (Js.allocation bet' * Js.payout_multiplier bet'))%float
     = true) /\
  (exists s' bundle' bet',
     Js.handleUpdateBudget (double_page [tenth_bundle] 100%float) (Some 300%float)
       = Js.Done s' /\
     nth_error (Js.currentBundles s') 0 = Some bundle' /\
     nth_error (Js.bets bundle') 0 = Some bet' /\
     (PrimFloat.abs (Js.allocation bet' / 300 - 0.1 / 100)
      <=? (1 / 0x1p50) * (0.1 / 100))%float = true).
Proof.
  split; [|split].
  - destruct (Js.handleUpdateBet (double_page [large_bundle] 1e12%float) 0 0
                Allocation 5e11%float) as [s'| |] eqn:E; vm_compute in E; try discriminate.
    injection E as <-.
    eexists. eexists. split; [reflexivity|]. split; [reflexivity|].
    vm_compute; reflexivity.
  - destruct (Js.handleUpdateBudget (double_page [priced_bundle] 1e6%float)
                (Some 7e6%float)) as [s'| |] eqn:E; vm_compute in E; try discriminate.
    injection E as <-.
    eexists. eexists. eexists. split; [reflexivity|]. split; [reflexivity|].
    split; [reflexivity|]. vm_compute; reflexivity.
  - destruct (Js.handleUpdateBudget (double_page [tenth_bundle] 100%float)
                (Some 300%float)) as [s'| |] eqn:E; vm_compute in E; try discriminate.
    injection E as <-.
    eexists. eexists. eexists. split; [reflexivity|]. split; [reflexivity|].
    split; [reflexivity|]. vm_compute; reflexivity.
Qed.

(** * The engine over any numbers *)

(** ** What the handlers store *)

Section Handlers.

Context {num : Type} {N : Js.Number num}.

Lemma js_allocation_edit (s : Js.State num) (bundleIndex betIndex : nat)
    (value : num) (bundle : Js.HedgeBundle num) :
  nth_error (Js.currentBundles s) bundleIndex = Some bundle ->
  exists updated,
    array_set (Js.currentBundles s) bundleIndex (Js.edited bundle betIndex value)
      = Some updated /\
    Js.handleUpdateBet s bundleIndex betIndex Allocation value
      = Js.Done (Js.recalculatemetrics updated s) /\
    nth_error updated bundleIndex = Some (Js.edited bundle betIndex value) /\
    (forall j, j <> bundleIndex ->
       nth_error updated j = nth_error (Js.currentBundles s) j).
Proof.
  intros Hb.
  destruct (array_set_in (Js.currentBundles s) bundleIndex
              (Js.edited bundle betIndex value) (nth_error_lt _ _ _ Hb))
    as (updated & E & _ & Hnth & Hother).
  exists updated. split; [exact E|]. split; [|split; assumption].
  unfold Js.handleUpdateBet. rewrite Hb.
  unfold Js.edited, Js.share_of, not_target in E. cbv zeta in E |- *.
  rewrite E. reflexivity.
Qed.

Lemma js_edited_bets (bundle : Js.HedgeBundle num) (betIndex : nat) (value : num)
    (bet' : Js.HedgeBet num) :
  In bet' (Js.bets (Js.edited bundle betIndex value)) ->
  exists a bet, In bet (Js.bets bundle) /\ bet' = Js.allocate a bet.
Proof.
  unfold Js.edited; cbn [Js.bets]. unfold mapi. intros Hin.
  apply mapi_from_In in Hin. destruct Hin as (bet & idx & Hbet & ->).
  destruct (idx =? betIndex)%nat; eauto.
Qed.

Lemma js_handleUpdateBudget_scales (s : Js.State num) (nb : num)
    (first : Js.HedgeBundle num) (rest : list (Js.HedgeBundle num)) :
  Js.currentBundles s = first :: rest ->
  Js.isNaN nb = false -> Js.le nb (Js.lit 0) = false ->
  Js.le (Js.js_or (Js.budget first) (Js.lit 100)) (Js.lit 0) = false ->
  Js.handleUpdateBudget s (Some nb) =
    Js.Done (Js.recalculatemetrics
               (map (Js.rescaled nb (Js.div nb (Js.js_or (Js.budget first) (Js.lit 100))))
                    (Js.currentBundles s))
               (Js.budget_typed s (Some nb))).
Proof.
  intros Hcur Hnan Hnb Hold. unfold Js.handleUpdateBudget. rewrite Hcur.
  rewrite Hnan, Hnb, Hold. reflexivity.
Qed.

Lemma js_handleUpdateBudget_cases (s : Js.State num) (newBudget : option num) :
  Js.handleUpdateBudget s newBudget = Js.Done (Js.budget_typed s newBudget) \/
  exists nb scale,
    newBudget = Some nb /\
    Js.handleUpdateBudget s newBudget
      = Js.Done (Js.recalculatemetrics
                   (map (Js.rescaled nb scale) (Js.currentBundles s))
                   (Js.budget_typed s newBudget)).
Proof.
  unfold Js.handleUpdateBudget, Js.budget_typed.
  destruct (Js.currentBundles s) as [|first rest]; [now left|].
  destruct newBudget as [nb|]; [|now left].
  destruct (Js.isNaN nb || Js.le nb (Js.lit 0)); [now left|].
  destruct (Js.le (Js.js_or (Js.budget first) (Js.lit 100)) (Js.lit 0)); [now left|].
  right. eexists. eexists. split; reflexivity.
Qed.

Lemma js_handleReset_cases (s s' : Js.State num) (bundleIndex : nat) :
  Js.handleReset s bundleIndex = Js.Done s' ->
  s' = s \/
  exists pristine updated,
    nth_error (Js.originalBundles s) bundleIndex = Some pristine /\
    array_set (Js.currentBundles s) bundleIndex (Js.restored_bundle s pristine)
      = Some updated /\
    s' = Js.recalculatemetrics updated s.
Proof.
  unfold Js.handleReset.
  destruct (Js.originalBundles s) as [|o rest] eqn:Horig; [intros [= <-]; now left|].
  destruct (nth_error (o :: rest) bundleIndex) as [pristine|]; [|discriminate].
  intros Hdone. right. exists pristine.
  unfold Js.restored_bundle, Js.rescaled. cbv zeta in Hdone |- *.
  destruct (array_set (Js.currentBundles s) bundleIndex _) as [updated|];
    [|discriminate].
  injection Hdone as <-. exists updated. split; [reflexivity|]. split; reflexivity.
Qed.

Lemma kept_working (s : Js.State num) (bundle : Js.HedgeBundle num)
    (bet : Js.HedgeBet num) :
  In bundle (Js.currentBundles s) -> In bet (Js.bets bundle) -> kept s bet.
Proof. intros Hb Hbet. exists bundle. split; [apply in_or_app; now right | exact Hbet]. Qed.

Lemma kept_pristine (s : Js.State num) (bundle : Js.HedgeBundle num)
    (bet : Js.HedgeBet num) :
  In bundle (Js.originalBundles s) -> In bet (Js.bets bundle) -> kept s bet.
Proof. intros Hb Hbet. exists bundle. split; [apply in_or_app; now left | exact Hbet]. Qed.

(** Every trigger that completes leaves the pristine bundles alone, and
    every bet of the working bundles is kept, computed or scaled. *)
Lemma js_step_bets (s s' : Js.State num) (t : Js.Trigger num) :
  Js.step s t = Js.Done s' ->
  Js.originalBundles s' = Js.originalBundles s /\
  forall bundle' bet',
    In bundle' (Js.currentBundles s') -> In bet' (Js.bets bundle') ->
    kept s bet' \/ computed bet' \/ scaled s bet'.
Proof.
  destruct t as [bi i f v | nb | bi]; cbn [Js.step].
  - unfold Js.handleUpdateBet.
    destruct (nth_error (Js.currentBundles s) bi) as [bundle|] eqn:Hb; [|discriminate].
    destruct f.
    + destruct (js_allocation_edit s bi i v bundle Hb) as (updated & E & Hdone & _).
      unfold Js.handleUpdateBet in Hdone. rewrite Hb in Hdone. rewrite Hdone.
      intros [= <-]. split; [reflexivity|].
      cbn [Js.currentBundles Js.recalculatemetrics]. intros bundle' bet' Hin Hbet.
      destruct (array_set_elements _ _ _ _ _ E Hin) as [->|Hold].
      * right. left.
        destruct (js_edited_bets bundle i v bet' Hbet) as (a & bet & _ & ->).
        reflexivity.
      * left. now apply (kept_working s bundle').
    + destruct (nth_error (Js.bets bundle) i) as [target|] eqn:Ht; [|discriminate].
      match goal with |- context [array_set (Js.bets bundle) _ ?b] => set (target1 := b) end.
      destruct (array_set (Js.bets bundle) i target1) as [bets1|] eqn:E1; [|discriminate].
      match goal with |- context [array_set (Js.currentBundles s) _ ?b] =>
        set (bundle1 := b) end.
      destruct (array_set (Js.currentBundles s) bi bundle1) as [updated|] eqn:E;
        [|discriminate].
      intros [= <-]. split; [reflexivity|].
      cbn [Js.currentBundles Js.recalculatemetrics]. intros bundle' bet' Hin Hbet.
      destruct (array_set_elements _ _ _ _ _ E Hin) as [->|Hold].
      * unfold bundle1 in Hbet; cbn [Js.bets] in Hbet.
        destruct (array_set_elements _ _ _ _ _ E1 Hbet) as [->|Hold].
        -- right. left. reflexivity.
        -- left. apply (kept_working s bundle); [|exact Hold].
           now apply nth_error_In in Hb.
      * left. now apply (kept_working s bundle').
  - destruct (js_handleUpdateBudget_cases s nb) as [E | (v & scale & -> & E)];
      rewrite E; intros [= <-]; (split; [reflexivity|]);
      cbn [Js.currentBundles Js.recalculatemetrics Js.budget_typed];
      intros bundle' bet' Hin Hbet.
    + left. now apply (kept_working s bundle').
    + right. right.
      apply in_map_iff in Hin. destruct Hin as (bundle & <- & Hin).
      cbn [Js.bets Js.rescaled] in Hbet.
      apply in_map_iff in Hbet. destruct Hbet as (bet & <- & Hbet).
      exists scale, bet. split; [|reflexivity].
      now apply (kept_working s bundle).
  - intros Hdone.
    destruct (js_handleReset_cases s s' bi Hdone)
      as [-> | (pristine & updated & Hp & E & ->)].
    + split; [reflexivity|]. intros bundle' bet' Hin Hbet.
      left. now apply (kept_working s bundle').
    + split; [reflexivity|].
      cbn [Js.currentBundles Js.recalculatemetrics]. intros bundle' bet' Hin Hbet.
      destruct (array_set_elements _ _ _ _ _ E Hin) as [->|Hold].
      * apply nth_error_In in Hp.
        unfold Js.restored_bundle in Hbet. cbv zeta in Hbet.
        destruct (negb _ && _).
        -- right. right. cbn [Js.bets Js.rescaled] in Hbet.
           apply in_map_iff in Hbet. destruct Hbet as (bet & <- & Hbet).
           eexists. exists bet. split; [|reflexivity].
           now apply (kept_pristine s pristine).
        -- left. now apply (kept_pristine s pristine).
      * left. now apply (kept_working s bundle').
Qed.

(** ** The metrics of the portfolio *)

Lemma js_bundle_risk_score (bundle : Js.HedgeBundle num) :
  Js.BundleMetrics.risk_score (Js.calculateBundleMetrics bundle)
  = Js.calculateRiskScore (Js.bets bundle).
Proof.
  unfold Js.calculateBundleMetrics. destruct (Js.bets bundle); reflexivity.
Qed.

Lemma js_bundle_total_allocation (bundle : Js.HedgeBundle num) :
  Js.BundleMetrics.total_allocation (Js.calculateBundleMetrics bundle)
  = fold_left (fun sum bet => Js.add sum (Js.allocation bet)) (Js.bets bundle)
              (Js.lit 0).
Proof.
  unfold Js.calculateBundleMetrics. destruct (Js.bets bundle); reflexivity.
Qed.

Lemma js_risk_weight (bundles : list (Js.HedgeBundle num)) (acc : num) :
  fold_left (fun sum m =>
               Js.add sum (Js.mul (Js.BundleMetrics.risk_score m)
                                  (Js.BundleMetrics.total_allocation m)))
            (map Js.calculateBundleMetrics bundles) acc
  = fold_left (fun sum b =>
                 Js.add sum
                   (Js.mul (Js.calculateRiskScore (Js.bets b))
                      (fold_left (fun sum bet => Js.add sum (Js.allocation bet))
                                 (Js.bets b) (Js.lit 0))))
              bundles acc.
Proof.
  revert acc; induction bundles as [|b l IH]; intros acc; [reflexivity|].
  cbn [map fold_left].
  rewrite js_bundle_risk_score, js_bundle_total_allocation. apply IH.
Qed.

Lemma js_fold_left_ext {A : Type} (f g : A -> num) (l : list A) (acc : num) :
  (forall x, In x l -> f x = g x) ->
  fold_left (fun sum x => Js.add sum (f x)) l acc
  = fold_left (fun sum x => Js.add sum (g x)) l acc.
Proof.
  revert acc; induction l as [|x l IH]; intros acc H; [reflexivity|].
  cbn [fold_left]. rewrite (H x) by now left.
  apply IH. intros y Hy. apply H. now right.
Qed.

(** C6, as amended: in whatever numbers the engine runs, the portfolio
    reports as [total_allocated] the sum [T] of the [total_allocated]
    fields that the bundles record, added up from 0 in the order of the
    bundles, and as [total_budget] the budget of the first bundle, 0 when
    that is 0 or absent or when there is no bundle.  When [0 < T], the
    overall risk score is [W / T], where [W] adds up, over the bundles, the
    risk score of the bets of the bundle times the sum of the allocations of
    its bets; otherwise it is 0.  [T] is the sum of the allocations of all
    bets, bundle by bundle, when every bundle records the sum of the
    allocations of its bets. *)
Theorem calculatePortfolioMetrics_spec (bundles : list (Js.HedgeBundle num)) :
  let m := Js.calculatePortfolioMetrics bundles in
  let allocated := fun b : Js.HedgeBundle num =>
    fold_left (fun sum bet => Js.add sum (Js.allocation bet)) (Js.bets b) (Js.lit 0) in
  let T := fold_left (fun sum b => Js.add sum (Js.total_allocated b)) bundles (Js.lit 0) in
  let W := fold_left (fun sum b =>
                        Js.add sum (Js.mul (Js.calculateRiskScore (Js.bets b))
                                           (allocated b)))
                     bundles (Js.lit 0) in
  Js.PortfolioMetrics.total_allocated m = T /\
  Js.PortfolioMetrics.total_budget m
    = Some (match bundles with
            | [] => Js.lit 0
            | first :: _ => Js.js_or (Js.budget first) (Js.lit 0)
            end) /\
  Js.PortfolioMetrics.overall_risk_score m
    = (if Js.lt (Js.lit 0) T then Js.div W T else Js.lit 0) /\
  ((forall b, In b bundles -> Js.total_allocated b = allocated b) ->
   T = fold_left (fun sum b => Js.add sum (allocated b)) bundles (Js.lit 0)).
Proof.
  intros m allocated T W.
  split; [reflexivity|]. split; [destruct bundles; reflexivity|]. split.
  - unfold m, Js.calculatePortfolioMetrics.
    cbn [Js.PortfolioMetrics.overall_risk_score].
    rewrite js_risk_weight. reflexivity.
  - intros Hsync. unfold T. now apply js_fold_left_ext.
Qed.

End Handlers.

Lemma calculatePortfolioMetrics_spec_witness :
  let bundles := [tenth_bundle; hundred_bundle] in
  let m := Js.calculatePortfolioMetrics bundles in
  Js.PortfolioMetrics.total_allocated m = 200%float /\
  Js.PortfolioMetrics.total_budget m = Some 100%float /\
  Js.PortfolioMetrics.overall_risk_score m
    = (if (0 <? 200)%float
       then (fold_left (fun sum b =>
                          sum + Js.calculateRiskScore (Js.bets b) * double_sum b)
                       bundles 0 / 200)
       else 0)%float.
Proof.
  intros bundles m.
  destruct (calculatePortfolioMetrics_spec (N := Js.binary64) bundles)
    as (Ht & Hb & Ho & _).
  split; [exact Ht|]. split; [exact Hb|]. exact Ho.
Defined.

(** * The engine over rounded numbers *)

(** ** Rounding *)

Lemma Rabs_le_bounds (x y : R) : Rabs x <= y -> - y <= x <= y.
Proof. unfold Rabs. destruct (Rcase_abs x); lra. Qed.

(** The rounding that does not round meets what is asked of a rounding. *)
Lemma exact_rounding : binary64_rounding (fun x => x).
Proof.
  split.
  - intros x _. replace (x - x) with 0 by ring. rewrite Rabs_R0.
    pose proof (Rabs_pos x). unfold unit_roundoff, eta. nra.
  - intros x y H. exact H.
  - reflexivity.
Qed.

Section Rounding.

Variable rnd : R -> R.
Hypothesis Hrnd : binary64_rounding rnd.

Lemma rnd_zero : rnd 0 = 0.
Proof. apply (rnd_integer rnd Hrnd 0). now vm_compute. Qed.

Lemma rnd_one : rnd 1 = 1.
Proof. apply (rnd_integer rnd Hrnd 1). now vm_compute. Qed.

Lemma rnd_nonneg (x : R) : 0 <= x -> 0 <= rnd x.
Proof. intros H. rewrite <- rnd_zero. now apply (rnd_monotone rnd Hrnd). Qed.

(** In the range of the normal doubles the error is relative. *)
Lemma rnd_normal (x : R) :
  normal x -> Rabs (rnd x - x) <= 2 * unit_roundoff * Rabs x.
Proof.
  intros [-> | [Hlo Hhi]].
  - rewrite rnd_zero. replace (0 - 0) with 0 by ring. rewrite Rabs_R0. lra.
  - pose proof (rnd_error rnd Hrnd x Hhi) as H.
    unfold unit_roundoff, eta, smallest_normal in *. lra.
Qed.

Lemma rnd_normal_pos (x : R) :
  smallest_normal <= x <= largest ->
  x * (1 - 2 * unit_roundoff) <= rnd x <= x * (1 + 2 * unit_roundoff).
Proof.
  intros [Hlo Hhi].
  assert (Hpos : 0 < x) by (unfold smallest_normal in Hlo;
                            pose proof (pow_lt 2 1022 ltac:(lra));
                            pose proof (Rinv_0_lt_compat _ H); lra).
  assert (Hn : normal x) by (right; rewrite Rabs_right; lra).
  pose proof (rnd_normal x Hn) as H.
  rewrite (Rabs_right x) in H by lra.
  apply Rabs_le_bounds in H. lra.
Qed.

(** Everywhere below [largest] the error is relative up to [eta]. *)
Lemma rnd_bounds (x : R) :
  0 <= x <= largest ->
  (1 - unit_roundoff) * x - eta <= rnd x <= (1 + unit_roundoff) * x + eta.
Proof.
  intros [Hlo Hhi].
  assert (Habs : Rabs x <= largest) by (rewrite Rabs_right; lra).
  pose proof (rnd_error rnd Hrnd x Habs) as H.
  rewrite (Rabs_right x) in H by lra.
  apply Rabs_le_bounds in H. lra.
Qed.

End Rounding.

(** ** Trigger B over rounded numbers *)

Section RoundedBudget.

Variable rnd : R -> R.
Hypothesis Hrnd : binary64_rounding rnd.

Local Abbreviation Nr := (Js.rounded rnd).

Lemma rounded_js_or_some (v d : R) : v <> 0 -> Js.js_or (N := Nr) (Some v) d = v.
Proof.
  intros H. unfold Js.js_or. cbn [Js.falsy Js.rounded].
  destruct (Req_dec_T v 0); [contradiction | reflexivity].
Qed.

Lemma rounded_budget_change (s : Js.State R) (nb B : R)
    (first : Js.HedgeBundle R) (rest : list (Js.HedgeBundle R)) :
  Js.currentBundles s = first :: rest ->
  Js.js_or (N := Nr) (Js.budget first) 100 = B -> 0 < B -> 0 < nb ->
  Js.handleUpdateBudget (N := Nr) s (Some nb) =
    Js.Done (Js.recalculatemetrics (N := Nr)
               (map (Js.rescaled (N := Nr) nb (rnd (nb / B))) (Js.currentBundles s))
               (Js.budget_typed s (Some nb))).
Proof.
  intros Hcur Hold HB Hnb.
  rewrite (js_handleUpdateBudget_scales (N := Nr) s nb first rest Hcur).
  - cbn [Js.div Js.lit Js.rounded]. now rewrite Hold.
  - reflexivity.
  - cbn [Js.le Js.lit Js.rounded]. destruct (Rle_dec nb 0); [lra | reflexivity].
  - cbn [Js.le Js.lit Js.rounded]. rewrite Hold.
    destruct (Rle_dec B 0); [lra | reflexivity].
Qed.

(** The quotient of two budgets in range is a normal number, and so is its
    product with an allocation in range. *)
Lemma budget_quotient (nb B : R) :
  / 2 ^ 400 <= nb <= 2 ^ 400 -> / 2 ^ 400 <= B <= 2 ^ 400 ->
  / 2 ^ 800 <= nb / B <= 2 ^ 800.
Proof.
  intros [Hn1 Hn2] [HB1 HB2].
  assert (H400 : 0 < 2 ^ 400) by (apply pow_lt; lra).
  assert (Hi400 : 0 < / 2 ^ 400) by now apply Rinv_0_lt_compat.
  assert (HBpos : 0 < B) by lra.
  assert (HiB : / 2 ^ 400 <= / B <= 2 ^ 400).
  { split.
    - apply Rinv_le_contravar; lra.
    - rewrite <- (Rinv_inv (2 ^ 400)). apply Rinv_le_contravar; lra. }
  unfold Rdiv.
  replace (/ 2 ^ 800) with (/ 2 ^ 400 * / 2 ^ 400)
    by (rewrite <- Rinv_mult, <- pow_add; reflexivity).
  replace (2 ^ 800) with (2 ^ 400 * 2 ^ 400) by (rewrite <- pow_add; reflexivity).
  split; apply Rmult_le_compat; lra.
Qed.

Lemma scaled_ratio (a nb B : R) :
  / 2 ^ 400 <= nb <= 2 ^ 400 -> / 2 ^ 400 <= B <= 2 ^ 400 ->
  a = 0 \/ / 2 ^ 200 <= Rabs a <= 2 ^ 200 ->
  Rabs (rnd (a * rnd (nb / B)) / nb - a / B) <= / 2 ^ 50 * Rabs (a / B).
Proof.
  intros Hnb HB Ha.
  pose proof (budget_quotient nb B Hnb HB) as Hq.
  set (q := nb / B) in *.
  assert (H400 : 0 < / 2 ^ 400) by (apply Rinv_0_lt_compat, pow_lt; lra).
  assert (H800 : 0 < / 2 ^ 800) by (apply Rinv_0_lt_compat, pow_lt; lra).
  assert (Hnbpos : 0 < nb) by lra.
  assert (HBpos : 0 < B) by lra.
  assert (Hqpos : 0 < q) by lra.
  assert (Hc : q * (1 - 2 * unit_roundoff) <= rnd q <= q * (1 + 2 * unit_roundoff)).
  { apply (rnd_normal_pos rnd Hrnd). unfold smallest_normal, largest. lra. }
  set (c := rnd q) in *.
  assert (Hu : unit_roundoff = / 2 ^ 53) by reflexivity.
  assert (Hcpos : 0 < c) by (rewrite Hu in Hc; nra).
  destruct Ha as [-> | [Ha1 Ha2]].
  - rewrite Rmult_0_l, (rnd_zero rnd Hrnd).
    unfold Rdiv. rewrite !Rmult_0_l, Rminus_0_r, Rabs_R0. lra.
  - set (A := Rabs a) in *.
    assert (HA : 0 < A) by (assert (0 < / 2 ^ 200)
                              by (apply Rinv_0_lt_compat, pow_lt; lra); lra).
    assert (Hac : Rabs (a * c) = A * c)
      by (rewrite Rabs_mult, (Rabs_right c); [reflexivity | lra]).
    assert (Hnormal : normal (a * c)).
    { right. rewrite Hac. unfold smallest_normal, largest.
      assert (/ 2 ^ 200 * (/ 2 ^ 800 * (1 - 2 * / 2 ^ 53)) <= A * c).
      { apply Rmult_le_compat; try lra. rewrite Hu in Hc. nra. }
      assert (A * c <= 2 ^ 200 * (2 ^ 800 * (1 + 2 * / 2 ^ 53))).
      { apply Rmult_le_compat; try lra. rewrite Hu in Hc. nra. }
      lra. }
    pose proof (rnd_normal rnd Hrnd (a * c) Hnormal) as Hr.
    rewrite Hac in Hr.
    set (r := rnd (a * c)) in *.
    replace (r / nb - a / B) with ((r - a * q) * / nb)
      by (unfold q; field; lra).
    replace (a / B) with (a * q * / nb) by (unfold q; field; lra).
    rewrite !Rabs_mult, (Rabs_right (/ nb)), (Rabs_right q)
      by (try (apply Rle_ge, Rlt_le, Rinv_0_lt_compat); lra).
    fold A.
    assert (Hgap : Rabs (r - a * q) <= / 2 ^ 50 * (A * q)).
    { replace (r - a * q) with ((r - a * c) + a * (c - q)) by ring.
      eapply Rle_trans; [apply Rabs_triang|].
      rewrite Rabs_mult. fold A.
      assert (Hcq : Rabs (c - q) <= 2 * unit_roundoff * q).
      { apply Rabs_le. lra. }
      assert (A * Rabs (c - q) <= A * (2 * unit_roundoff * q))
        by (apply Rmult_le_compat_l; lra).
      assert (A * c <= A * (q * (1 + 2 * unit_roundoff)))
        by (apply Rmult_le_compat_l; lra).
      assert (0 <= A * q) by nra.
      rewrite Hu in *. nra. }
    assert (Hinb : 0 < / nb) by now apply Rinv_0_lt_compat.
    replace (/ 2 ^ 50 * (A * q * / nb)) with (/ 2 ^ 50 * (A * q) * / nb) by ring.
    apply Rmult_le_compat_r; lra.
Qed.

(** C4, as amended: with a positive new budget and a first bundle whose
    recorded budget [B] is positive, the budget change completes, every
    bundle gets the new budget, and the allocation and the payout of every
    bet of every bundle are multiplied by the quotient [new_budget / B],
    each product and the quotient rounded to a double.  In a bundle whose
    recorded budget was [B], the ratio of allocation to budget is kept up
    to the relative error 2^-50, for budgets between 2^-400 and 2^400 and an
    allocation that is 0 or between 2^-200 and 2^200 in absolute value.  A
    first bundle with budget 100 and allocations [70, 30] has, after the
    budget 200, the allocations [140, 60] and twice its payouts. *)
Theorem trigger_b_scaling :
  (forall s nb first rest B,
     Js.currentBundles s = first :: rest -> Js.budget first = Some B ->
     0 < B -> 0 < nb ->
     exists s',
       Js.handleUpdateBudget (N := Nr) s (Some nb) = Js.Done s' /\
       length (Js.currentBundles s') = length (Js.currentBundles s) /\
       forall i bundle j bet,
         nth_error (Js.currentBundles s) i = Some bundle ->
         nth_error (Js.bets bundle) j = Some bet ->
         exists bundle' bet',
           nth_error (Js.currentBundles s') i = Some bundle' /\
           nth_error (Js.bets bundle') j = Some bet' /\
           Js.budget bundle' = Some nb /\
           length (Js.bets bundle') = length (Js.bets bundle) /\
           Js.allocation bet' = rnd (Js.allocation bet * rnd (nb / B)) /\
           Js.potential_payout bet' = rnd (Js.potential_payout bet * rnd (nb / B)) /\
           Js.payout_multiplier bet' = Js.payout_multiplier bet /\
           (Js.budget bundle = Some B ->
            / 2 ^ 400 <= nb <= 2 ^ 400 -> / 2 ^ 400 <= B <= 2 ^ 400 ->
            Js.allocation bet = 0 \/
            / 2 ^ 200 <= Rabs (Js.allocation bet) <= 2 ^ 200 ->
            Rabs (Js.allocation bet' / nb - Js.allocation bet / B)
              <= / 2 ^ 50 * Rabs (Js.allocation bet / B))) /\
  (forall s first rest,
     Js.currentBundles s = first :: rest ->
     Js.budget first = Some 100 -> map Js.allocation (Js.bets first) = [70; 30] ->
     exists s' first' rest',
       Js.handleUpdateBudget (N := Nr) s (Some 200) = Js.Done s' /\
       Js.currentBundles s' = first' :: rest' /\
       Js.budget first' = Some 200 /\
       map Js.allocation (Js.bets first') = [140; 60] /\
       map Js.potential_payout (Js.bets first')
         = map (fun bet => rnd (Js.potential_payout bet * 2)) (Js.bets first)).
Proof.
  split.
  - intros s nb first rest B Hcur HB HBpos Hnb.
    assert (Hold : Js.js_or (N := Nr) (Js.budget first) 100 = B).
    { rewrite HB. apply rounded_js_or_some. lra. }
    eexists. split; [exact (rounded_budget_change s nb B first rest Hcur Hold HBpos Hnb)|].
    cbn [Js.currentBundles Js.recalculatemetrics]. split; [apply length_map|].
    intros i bundle j bet Hi Hj.
    exists (Js.rescaled (N := Nr) nb (rnd (nb / B)) bundle),
           (Js.scale_bet (N := Nr) (rnd (nb / B)) bet).
    split; [now rewrite nth_error_map, Hi|].
    split; [cbn [Js.bets Js.rescaled]; now rewrite nth_error_map, Hj|].
    split; [reflexivity|].
    split; [cbn [Js.bets Js.rescaled]; apply length_map|].
    split; [reflexivity|]. split; [reflexivity|]. split; [reflexivity|].
    intros _ Hrnb HrB Ha.
    cbn [Js.allocation Js.scale_bet Js.mul Js.rounded].
    now apply scaled_ratio.
  - intros s first rest Hcur HB Ha.
    assert (Hold : Js.js_or (N := Nr) (Js.budget first) 100 = 100).
    { rewrite HB. apply rounded_js_or_some. lra. }
    assert (Hscale : rnd (200 / 100) = 2).
    { replace (200 / 100) with (IZR 2) by (simpl; lra).
      apply (rnd_integer rnd Hrnd). now vm_compute. }
    pose proof (rounded_budget_change s 200 100 first rest Hcur Hold
                  ltac:(lra) ltac:(lra)) as Hdone.
    rewrite Hscale in Hdone.
    exists (Js.recalculatemetrics (N := Nr)
              (map (Js.rescaled (N := Nr) 200 2) (Js.currentBundles s))
              (Js.budget_typed s (Some 200))),
           (Js.rescaled (N := Nr) 200 2 first),
           (map (Js.rescaled (N := Nr) 200 2) rest).
    split; [exact Hdone|].
    split; [cbn [Js.currentBundles Js.recalculatemetrics]; now rewrite Hcur|].
    split; [reflexivity|].
    cbn [Js.bets Js.rescaled]. rewrite !map_map.
    split; [|reflexivity].
    destruct (Js.bets first) as [|b0 [|b1 [|b2 l]]]; try discriminate.
    injection Ha as H0 H1.
    cbn [map Js.allocation Js.scale_bet Js.mul Js.rounded]. rewrite H0, H1.
    replace (70 * 2) with (IZR 140) by (simpl; lra).
    replace (30 * 2) with (IZR 60) by (simpl; lra).
    rewrite !(rnd_integer rnd Hrnd) by now vm_compute.
    reflexivity.
Qed.

End RoundedBudget.

Lemma trigger_b_scaling_witness :
  exists s' first' rest',
    Js.handleUpdateBudget (N := Js.rounded (fun x => x))
      (real_page [real_rates_bundle] 100) (Some 200) = Js.Done s' /\
    Js.currentBundles s' = first' :: rest' /\
    Js.budget first' = Some 200 /\
    map Js.allocation (Js.bets first') = [140; 60] /\
    map Js.potential_payout (Js.bets first')
      = map (fun bet => Js.potential_payout bet * 2) (Js.bets real_rates_bundle).
Proof.
  apply (proj2 (trigger_b_scaling (fun x => x) exact_rounding)
           (real_page [real_rates_bundle] 100) real_rates_bundle []);
    reflexivity.
Defined.

(** ** Payout consistency over rounded numbers *)

Section RoundedPayouts.

Variable rnd : R -> R.
Hypothesis Hrnd : binary64_rounding rnd.

Local Abbreviation Nr := (Js.rounded rnd).

Lemma computed_near (bet : Js.HedgeBet R) :
  computed (N := Nr) bet ->
  normal (Js.allocation bet * Js.payout_multiplier bet) ->
  near (/ 2 ^ 52) bet.
Proof.
  unfold computed, near. cbn [Js.mul Js.rounded]. intros -> Hn.
  pose proof (rnd_normal rnd Hrnd _ Hn) as H.
  unfold unit_roundoff in H. lra.
Qed.

Lemma scale_bet_near (e scale : R) (bet : Js.HedgeBet R) :
  0 <= e <= / 2 ->
  normal (Js.allocation bet * scale) -> normal (Js.potential_payout bet * scale) ->
  near e bet -> near (e + / 2 ^ 50) (Js.scale_bet (N := Nr) scale bet).
Proof.
  intros He Ha Hp Hnear. unfold near in *.
  cbn [Js.allocation Js.potential_payout Js.payout_multiplier Js.scale_bet
       Js.mul Js.rounded].
  set (a := Js.allocation bet) in *. set (p := Js.potential_payout bet) in *.
  set (m := Js.payout_multiplier bet) in *.
  pose proof (rnd_normal rnd Hrnd _ Ha) as Ha'.
  pose proof (rnd_normal rnd Hrnd _ Hp) as Hp'.
  set (a' := rnd (a * scale)) in *. set (p' := rnd (p * scale)) in *.
  set (w := 2 * unit_roundoff) in *.
  assert (Hw : w = / 2 ^ 52) by (unfold w, unit_roundoff; lra).
  set (X := Rabs (a * scale) * Rabs m).
  assert (HX : 0 <= X)
    by (apply Rmult_le_pos; apply Rabs_pos).
  assert (HK : Rabs ((p - a * m) * scale) <= e * X).
  { rewrite Rabs_mult. unfold X.
    replace (Rabs (a * scale) * Rabs m) with (Rabs (a * m) * Rabs scale)
      by (rewrite !Rabs_mult; ring).
    pose proof (Rabs_pos scale).
    replace (e * (Rabs (a * m) * Rabs scale)) with (e * Rabs (a * m) * Rabs scale)
      by ring.
    apply Rmult_le_compat_r; assumption. }
  assert (HP : Rabs (p * scale) <= Rabs ((p - a * m) * scale) + X).
  { replace (p * scale) with ((p - a * m) * scale + a * scale * m) by ring.
    eapply Rle_trans; [apply Rabs_triang|].
    unfold X. rewrite (Rabs_mult (a * scale) m). lra. }
  assert (Hgap : Rabs (p' - a' * m)
                 <= w * Rabs (p * scale) + Rabs ((p - a * m) * scale) + w * X).
  { replace (p' - a' * m)
      with ((p' - p * scale) + (p - a * m) * scale + (a * scale - a') * m) by ring.
    eapply Rle_trans; [apply Rabs_triang|].
    eapply Rle_trans; [apply Rplus_le_compat_r, Rabs_triang|].
    rewrite (Rabs_mult (a * scale - a') m), (Rabs_minus_sym (a * scale) a').
    assert (Rabs (a' - a * scale) * Rabs m <= w * Rabs (a * scale) * Rabs m)
      by (apply Rmult_le_compat_r; [apply Rabs_pos | exact Ha']).
    unfold X. lra. }
  assert (Hlow : (1 - w) * X <= Rabs (a' * m)).
  { rewrite Rabs_mult. unfold X.
    assert (Rabs (a * scale) - w * Rabs (a * scale) <= Rabs a').
    { replace (a * scale) with (a' + (a * scale - a')) at 1 by ring.
      pose proof (Rabs_triang a' (a * scale - a')) as Ht.
      rewrite (Rabs_minus_sym (a * scale) a') in Ht. lra. }
    pose proof (Rabs_pos m).
    replace ((1 - w) * (Rabs (a * scale) * Rabs m))
      with ((Rabs (a * scale) - w * Rabs (a * scale)) * Rabs m) by ring.
    apply Rmult_le_compat_r; assumption. }
  assert (Hpoly : w * (e * X + X) + e * X + w * X <= (e + / 2 ^ 50) * ((1 - w) * X)).
  { replace (/ 2 ^ 50) with (4 * w) by (rewrite Hw; lra).
    assert (0 <= X * (w * (2 - 2 * e - 4 * w))).
    { apply Rmult_le_pos; [exact HX|]. rewrite Hw.
      apply Rmult_le_pos; lra. }
    nra. }
  assert (Hw0 : 0 <= w) by (rewrite Hw; lra).
  assert (w * Rabs (p * scale) <= w * (e * X + X))
    by (apply Rmult_le_compat_l; lra).
  assert ((e + / 2 ^ 50) * ((1 - w) * X) <= (e + / 2 ^ 50) * Rabs (a' * m))
    by (apply Rmult_le_compat_l; lra).
  lra.
Qed.

(** C2, as amended.  A trigger that completes leaves the pristine bundles
    as they are, and every bet of the working bundles is one of three: a
    bet that the page held before, unchanged; a bet whose payout the
    trigger has computed as the product of its allocation and its
    multiplier, rounded to a double; or a bet that the page held before
    with its allocation and its payout each multiplied by the same scale
    and rounded.  A computed payout is the allocation times the multiplier
    up to the relative error 2^-52, and a scaling adds at most 2^-50 to the
    relative error between the payout and the allocation times the
    multiplier, when the products are zero or in the range of the normal
    doubles. *)
Theorem payout_consistency :
  (forall s t s',
     Js.step (N := Nr) s t = Js.Done s' ->
     Js.originalBundles s' = Js.originalBundles s /\
     forall bundle' bet',
       In bundle' (Js.currentBundles s') -> In bet' (Js.bets bundle') ->
       kept s bet' \/
       Js.potential_payout bet'
         = rnd (Js.allocation bet' * Js.payout_multiplier bet') \/
       exists scale bet,
         kept s bet /\
         Js.allocation bet' = rnd (Js.allocation bet * scale) /\
         Js.potential_payout bet' = rnd (Js.potential_payout bet * scale) /\
         Js.payout_multiplier bet' = Js.payout_multiplier bet) /\
  (forall bet,
     Js.potential_payout bet = rnd (Js.allocation bet * Js.payout_multiplier bet) ->
     normal (Js.allocation bet * Js.payout_multiplier bet) ->
     near (/ 2 ^ 52) bet) /\
  (forall e scale bet bet',
     0 <= e <= / 2 ->
     Js.allocation bet' = rnd (Js.allocation bet * scale) ->
     Js.potential_payout bet' = rnd (Js.potential_payout bet * scale) ->
     Js.payout_multiplier bet' = Js.payout_multiplier bet ->
     normal (Js.allocation bet * scale) ->
     normal (Js.potential_payout bet * scale) ->
     near e bet -> near (e + / 2 ^ 50) bet').
Proof.
  split; [|split].
  - intros s t s' Hstep.
    destruct (js_step_bets (N := Nr) s s' t Hstep) as [Horig Hbets].
    split; [exact Horig|]. intros bundle' bet' Hin Hbet.
    destruct (Hbets bundle' bet' Hin Hbet) as [H | [H | (scale & bet & Hk & ->)]].
    + now left.
    + right. left. exact H.
    + right. right. exists scale, bet. repeat split. exact Hk.
  - intros bet Hc Hn. now apply computed_near.
  - intros e scale bet bet' He Ha Hp Hm Hna Hnp Hnear.
    pose proof (scale_bet_near e scale bet He Hna Hnp Hnear) as H.
    unfold near in *.
    cbn [Js.allocation Js.potential_payout Js.payout_multiplier Js.scale_bet
         Js.mul Js.rounded] in H.
    now rewrite Ha, Hp, Hm.
Qed.

End RoundedPayouts.

Lemma payout_consistency_witness :
  near (0 + / 2 ^ 50) (Js.scale_bet (N := Js.rounded (fun x => x)) 2 (real_bet 70 2)).
Proof.
  apply (proj2 (proj2 (payout_consistency (fun x => x) exact_rounding))
           0 2 (real_bet 70 2)).
  - lra.
  - reflexivity.
  - reflexivity.
  - reflexivity.
  - right. simpl. rewrite Rabs_right by lra. unfold smallest_normal, largest. lra.
  - right. simpl. rewrite Rabs_right by lra. unfold smallest_normal, largest. lra.
  - unfold near. simpl. replace (70 * 2 - 70 * 2) with 0 by ring.
    rewrite Rabs_R0. lra.
Defined.

(** ** Trigger A over rounded numbers *)

Section RoundedEdit.

Variable rnd : R -> R.
Hypothesis Hrnd : binary64_rounding rnd.

Local Abbreviation Nr := (Js.rounded rnd).

(** The sum that [reduce] takes of numbers that are not negative, rounding
    after every addition, against their sum. *)
Lemma rounded_sum_from {A : Type} (f : A -> R) (l : list A) (acc x : R) (k : nat) :
  0 <= acc -> 0 <= x ->
  Rabs (acc - x) <= 2 * INR k * (unit_roundoff * x + eta) ->
  (forall b, In b l -> 0 <= f b) ->
  x + Rsum (map f l) <= 2 ^ 1000 ->
  (k + length l <= 2 ^ 20)%nat ->
  0 <= fold_left (fun sum b => rnd (sum + f b)) l acc /\
  Rabs (fold_left (fun sum b => rnd (sum + f b)) l acc - (x + Rsum (map f l)))
    <= 2 * INR (k + length l) * (unit_roundoff * (x + Rsum (map f l)) + eta).
Proof.
  revert acc x k. induction l as [|a t IH]; intros acc x k Hacc Hx Herr Hpos Hmax Hlen.
  - simpl. rewrite Nat.add_0_r, Rplus_0_r. split; assumption.
  - change (Rsum (map f (a :: t))) with (f a + Rsum (map f t)) in *.
    cbn [fold_left length] in *.
    assert (Ha : 0 <= f a) by (apply Hpos; now left).
    assert (Hrest : 0 <= Rsum (map f t)).
    { clear - Hpos. induction t as [|b t IH]; simpl; [lra|].
      assert (0 <= f b) by (apply Hpos; right; now left).
      assert (0 <= Rsum (map f t)); [|lra].
      apply IH. intros c [Hc|Hc]; apply Hpos; [now left | right; now right]. }
    assert (HK : 0 <= INR k <= 2 ^ 20).
    { split; [apply pos_INR|].
      replace (2 ^ 20) with (INR (2 ^ 20)) by (rewrite pow_INR; simpl; lra).
      apply le_INR. lia. }
    pose proof (rnd_error rnd Hrnd (acc + f a)) as Hr.
    unfold unit_roundoff, eta, largest in *.
    set (m := / 2 ^ 53 * x + / 2 ^ 1075) in *.
    set (m' := / 2 ^ 53 * (x + f a) + / 2 ^ 1075).
    assert (Hm : 0 <= m <= m') by (unfold m, m'; lra).
    assert (Hm' : m' <= / 2 ^ 53 * 2 ^ 1000 + / 2 ^ 1075) by (unfold m'; lra).
    assert (HKm : 0 <= INR k * m <= INR k * m')
      by (split; [apply Rmult_le_pos | apply Rmult_le_compat_l]; lra).
    assert (HKm' : INR k * m' <= 2 ^ 20 * m')
      by (apply Rmult_le_compat_r; lra).
    apply Rabs_le_bounds in Herr.
    assert (Hy : 0 <= acc + f a <= x + f a + 2 * (INR k * m)) by lra.
    rewrite (Rabs_right (acc + f a)) in Hr by lra.
    specialize (Hr ltac:(lra)).
    apply Rabs_le_bounds in Hr.
    destruct (IH (rnd (acc + f a)) (x + f a) (S k)) as [H1 H2].
    + apply (rnd_nonneg rnd Hrnd). lra.
    + lra.
    + rewrite S_INR. apply Rabs_le. fold m'.
      assert (Em' : m' = / 2 ^ 53 * (x + f a) + / 2 ^ 1075) by reflexivity.
      assert (Hsmall : / 2 ^ 53 * (2 * (INR k * m)) <= m') by lra.
      lra.
    + intros b Hb. apply Hpos. now right.
    + lra.
    + lia.
    + split; [exact H1|].
      replace (x + (f a + Rsum (map f t))) with (x + f a + Rsum (map f t)) by ring.
      replace (k + S (length t))%nat with (S k + length t)%nat by lia.
      exact H2.
Qed.

Lemma rounded_sum_zero {A : Type} (f : A -> R) (l : list A) :
  (forall b, In b l -> f b = 0) ->
  fold_left (fun sum b => rnd (sum + f b)) l 0 = 0.
Proof.
  induction l as [|a t IH]; intros Hz; [reflexivity|].
  cbn [fold_left]. rewrite (Hz a) by now left.
  rewrite Rplus_0_r, (rnd_zero rnd Hrnd). apply IH.
  intros b Hb. apply Hz. now right.
Qed.

(** The rounded sum of numbers that are not negative, and that add up to
    2^-900 at least, is positive and near their sum. *)
Lemma rounded_sum_ratio {A : Type} (f : A -> R) (l : list A) :
  (forall b, In b l -> 0 <= f b) ->
  / 2 ^ 900 <= Rsum (map f l) <= 2 ^ 1000 ->
  (length l <= 2 ^ 20)%nat ->
  let total := fold_left (fun sum b => rnd (sum + f b)) l 0 in
  let g := 3 * INR (length l) * unit_roundoff in
  0 < total /\
  (1 - g) * total <= Rsum (map f l) <= (1 + 2 * g) * total.
Proof.
  intros Hpos [Hlo Hhi] Hlen total g.
  destruct (rounded_sum_from f l 0 0 0) as [H0 Herr]; try lra.
  - simpl. rewrite Rminus_0_r, Rabs_R0. unfold unit_roundoff, eta. lra.
  - exact Hpos.
  - exact Hlen.
  - fold total in H0, Herr. rewrite Rplus_0_l in Herr. cbn [Nat.add] in Herr.
    set (S := Rsum (map f l)) in *.
    set (n := INR (length l)) in *.
    assert (Hn : 0 <= n <= 2 ^ 20).
    { split; [apply pos_INR|].
      replace (2 ^ 20) with (INR (2 ^ 20)) by (rewrite pow_INR; simpl; lra).
      apply le_INR. exact Hlen. }
    assert (H900 : 0 < / 2 ^ 900) by (apply Rinv_0_lt_compat, pow_lt; lra).
    unfold g, unit_roundoff, eta in *.
    apply Rabs_le_bounds in Herr.
    assert (HnS : 0 <= n * S) by (apply Rmult_le_pos; lra).
    assert (Heta : n * / 2 ^ 1075 <= n * (/ 2 ^ 54 * S))
      by (apply Rmult_le_compat_l; lra).
    assert (HnS' : n * S <= 2 ^ 20 * S) by (apply Rmult_le_compat_r; lra).
    assert (Hnt : 0 <= n * total) by (apply Rmult_le_pos; lra).
    assert (Hnt' : n * total <= 2 ^ 20 * total) by (apply Rmult_le_compat_r; lra).
    assert (Hnn : 0 <= n * n * total)
      by (apply Rmult_le_pos; [apply Rmult_le_pos|]; lra).
    assert (Hnn' : n * n * total <= 2 ^ 20 * (n * total)).
    { replace (n * n * total) with (n * (n * total)) by ring.
      apply Rmult_le_compat_r; lra. }
    split; [lra|]. split; nra.
Qed.

(** Rounding every term moves a sum of terms that are not negative by the
    unit roundoff times the sum, and by [eta] for every term. *)
Lemma rounded_terms {A : Type} (w : A -> R) (l : list A) :
  (forall b, In b l -> 0 <= w b <= largest) ->
  (forall b, In b l -> 0 <= rnd (w b)) /\
  (1 - unit_roundoff) * Rsum (map w l) - INR (length l) * eta
    <= Rsum (map (fun b => rnd (w b)) l)
    <= (1 + unit_roundoff) * Rsum (map w l) + INR (length l) * eta.
Proof.
  intros Hw. split.
  - intros b Hb. apply (rnd_nonneg rnd Hrnd). now apply Hw.
  - induction l as [|a t IH].
    + simpl. lra.
    + change (Rsum (map w (a :: t))) with (w a + Rsum (map w t)).
      change (Rsum (map (fun b => rnd (w b)) (a :: t)))
        with (rnd (w a) + Rsum (map (fun b => rnd (w b)) t)).
      change (length (a :: t)) with (S (length t)). rewrite S_INR.
      pose proof (rnd_bounds rnd Hrnd (w a) (Hw a (or_introl eq_refl))) as Ha.
      assert (Ht : forall b, In b t -> 0 <= w b <= largest)
        by (intros b Hb; apply Hw; now right).
      specialize (IH Ht). lra.
Qed.

(** The arithmetic of one edit: [n] other bets, the rest [D] of the budget
    [B], its rounding [r], the sum [Q] of the shares and the sum [T] of the
    new allocations of the other bets. *)
Lemma edit_error (n D B r Q T : R) :
  1 <= n <= 2 ^ 20 -> / 2 ^ 400 <= B <= 2 ^ 400 -> 0 <= D <= B ->
  0 <= r ->
  (1 - / 2 ^ 53) * D - / 2 ^ 1075 <= r <= (1 + / 2 ^ 53) * D + / 2 ^ 1075 ->
  (1 - / 2 ^ 53) * (1 - 3 * n * / 2 ^ 53) - n * / 2 ^ 1075 <= Q
    <= (1 + / 2 ^ 53) * (1 + 2 * (3 * n * / 2 ^ 53)) + n * / 2 ^ 1075 ->
  (1 - / 2 ^ 53) * (r * Q) - n * / 2 ^ 1075 <= T
    <= (1 + / 2 ^ 53) * (r * Q) + n * / 2 ^ 1075 ->
  Rabs (T - D) <= (n + 1) * / 2 ^ 49 * B.
Proof.
  intros Hn HB HD Hr0 Hr HQ HT.
  assert (H400 : 0 < / 2 ^ 400) by (apply Rinv_0_lt_compat, pow_lt; lra).
  set (Ql := (1 - / 2 ^ 53) * (1 - 3 * n * / 2 ^ 53) - n * / 2 ^ 1075) in *.
  set (Qh := (1 + / 2 ^ 53) * (1 + 2 * (3 * n * / 2 ^ 53)) + n * / 2 ^ 1075) in *.
  assert (HQl : 1 - / 2 ^ 53 - 4 * n * / 2 ^ 53 <= Ql) by (unfold Ql; lra).
  assert (HQh : Qh <= 1 + / 2 ^ 53 + 7 * n * / 2 ^ 53) by (unfold Qh; lra).
  assert (HQl0 : 0 < Ql) by lra.
  clearbody Ql Qh.
  assert (HnD : 0 <= n * D <= n * B)
    by (split; [apply Rmult_le_pos | apply Rmult_le_compat_l]; lra).
  assert (HnB : 1 * B <= n * B) by (apply Rmult_le_compat_r; lra).
  apply Rabs_le. split.
  - destruct (Rle_dec 0 ((1 - / 2 ^ 53) * D - / 2 ^ 1075)) as [Hpos|Hneg].
    + assert (Hrq : ((1 - / 2 ^ 53) * D - / 2 ^ 1075) * Ql <= r * Q)
        by (apply Rmult_le_compat; lra).
      assert (H2 : ((1 - / 2 ^ 53) * D - / 2 ^ 1075) * (1 - / 2 ^ 53 - 4 * n * / 2 ^ 53)
                   <= ((1 - / 2 ^ 53) * D - / 2 ^ 1075) * Ql)
        by (apply Rmult_le_compat_l; lra).
      lra.
    + assert (0 <= r * Q) by (apply Rmult_le_pos; lra).
      lra.
  - assert (Hrq : r * Q <= ((1 + / 2 ^ 53) * D + / 2 ^ 1075) * Qh)
      by (apply Rmult_le_compat; lra).
    assert (H2 : ((1 + / 2 ^ 53) * D + / 2 ^ 1075) * Qh
                 <= ((1 + / 2 ^ 53) * D + / 2 ^ 1075) * (1 + / 2 ^ 53 + 7 * n * / 2 ^ 53))
      by (apply Rmult_le_compat_l; lra).
    lra.
Qed.

Variable bundle : Js.HedgeBundle R.
Variable betIndex : nat.
Variable value : R.

(** The names of the source, for the bundle at hand. *)
Local Abbreviation totalBudget := (Js.js_or (N := Nr) (Js.budget bundle) 100).
Local Abbreviation newAllocation := (Rmin (Rmax value 0) totalBudget).
Local Abbreviation otherBets := (filteri (not_target betIndex) (Js.bets bundle)).
Local Abbreviation currentSumOthers :=
  (fold_left (fun sum b => rnd (sum + Js.allocation b)) otherBets 0).

Lemma rounded_share_of (bet : Js.HedgeBet R) :
  Js.share_of (N := Nr) bundle betIndex bet
  = if Rlt_dec 0 currentSumOthers
    then rnd (Js.allocation bet / currentSumOthers)
    else rnd (1 / INR (length otherBets)).
Proof.
  unfold Js.share_of. cbv zeta. cbn [Js.lt Js.div Js.add Js.lit Js.rounded].
  rewrite <- INR_IZR_INZ.
  destruct (Rlt_dec 0 currentSumOthers); reflexivity.
Qed.

(** The shares of the other bets are not negative and add up to one, up to
    the rounding. *)
Lemma rounded_shares :
  (1 <= length otherBets <= 2 ^ 20)%nat ->
  (forall bet, In bet otherBets -> 0 <= Js.allocation bet) ->
  Rsum (map Js.allocation otherBets) = 0 \/
  / 2 ^ 900 <= Rsum (map Js.allocation otherBets) ->
  Rsum (map Js.allocation otherBets) <= 2 ^ 1000 ->
  let n := INR (length otherBets) in
  (forall bet, In bet otherBets ->
     0 <= Js.share_of (N := Nr) bundle betIndex bet <= 3) /\
  (1 - / 2 ^ 53) * (1 - 3 * n * / 2 ^ 53) - n * / 2 ^ 1075
    <= Rsum (map (Js.share_of (N := Nr) bundle betIndex) otherBets)
    <= (1 + / 2 ^ 53) * (1 + 2 * (3 * n * / 2 ^ 53)) + n * / 2 ^ 1075.
Proof.
  intros Hlen Hpos Hsum Hmax n.
  assert (Hn : 1 <= n <= 2 ^ 20).
  { unfold n. split.
    - replace 1 with (INR 1) by reflexivity. apply le_INR. lia.
    - replace (2 ^ 20) with (INR (2 ^ 20)) by (rewrite pow_INR; simpl; lra).
      apply le_INR. lia. }
  rewrite (map_ext _ _ rounded_share_of).
  destruct Hsum as [Hzero | Hlow].
  - (* equal shares *)
    assert (Hall : forall bet, In bet otherBets -> Js.allocation bet = 0).
    { intros bet Hin.
      pose proof (Rsum_ge_element Js.allocation otherBets bet Hpos Hin).
      pose proof (Hpos bet Hin). lra. }
    assert (Hst : currentSumOthers = 0) by now apply rounded_sum_zero.
    assert (Hw : forall bet : Js.HedgeBet R, In bet otherBets ->
                 0 <= 1 / n <= largest).
    { intros _ _. unfold largest.
      assert (0 < / n) by (apply Rinv_0_lt_compat; lra).
      assert (/ n <= 1) by (rewrite <- Rinv_1; apply Rinv_le_contravar; lra).
      lra. }
    destruct (rounded_terms (fun _ : Js.HedgeBet R => 1 / n) otherBets Hw)
      as [Hq0 Hq].
    rewrite Rsum_map_const in Hq. fold n in Hq.
    replace (n * (1 / n)) with 1 in Hq by (field; lra).
    unfold unit_roundoff, eta in Hq.
    assert (Hsame : forall bet : Js.HedgeBet R,
              (if Rlt_dec 0 currentSumOthers
               then rnd (Js.allocation bet / currentSumOthers)
               else rnd (1 / INR (length otherBets)))
              = rnd (1 / n)).
    { intros bet. rewrite Hst. destruct (Rlt_dec 0 0); [lra | reflexivity]. }
    rewrite (map_ext _ _ Hsame). split; [|lra].
    intros bet Hin. rewrite rounded_share_of, Hsame.
    pose proof (rnd_bounds rnd Hrnd (1 / n) (Hw bet Hin)) as Hb.
    unfold unit_roundoff, eta in Hb.
    assert (0 < / n) by (apply Rinv_0_lt_compat; lra).
    assert (/ n <= 1) by (rewrite <- Rinv_1; apply Rinv_le_contravar; lra).
    split; [apply (Hq0 bet Hin) | lra].
  - (* proportional shares *)
    destruct (rounded_sum_ratio Js.allocation otherBets Hpos (conj Hlow Hmax)
                ltac:(lia)) as [Hst Hratio].
    fold n in Hratio. unfold unit_roundoff in Hratio.
    set (St := currentSumOthers) in *.
    assert (HiSt : 0 < / St) by now apply Rinv_0_lt_compat.
    assert (Hg : 0 <= 3 * n * / 2 ^ 53 <= / 2 ^ 30) by lra.
    assert (Hw : forall bet, In bet otherBets ->
                 0 <= Js.allocation bet / St <= 2).
    { intros bet Hin.
      pose proof (Rsum_ge_element Js.allocation otherBets bet Hpos Hin) as Hle.
      pose proof (Hpos bet Hin) as H0.
      split; [apply Rmult_le_pos; lra|].
      apply (Rmult_le_reg_r St); [exact Hst|].
      replace (Js.allocation bet / St * St) with (Js.allocation bet)
        by (field; lra).
      assert (3 * n * / 2 ^ 53 * St <= / 2 ^ 30 * St)
        by (apply Rmult_le_compat_r; lra).
      lra. }
    assert (Hw' : forall bet, In bet otherBets ->
                  0 <= Js.allocation bet / St <= largest).
    { intros bet Hin. pose proof (Hw bet Hin). unfold largest. lra. }
    destruct (rounded_terms (fun bet => Js.allocation bet / St) otherBets Hw')
      as [Hq0 Hq].
    rewrite (Rsum_map_div Js.allocation) in Hq. fold n in Hq.
    unfold unit_roundoff, eta in Hq.
    assert (Hsame : forall bet : Js.HedgeBet R,
              (if Rlt_dec 0 St
               then rnd (Js.allocation bet / St)
               else rnd (1 / INR (length otherBets)))
              = rnd (Js.allocation bet / St)).
    { intros bet. destruct (Rlt_dec 0 St); [reflexivity | lra]. }
    rewrite (map_ext _ _ Hsame).
    assert (HSt : 1 - 3 * n * / 2 ^ 53
                  <= Rsum (map Js.allocation otherBets) / St
                  <= 1 + 2 * (3 * n * / 2 ^ 53)).
    { split; apply (Rmult_le_reg_r St); try exact Hst;
        replace (Rsum (map Js.allocation otherBets) / St * St)
          with (Rsum (map Js.allocation otherBets)) by (field; lra);
        lra. }
    split.
    + intros bet Hin. rewrite rounded_share_of, Hsame.
      pose proof (rnd_bounds rnd Hrnd _ (Hw' bet Hin)) as Hb.
      pose proof (Hw bet Hin).
      unfold unit_roundoff, eta in Hb.
      split; [apply (Hq0 bet Hin) | lra].
    + set (q := Rsum (map Js.allocation otherBets) / St) in *.
      assert ((1 - / 2 ^ 53) * (1 - 3 * n * / 2 ^ 53) <= (1 - / 2 ^ 53) * q)
        by (apply Rmult_le_compat_l; lra).
      assert ((1 + / 2 ^ 53) * q <= (1 + / 2 ^ 53) * (1 + 2 * (3 * n * / 2 ^ 53)))
        by (apply Rmult_le_compat_l; lra).
      lra.
Qed.

Lemma rounded_clamp :
  0 < totalBudget -> 0 <= newAllocation <= totalBudget.
Proof.
  intros HB. unfold Rmin, Rmax.
  destruct (Rle_dec value 0);
    [destruct (Rle_dec 0 totalBudget) | destruct (Rle_dec value totalBudget)]; lra.
Qed.

(** The new allocations of the other bets are not negative and add up to
    the rest of the budget, up to the rounding. *)
Lemma rounded_others_total :
  (1 <= length otherBets <= 2 ^ 20)%nat ->
  / 2 ^ 400 <= totalBudget <= 2 ^ 400 ->
  (forall bet, In bet otherBets -> 0 <= Js.allocation bet) ->
  Rsum (map Js.allocation otherBets) = 0 \/
  / 2 ^ 900 <= Rsum (map Js.allocation otherBets) ->
  Rsum (map Js.allocation otherBets) <= 2 ^ 1000 ->
  let new := fun bet =>
    rnd (rnd (totalBudget - newAllocation)
         * Js.share_of (N := Nr) bundle betIndex bet) in
  (forall bet, In bet otherBets -> 0 <= new bet) /\
  Rabs (Rsum (map new otherBets) - (totalBudget - newAllocation))
    <= (INR (length otherBets) + 1) * / 2 ^ 49 * totalBudget.
Proof.
  intros Hlen HB Hpos Hsum Hmax new.
  assert (H400 : 0 < / 2 ^ 400) by (apply Rinv_0_lt_compat, pow_lt; lra).
  pose proof (rounded_clamp ltac:(lra)) as Hv.
  set (B := totalBudget) in *. set (v := Rmin (Rmax value 0) B) in *.
  set (D := B - v) in *.
  assert (HD : 0 <= D <= B) by (unfold D; lra).
  assert (HDl : 0 <= D <= largest) by (unfold largest; lra).
  pose proof (rnd_bounds rnd Hrnd D HDl) as Hr.
  pose proof (rnd_nonneg rnd Hrnd D ltac:(lra)) as Hr0.
  unfold unit_roundoff, eta in Hr.
  set (r := rnd D) in *.
  destruct (rounded_shares Hlen Hpos Hsum Hmax) as [Hshare HQ].
  set (n := INR (length otherBets)) in *.
  assert (Hn : 1 <= n <= 2 ^ 20).
  { unfold n. split.
    - replace 1 with (INR 1) by reflexivity. apply le_INR. lia.
    - replace (2 ^ 20) with (INR (2 ^ 20)) by (rewrite pow_INR; simpl; lra).
      apply le_INR. lia. }
  assert (Hw : forall bet, In bet otherBets ->
               0 <= r * Js.share_of (N := Nr) bundle betIndex bet <= largest).
  { intros bet Hin. destruct (Hshare bet Hin) as [H0 H3].
    split; [now apply Rmult_le_pos|].
    assert (r * Js.share_of (N := Nr) bundle betIndex bet <= (2 * 2 ^ 400 + 1) * 3)
      by (apply Rmult_le_compat; lra).
    unfold largest. lra. }
  destruct (rounded_terms
              (fun bet => r * Js.share_of (N := Nr) bundle betIndex bet)
              otherBets Hw) as [Hnew0 HT].
  rewrite (Rsum_map_scale (Js.share_of (N := Nr) bundle betIndex) r) in HT.
  fold n in HT. unfold unit_roundoff, eta in HT.
  split; [exact Hnew0|].
  apply (edit_error n D B r
           (Rsum (map (Js.share_of (N := Nr) bundle betIndex) otherBets))); assumption.
Qed.

Lemma rounded_edited_sum_from (new : Js.HedgeBet R -> R) (v : R) (k : nat)
    (l : list (Js.HedgeBet R)) :
  Rsum (map Js.allocation
          (mapi_from (fun bet idx =>
                        if (idx =? betIndex)%nat then Js.allocate (N := Nr) v bet
                        else Js.allocate (N := Nr) (new bet) bet)
                     k l))
  = Rsum (map new (filteri_from (not_target betIndex) k l))
    + (if in_range k (length l) betIndex then v else 0).
Proof.
  revert k; induction l as [|x l IH]; intros k.
  - cbn [mapi_from filteri_from map length]. rewrite in_range_empty. simpl. lra.
  - cbn [mapi_from filteri_from map length].
    change (not_target betIndex k) with (negb (k =? betIndex)%nat).
    destruct (Nat.eqb_spec k betIndex) as [->|Hne];
      cbn [negb map Js.allocate Js.allocation];
      change (Rsum (?a :: ?t)) with (a + Rsum t); rewrite IH.
    + rewrite in_range_here, in_range_past by lia. lra.
    + rewrite (in_range_next k (length l) betIndex Hne).
      change (Rsum (?a :: ?t)) with (a + Rsum t). lra.
Qed.

Lemma rounded_edited_bets_from (new : Js.HedgeBet R -> R) (v : R) (k : nat)
    (l : list (Js.HedgeBet R)) (bet' : Js.HedgeBet R) :
  In bet' (mapi_from (fun bet idx =>
                        if (idx =? betIndex)%nat then Js.allocate (N := Nr) v bet
                        else Js.allocate (N := Nr) (new bet) bet)
                     k l) ->
  Js.allocation bet' = v \/
  exists bet, In bet (filteri_from (not_target betIndex) k l) /\
              Js.allocation bet' = new bet.
Proof.
  revert k; induction l as [|x l IH]; intros k Hin; [destruct Hin|].
  cbn [mapi_from filteri_from] in *.
  change (not_target betIndex k) with (negb (k =? betIndex)%nat).
  destruct Hin as [<-|Hin].
  - destruct (Nat.eqb_spec k betIndex); [now left|].
    right. exists x. split; [now left | reflexivity].
  - destruct (IH (S k) Hin) as [H | (bet & Hbet & H)]; [now left|].
    right. exists bet. split; [|exact H].
    destruct (negb (k =? betIndex)%nat); [now right | exact Hbet].
Qed.

(** C1, as amended: in the engine over rounded numbers, an allocation edit
    of an existing bet of a bundle with two bets or more completes, and
    leaves the bundle with its budget and its number of bets,
    [total_allocated] equal to [B], no negative allocation, and
    allocations that add up to [B] to within the relative error
    [n * 2^-49], [n] being the number of bets; the sum that
    [calculateBundleMetrics] takes of them, rounding after every addition,
    is within [n * 2^-48].  [B] is the recorded budget, or 100 when that is
    0 or absent, and lies between 2^-400 and 2^400; before the edit the
    other bets have no negative allocation and add up to 0 or to a number
    between 2^-900 and 2^1000. *)
Theorem edits_keep_sum_equal_to_budget (s : Js.State R) (bundleIndex : nat) :
  nth_error (Js.currentBundles s) bundleIndex = Some bundle ->
  (betIndex < length (Js.bets bundle))%nat ->
  (2 <= length (Js.bets bundle) <= 2 ^ 20)%nat ->
  / 2 ^ 400 <= totalBudget <= 2 ^ 400 ->
  (forall bet, In bet otherBets -> 0 <= Js.allocation bet) ->
  Rsum (map Js.allocation otherBets) = 0 \/
  / 2 ^ 900 <= Rsum (map Js.allocation otherBets) ->
  Rsum (map Js.allocation otherBets) <= 2 ^ 1000 ->
  exists s' bundle',
    Js.handleUpdateBet (N := Nr) s bundleIndex betIndex Allocation value = Js.Done s' /\
    nth_error (Js.currentBundles s') bundleIndex = Some bundle' /\
    Js.budget bundle' = Js.budget bundle /\
    length (Js.bets bundle') = length (Js.bets bundle) /\
    Js.total_allocated bundle' = totalBudget /\
    (forall bet', In bet' (Js.bets bundle') -> 0 <= Js.allocation bet') /\
    Rabs (Rsum (map Js.allocation (Js.bets bundle')) - totalBudget)
      <= INR (length (Js.bets bundle)) * / 2 ^ 49 * totalBudget /\
    Rabs (Js.BundleMetrics.total_allocation
            (Js.calculateBundleMetrics (N := Nr) bundle') - totalBudget)
      <= INR (length (Js.bets bundle)) * / 2 ^ 48 * totalBudget /\
    (INR (length (Js.bets bundle)) * totalBudget <= 10 ^ 8 ->
     Rabs (Rsum (map Js.allocation (Js.bets bundle')) - totalBudget) < 1e-6 /\
     Rabs (Js.BundleMetrics.total_allocation
             (Js.calculateBundleMetrics (N := Nr) bundle') - totalBudget) < 1e-6).
Proof.
  intros Hnth Hi Hlen HB Hpos Hsum Hmax.
  enough (Hbounds :
    exists s' bundle',
      Js.handleUpdateBet (N := Nr) s bundleIndex betIndex Allocation value = Js.Done s' /\
      nth_error (Js.currentBundles s') bundleIndex = Some bundle' /\
      Js.budget bundle' = Js.budget bundle /\
      length (Js.bets bundle') = length (Js.bets bundle) /\
      Js.total_allocated bundle' = totalBudget /\
      (forall bet', In bet' (Js.bets bundle') -> 0 <= Js.allocation bet') /\
      Rabs (Rsum (map Js.allocation (Js.bets bundle')) - totalBudget)
        <= INR (length (Js.bets bundle)) * / 2 ^ 49 * totalBudget /\
      Rabs (Js.BundleMetrics.total_allocation
              (Js.calculateBundleMetrics (N := Nr) bundle') - totalBudget)
        <= INR (length (Js.bets bundle)) * / 2 ^ 48 * totalBudget).
  { destruct Hbounds as (s' & bundle' & H1 & H2 & H3 & H4 & H5 & H6 & H7 & H8).
    exists s', bundle'. repeat (split; [assumption|]).
    intros Hsize.
    replace (INR (length (Js.bets bundle)) * / 2 ^ 49 * totalBudget)
      with (/ 2 ^ 49 * (INR (length (Js.bets bundle)) * totalBudget)) in H7 by ring.
    replace (INR (length (Js.bets bundle)) * / 2 ^ 48 * totalBudget)
      with (/ 2 ^ 48 * (INR (length (Js.bets bundle)) * totalBudget)) in H8 by ring.
    split; lra. }
  destruct (js_allocation_edit (N := Nr) s bundleIndex betIndex value bundle Hnth)
    as (updated & _ & Hdone & Hat & _).
  exists (Js.recalculatemetrics (N := Nr) updated s),
         (Js.edited (N := Nr) bundle betIndex value).
  split; [exact Hdone|]. split; [exact Hat|]. split; [reflexivity|].
  assert (Hothers : S (length otherBets) = length (Js.bets bundle)).
  { destruct (nth_error (Js.bets bundle) betIndex) as [t|] eqn:Ht.
    - destruct (filteri_drops_target Js.allocation betIndex 0 (Js.bets bundle) t)
        as [_ Hl]; [lia | now rewrite Nat.sub_0_r | exact Hl].
    - apply nth_error_None in Ht. lia. }
  assert (H400 : 0 < / 2 ^ 400) by (apply Rinv_0_lt_compat, pow_lt; lra).
  pose proof (rounded_clamp ltac:(lra)) as Hv.
  destruct (rounded_others_total ltac:(lia) HB Hpos Hsum Hmax) as [Hnew0 Herr].
  set (new := fun bet =>
         rnd (rnd (totalBudget - newAllocation)
              * Js.share_of (N := Nr) bundle betIndex bet)) in *.
  assert (Hbets : Js.bets (Js.edited (N := Nr) bundle betIndex value)
                  = mapi_from (fun bet idx =>
                       if (idx =? betIndex)%nat
                       then Js.allocate (N := Nr) newAllocation bet
                       else Js.allocate (N := Nr) (new bet) bet)
                     0 (Js.bets bundle)) by reflexivity.
  assert (Hlen' : length (Js.bets (Js.edited (N := Nr) bundle betIndex value))
                  = length (Js.bets bundle)).
  { rewrite Hbets. apply mapi_from_length. }
  assert (Hall : forall bet', In bet' (Js.bets (Js.edited (N := Nr) bundle betIndex value)) ->
                 0 <= Js.allocation bet').
  { intros bet' Hin. rewrite Hbets in Hin.
    destruct (rounded_edited_bets_from new newAllocation 0 _ bet' Hin)
      as [-> | (bet & Hbet & ->)]; [lra | now apply Hnew0]. }
  assert (Htotal : Rabs (Rsum (map Js.allocation
                           (Js.bets (Js.edited (N := Nr) bundle betIndex value)))
                         - totalBudget)
                   <= INR (length (Js.bets bundle)) * / 2 ^ 49 * totalBudget).
  { rewrite Hbets, rounded_edited_sum_from, in_range_zero by exact Hi.
    rewrite <- Hothers, S_INR.
    replace (Rsum (map new (filteri_from (not_target betIndex) 0 (Js.bets bundle)))
             + newAllocation - totalBudget)
      with (Rsum (map new otherBets) - (totalBudget - newAllocation))
      by (unfold filteri; ring).
    exact Herr. }
  split; [exact Hlen'|]. split; [reflexivity|]. split; [exact Hall|].
  split; [exact Htotal|].
  set (bets' := Js.bets (Js.edited (N := Nr) bundle betIndex value)) in *.
  assert (Hcalc : Js.BundleMetrics.total_allocation
                    (Js.calculateBundleMetrics (N := Nr)
                       (Js.edited (N := Nr) bundle betIndex value))
                  = fold_left (fun sum b => rnd (sum + Js.allocation b)) bets' 0).
  { unfold Js.calculateBundleMetrics. fold bets'.
    destruct bets' as [|x t] eqn:E; [simpl in Hlen'; lia | reflexivity]. }
  rewrite Hcalc.
  set (n := INR (length (Js.bets bundle))) in *.
  assert (Hn : 2 <= n <= 2 ^ 20).
  { unfold n. split.
    - replace 2 with (INR 2) by (simpl; lra). apply le_INR. lia.
    - replace (2 ^ 20) with (INR (2 ^ 20)) by (rewrite pow_INR; simpl; lra).
      apply le_INR. lia. }
  set (B := totalBudget) in *.
  set (T := Rsum (map Js.allocation bets')) in *.
  apply Rabs_le_bounds in Htotal.
  assert (HnB : n * / 2 ^ 49 * B <= / 2 ^ 29 * B).
  { replace (n * / 2 ^ 49 * B) with (n * (/ 2 ^ 49 * B)) by ring.
    replace (/ 2 ^ 29 * B) with (2 ^ 20 * (/ 2 ^ 49 * B)) by (field; lra).
    apply Rmult_le_compat_r; lra. }
  destruct (rounded_sum_from Js.allocation bets' 0 0 0) as [_ Hs]; try lra.
  - simpl. rewrite Rminus_0_r, Rabs_R0. unfold unit_roundoff, eta. lra.
  - exact Hall.
  - fold T. lra.
  - rewrite Hlen'. lia.
  - fold T in Hs. rewrite Nat.add_0_l, Hlen' in Hs. fold n in Hs.
    rewrite Rplus_0_l in Hs. apply Rabs_le_bounds in Hs.
    unfold unit_roundoff, eta in Hs.
    assert (HT : 0 <= T <= 2 * B) by lra.
    assert (Hslack : 2 * n * (/ 2 ^ 53 * T + / 2 ^ 1075) <= n * / 2 ^ 49 * B).
    { replace (2 * n * (/ 2 ^ 53 * T + / 2 ^ 1075))
        with (n * (2 * (/ 2 ^ 53 * T + / 2 ^ 1075))) by ring.
      replace (n * / 2 ^ 49 * B) with (n * (/ 2 ^ 49 * B)) by ring.
      apply Rmult_le_compat_l; lra. }
    apply Rabs_le.
    replace (n * / 2 ^ 48 * B) with (n * / 2 ^ 49 * B + n * / 2 ^ 49 * B) by (field; lra).
    lra.
Qed.

End RoundedEdit.

Lemma edits_keep_sum_equal_to_budget_witness :
  let s := real_page [real_proportional_bundle] 100 in
  exists s' bundle',
    Js.handleUpdateBet (N := Js.rounded (fun x => x)) s 0 2 Allocation 20 = Js.Done s' /\
    nth_error (Js.currentBundles s') 0 = Some bundle' /\
    Js.budget bundle' = Some 100 /\
    length (Js.bets bundle') = 3%nat /\
    Js.total_allocated bundle' = 100 /\
    (forall bet', In bet' (Js.bets bundle') -> 0 <= Js.allocation bet') /\
    Rabs (Rsum (map Js.allocation (Js.bets bundle')) - 100)
      <= INR 3 * / 2 ^ 49 * 100 /\
    Rabs (Js.BundleMetrics.total_allocation
            (Js.calculateBundleMetrics (N := Js.rounded (fun x => x)) bundle') - 100)
      <= INR 3 * / 2 ^ 48 * 100 /\
    (INR 3 * 100 <= 10 ^ 8 ->
     Rabs (Rsum (map Js.allocation (Js.bets bundle')) - 100) < 1e-6 /\
     Rabs (Js.BundleMetrics.total_allocation
             (Js.calculateBundleMetrics (N := Js.rounded (fun x => x)) bundle') - 100)
     < 1e-6).
Proof.
  intros s.
  assert (E : Js.js_or (N := Js.rounded (fun x => x)) (Some 100) 100 = 100).
  { unfold Js.js_or; cbn. destruct (Req_dec_T 100 0); [lra | reflexivity]. }
  pose proof (edits_keep_sum_equal_to_budget (fun x => x) exact_rounding
                real_proportional_bundle 2 20 s 0 eq_refl) as H.
  change (Js.budget real_proportional_bundle) with (Some 100) in H.
  rewrite E in H.
  assert (Hsmall : forall n, / 2 ^ n <= 1).
  { intros n. rewrite <- Rinv_1.
    apply Rinv_le_contravar; [lra | apply pow_R1_Rle; lra]. }
  apply H.
  - simpl; lia.
  - split; [simpl; lia|].
    apply Nat.le_trans with (2 ^ 2)%nat; [simpl; lia|].
    apply Nat.pow_le_mono_r; lia.
  - pose proof (Hsmall 400%nat). pose proof (pow_R1_Rle 2 400 ltac:(lra)). lra.
  - cbn. intros bet [<- | [<- | []]]; cbn; lra.
  - right. cbn. pose proof (Hsmall 900%nat). lra.
  - cbn. pose proof (pow_R1_Rle 2 1000 ltac:(lra)). lra.
Defined.
